(** * Lexicon wiki: slug normaliser, wiki-link parser and page store

    A shallow embedding of the content-graph core of the Lexicon wiki
    (internal/database/pages.go, internal/database/revisions.go,
    internal/markdown/wikilink/parser.go, internal/markdown/markdown.go and
    internal/handler/pages.go) together with the properties its
    specification states about it, and of the code around it (the
    wiki-link renderer, the search query, the flash messages and the
    page handlers) with further properties read off the code.

    Go strings are byte sequences; they are modelled by [string], whose
    characters are the 256 byte values.  Runes are integers. *)

From Stdlib Require Import ZArith Zbitwise List String Ascii Bool Lia.
From Stdlib Require Import Sorted Permutation.
Import ListNotations.

Local Open Scope string_scope.
Local Open Scope Z_scope.

(** ** Bytes, runes and the parts of Go's [strings], [unicode/utf8] and
       [unicode] packages that the sources call *)

Module GoStrings.

Definition rune := Z.

Definition b2z (c : ascii) : Z := Z.of_N (N_of_ascii c).
Definition z2b (z : Z) : ascii := ascii_of_N (Z.to_N z).

(** [len(s)] *)
Definition len (s : string) : Z := Z.of_nat (String.length s).

Definition RuneError : rune := 0xFFFD.
Definition RuneSelf : Z := 0x80.
Definition locb : Z := 0x80.
Definition hicb : Z := 0xBF.

(** utf8's [first] table joined with [acceptRanges]: for a leading byte
    at or above [RuneSelf], either the byte starts no sequence, or it
    starts one of [size] bytes whose second byte must lie in [lo..hi]. *)
Inductive first_info : Type :=
| Invalid
| Multi (size : Z) (lo hi : Z).

Definition first (b0 : Z) : first_info :=
  if b0 <? 0xC2 then Invalid
  else if b0 <=? 0xDF then Multi 2 locb hicb
  else if b0 =? 0xE0 then Multi 3 0xA0 hicb
  else if b0 <=? 0xEC then Multi 3 locb hicb
  else if b0 =? 0xED then Multi 3 locb 0x9F
  else if b0 <=? 0xEF then Multi 3 locb hicb
  else if b0 =? 0xF0 then Multi 4 0x90 hicb
  else if b0 <=? 0xF3 then Multi 4 locb hicb
  else if b0 =? 0xF4 then Multi 4 locb 0x8F
  else Invalid.

Definition is_cont (b : Z) : bool := (locb <=? b) && (b <=? hicb).

(** [utf8.DecodeRuneInString]: the first rune of [s] and its width. *)
Definition DecodeRuneInString (s : string) : rune * nat :=
  match s with
  | EmptyString => (RuneError, 0%nat)
  | String c0 s1 =>
    let b0 := b2z c0 in
    if b0 <? RuneSelf then (b0, 1%nat)
    else
      match first b0 with
      | Invalid => (RuneError, 1%nat)
      | Multi sz lo hi =>
        match s1 with
        | EmptyString => (RuneError, 1%nat)
        | String c1 s2 =>
          let b1 := b2z c1 in
          if (b1 <? lo) || (hi <? b1) then (RuneError, 1%nat)
          else if sz <=? 2 then
            (Z.lor (Z.shiftl (Z.land b0 0x1F) 6) (Z.land b1 0x3F), 2%nat)
          else
            match s2 with
            | EmptyString => (RuneError, 1%nat)
            | String c2 s3 =>
              let b2 := b2z c2 in
              if negb (is_cont b2) then (RuneError, 1%nat)
              else if sz <=? 3 then
                (Z.lor (Z.lor (Z.shiftl (Z.land b0 0x0F) 12)
                              (Z.shiftl (Z.land b1 0x3F) 6))
                       (Z.land b2 0x3F), 3%nat)
              else
                match s3 with
                | EmptyString => (RuneError, 1%nat)
                | String c3 _ =>
                  let b3 := b2z c3 in
                  if negb (is_cont b3) then (RuneError, 1%nat)
                  else
                    (Z.lor (Z.lor (Z.lor (Z.shiftl (Z.land b0 0x07) 18)
                                         (Z.shiftl (Z.land b1 0x3F) 12))
                                  (Z.shiftl (Z.land b2 0x3F) 6))
                           (Z.land b3 0x3F), 4%nat)
                end
            end
        end
      end
  end.

(** [for _, r := range s]: the runes of [s] in order.  [skip] counts the
    continuation bytes of the rune decoded last that are still ahead. *)
Fixpoint range_from (skip : nat) (s : string) : list rune :=
  match s with
  | EmptyString => []
  | String _ rest =>
    match skip with
    | S k => range_from k rest
    | O =>
      let '(r, w) := DecodeRuneInString s in
      r :: range_from (Nat.pred w) rest
    end
  end.

Definition range (s : string) : list rune := range_from 0 s.

(** [utf8.AppendRune], as used by [strings.Builder.WriteRune]. *)
Definition EncodeRune (r : rune) : string :=
  if (0 <=? r) && (r <? 0x80) then String (z2b r) ""
  else if (0 <=? r) && (r <? 0x800) then
    String (z2b (Z.lor 0xC0 (Z.shiftr r 6)))
   (String (z2b (Z.lor 0x80 (Z.land r 0x3F))) "")
  else if (r <? 0) || (0x10FFFF <? r) || ((0xD800 <=? r) && (r <=? 0xDFFF)) then
    String (z2b 0xEF) (String (z2b 0xBF) (String (z2b 0xBD) ""))
  else if r <? 0x10000 then
    String (z2b (Z.lor 0xE0 (Z.shiftr r 12)))
   (String (z2b (Z.lor 0x80 (Z.land (Z.shiftr r 6) 0x3F)))
   (String (z2b (Z.lor 0x80 (Z.land r 0x3F))) ""))
  else
    String (z2b (Z.lor 0xF0 (Z.shiftr r 18)))
   (String (z2b (Z.lor 0x80 (Z.land (Z.shiftr r 12) 0x3F)))
   (String (z2b (Z.lor 0x80 (Z.land (Z.shiftr r 6) 0x3F)))
   (String (z2b (Z.lor 0x80 (Z.land r 0x3F))) ""))).

(** [unicode.IsSpace]: the Latin-1 switch and the White_Space table. *)
Definition IsSpace (r : rune) : bool :=
  ((0x09 <=? r) && (r <=? 0x0D)) || (r =? 0x20) || (r =? 0x85) || (r =? 0xA0)
  || (r =? 0x1680) || ((0x2000 <=? r) && (r <=? 0x200A))
  || (r =? 0x2028) || (r =? 0x2029) || (r =? 0x202F) || (r =? 0x205F)
  || (r =? 0x3000).

(** [s[n:]] for [0 <= n <= len(s)] *)
Fixpoint drop (n : nat) (s : string) : string :=
  match n, s with
  | O, _ => s
  | S k, String _ rest => drop k rest
  | S _, EmptyString => EmptyString
  end.

(** [s[:n]] for [0 <= n <= len(s)] *)
Fixpoint take (n : nat) (s : string) : string :=
  match n, s with
  | O, _ => EmptyString
  | S k, String c rest => String c (take k rest)
  | S _, EmptyString => EmptyString
  end.

Fixpoint rev_onto (s acc : string) : string :=
  match s with
  | EmptyString => acc
  | String c rest => rev_onto rest (String c acc)
  end.

Definition rev (s : string) : string := rev_onto s "".

(** [strings.TrimLeftFunc(s, unicode.IsSpace)]: runes are decoded from
    the start for as long as they are white space.  [skip] counts the
    bytes of the white-space rune decoded last that are still ahead. *)
Fixpoint TrimLeftSpace_from (skip : nat) (s : string) : string :=
  match s with
  | EmptyString => EmptyString
  | String _ rest =>
    match skip with
    | S k => TrimLeftSpace_from k rest
    | O =>
      let '(r, w) := DecodeRuneInString s in
      if IsSpace r then TrimLeftSpace_from (Nat.pred w) rest else s
    end
  end.

Definition TrimLeftSpace (s : string) : string := TrimLeftSpace_from 0 s.

(** [utf8.RuneStart] *)
Definition RuneStart (b : Z) : bool := negb (Z.land b 0xC0 =? 0x80).

(** [utf8.DecodeLastRuneInString], on the reversed string [r] (last byte
    first): the last rune and its width. *)
Definition DecodeLastRune_rev (r : string) : rune * nat :=
  match r with
  | EmptyString => (RuneError, 0%nat)
  | String cl r1 =>
    let bl := b2z cl in
    if bl <? RuneSelf then (bl, 1%nat)
    else
      (* walk back over at most three more bytes to a start byte *)
      let back : nat :=
        match r1 with
        | EmptyString => 1%nat
        | String x1 r2 =>
          if RuneStart (b2z x1) then 2%nat
          else match r2 with
               | EmptyString => 2%nat
               | String x2 r3 =>
                 if RuneStart (b2z x2) then 3%nat
                 else match r3 with
                      | EmptyString => 3%nat
                      | String _ _ => 4%nat
                      end
               end
        end in
      let '(ru, size) := DecodeRuneInString (rev (take back r)) in
      if Nat.eqb size back then (ru, size) else (RuneError, 1%nat)
  end.

(** The loop of [strings.TrimRightFunc(s, unicode.IsSpace)] on the
    reversed string: runes are decoded from the end for as long as they
    are white space. *)
Fixpoint TrimRightSpace_rev (skip : nat) (r : string) : string :=
  match r with
  | EmptyString => EmptyString
  | String _ rest =>
    match skip with
    | S k => TrimRightSpace_rev k rest
    | O =>
      let '(ru, w) := DecodeLastRune_rev r in
      if IsSpace ru then TrimRightSpace_rev (Nat.pred w) rest else r
    end
  end.

(** [strings.TrimRightFunc(s, unicode.IsSpace)] *)
Definition TrimRightSpace (s : string) : string :=
  rev (TrimRightSpace_rev 0 (rev s)).

(** [strings.TrimSpace] *)
Definition TrimSpace (s : string) : string := TrimRightSpace (TrimLeftSpace s).

(** [strings.Index(s, string(c))] for a one-byte needle. *)
Fixpoint IndexByte (s : string) (c : ascii) : option nat :=
  match s with
  | EmptyString => None
  | String d rest =>
    if Ascii.eqb d c then Some O
    else option_map S (IndexByte rest c)
  end.

(** [strings.ReplaceAll(s, string(old), string(new))] for one-byte
    [old] and [new]. *)
Fixpoint ReplaceAllByte (s : string) (old new : ascii) : string :=
  match s with
  | EmptyString => EmptyString
  | String c rest =>
    String (if Ascii.eqb c old then new else c) (ReplaceAllByte rest old new)
  end.

(** [trimLeftByte]: drop the bytes [c] at the start of [s]. *)
Fixpoint TrimLeftByte (s : string) (c : ascii) : string :=
  match s with
  | String d rest => if Ascii.eqb d c then TrimLeftByte rest c else s
  | EmptyString => s
  end.

(** [trimRightByte]: drop the bytes [c] at the end of [s]. *)
Fixpoint TrimRightByte (s : string) (c : ascii) : string :=
  match s with
  | EmptyString => EmptyString
  | String d rest =>
    match TrimRightByte rest c with
    | EmptyString => if Ascii.eqb d c then EmptyString else String d EmptyString
    | t => String d t
    end
  end.

(** [strings.Trim(s, string(c))] for a one-byte ASCII cutset:
    [trimLeftByte(trimRightByte(s, c), c)]. *)
Definition TrimByte (s : string) (c : ascii) : string :=
  TrimLeftByte (TrimRightByte s c) c.

(** [regexp.MustCompile(string(c)+"+").ReplaceAllString(s, string(c))]:
    every maximal run of [c] becomes a single [c]. *)
Fixpoint CollapseRuns (s : string) (c : ascii) : string :=
  match s with
  | EmptyString => EmptyString
  | String d rest =>
    if Ascii.eqb d c then
      match rest with
      | String e _ =>
        if Ascii.eqb e c then CollapseRuns rest c
        else String d (CollapseRuns rest c)
      | EmptyString => String d EmptyString
      end
    else String d (CollapseRuns rest c)
  end.

(** [strings.HasSuffix(s, string(c))] for a one-byte suffix. *)
Fixpoint HasSuffixByte (s : string) (c : ascii) : bool :=
  match s with
  | EmptyString => false
  | String d EmptyString => Ascii.eqb d c
  | String _ rest => HasSuffixByte rest c
  end.

(** [strings.TrimSuffix(s, string(c))]: one trailing [c] is removed. *)
Fixpoint TrimSuffixByte (s : string) (c : ascii) : string :=
  match s with
  | EmptyString => EmptyString
  | String d EmptyString => if Ascii.eqb d c then EmptyString else s
  | String d rest => String d (TrimSuffixByte rest c)
  end.

(** [strings.Join(elems, sep)] *)
Fixpoint Join (elems : list string) (sep : string) : string :=
  match elems with
  | [] => EmptyString
  | [x] => x
  | x :: rest => (x ++ sep ++ Join rest sep)%string
  end.

(** [strings.NewReplacer(c1, "", c2, "", ...).Replace(s)] for one-byte
    old strings that are all replaced by the empty string. *)
Fixpoint RemoveBytes (s : string) (olds : list ascii) : string :=
  match s with
  | EmptyString => EmptyString
  | String c rest =>
    if existsb (Ascii.eqb c) olds then RemoveBytes rest olds
    else String c (RemoveBytes rest olds)
  end.

(** What a field that has been collected contributes. *)
Definition flush_field (cur : string) : list string :=
  match cur with
  | EmptyString => []
  | _ => [rev cur]
  end.

(** [strings.Fields(s)], that is [FieldsFunc(s, unicode.IsSpace)]: the
    maximal runs of runes that are not white space.  [cur] holds the bytes
    of the field being collected, last byte first; [skip] counts the bytes
    of the rune decoded last that are still ahead and [keep] says whether
    they belong to the field. *)
Fixpoint Fields_from (skip : nat) (keep : bool) (cur : string) (s : string)
  : list string :=
  match s with
  | EmptyString => flush_field cur
  | String c rest =>
    match skip with
    | S k => Fields_from k keep (if keep then String c cur else cur) rest
    | O =>
      let '(r, w) := DecodeRuneInString s in
      if IsSpace r then flush_field cur ++ Fields_from (Nat.pred w) false EmptyString rest
      else Fields_from (Nat.pred w) true (String c cur) rest
    end
  end.

Definition Fields (s : string) : list string := Fields_from 0 false EmptyString s.

(** The double quote, as a byte and as a string. *)
Definition dquote : ascii := "034"%char.
Definition dq : string := String dquote EmptyString.

(** [html.EscapeString]: the five characters that [htmlEscaper]
    replaces. *)
Definition escape_byte (c : ascii) : string :=
  if Ascii.eqb c "&"%char then "&amp;"
  else if Ascii.eqb c "'"%char then "&#39;"
  else if Ascii.eqb c "<"%char then "&lt;"
  else if Ascii.eqb c ">"%char then "&gt;"
  else if Ascii.eqb c dquote then "&#34;"
  else String c EmptyString.

Fixpoint EscapeString (s : string) : string :=
  match s with
  | EmptyString => EmptyString
  | String c rest => (escape_byte c ++ EscapeString rest)%string
  end.

End GoStrings.

Import GoStrings.

(** ** internal/database/pages.go: [Slugify] *)

(** The Unicode tables of golang.org/x/text and of the Go standard
    library are not part of the repository; [Slugify] takes them as a
    parameter. *)
Record UnicodeLib : Type := {
  NFKD : string -> string;          (* norm.NFKD.String *)
  ToLower : string -> string;       (* strings.ToLower *)
  IsMn : rune -> bool               (* unicode.Is(unicode.Mn, r) *)
}.

Definition is_slug_rune (r : rune) : bool :=
  ((0x61 <=? r) && (r <=? 0x7A)) || ((0x30 <=? r) && (r <=? 0x39)) || (r =? 0x2D).

(** The loop [for _, r := range s] of [Slugify], writing into the
    builder. *)
Fixpoint keep_slug_runes (U : UnicodeLib) (rs : list rune) : string :=
  match rs with
  | [] => EmptyString
  | r :: rest =>
    if is_slug_rune r then (EncodeRune r ++ keep_slug_runes U rest)%string
    else if IsMn U r then keep_slug_runes U rest
    else keep_slug_runes U rest
  end.

Definition hyphen : ascii := "-"%char.

Definition Slugify (U : UnicodeLib) (title : string) : string :=
  let s := NFKD U title in
  let s := ToLower U s in
  let s := ReplaceAllByte s " "%char hyphen in
  let s := ReplaceAllByte s "_"%char hyphen in
  let s := keep_slug_runes U (range s) in
  let s := CollapseRuns s hyphen in
  TrimByte s hyphen.

(** ** internal/markdown/wikilink: the [WikiLink] node and [Parser.Parse] *)

Module wikilink.

Record WikiLink : Type := NewWikiLink {
  Target : string;       (* the slugified page reference *)
  DisplayText : string   (* what to show the user *)
}.

(** Outcome of the loop that looks for the closing brackets. *)
Inductive closing : Type :=
| ClosedAt (end_ : nat)   (* [end = i; break] *)
| HitNewline              (* [return nil] inside the loop *)
| Unclosed.               (* loop ran out: [end] stays -1 *)

(** [for i := 2; i < len(line)-1; i++], where [s] is [line[i:]]. *)
Fixpoint find_closing (i : nat) (s : string) : closing :=
  match s with
  | String c (String d _ as rest) =>
    if Ascii.eqb c "]"%char && Ascii.eqb d "]"%char then ClosedAt i
    else if Ascii.eqb c "010"%char then HitNewline
    else find_closing (S i) rest
  | _ => Unclosed
  end.

(** [Parse] on the line returned by [block.PeekLine()].  The result is
    the node; on success the source also advances the reader, which has
    no influence on the node. *)
Definition Parse (U : UnicodeLib) (line : string) : option WikiLink :=
  if len line <? 4 then None
  else
    match line with
    | String c0 (String c1 rest) =>
      if negb (Ascii.eqb c0 "["%char) || negb (Ascii.eqb c1 "["%char) then None
      else
        match find_closing 2 rest with
        | HitNewline => None
        | Unclosed => None
        | ClosedAt end_ =>
          let content := take (end_ - 2) rest in
          if String.eqb content "" then None
          else
            let '(target, displayText) :=
              match IndexByte content "|"%char with
              | Some idx =>
                (TrimSpace (take idx content), TrimSpace (drop (S idx) content))
              | None =>
                let target := TrimSpace content in (target, target)
              end in
            if String.eqb target "" then None
            else
              let slug := Slugify U target in
              if String.eqb slug "" then None
              else Some (NewWikiLink slug displayText)
        end
    | _ => None
    end.

(** *** renderer.go *)

(** [PageChecker]: whether a page exists and whether it is a phantom. *)
Definition PageChecker : Type := string -> bool * bool.

(** [renderWikiLink]: what is written to the output for the node [n].
    [checker] is [None] for a nil [PageChecker]. *)
Definition renderWikiLink (checker : option PageChecker) (n : WikiLink)
    (entering : bool) : string :=
  if negb entering then EmptyString
  else
    (* Determine link class based on page status *)
    let class :=
      match checker with
      | Some check =>
        let '(exists_, isPhantom) := check (Target n) in
        if negb exists_ || isPhantom then "wiki-link phantom" else "wiki-link"
      | None => "wiki-link"
      end in
    (* Escape values for HTML *)
    let escapedTarget := EscapeString (Target n) in
    let escapedDisplay := EscapeString (DisplayText n) in
    ("<a href=" ++ dq ++ "/" ++ escapedTarget ++ dq ++ " class=" ++ dq ++ class
     ++ dq ++ ">" ++ escapedDisplay ++ "</a>")%string.

End wikilink.

(** ** internal/markdown/markdown.go: [LinkInfo] and [UniqueTargets] *)

Module markdown.

Record LinkInfo : Type := mkLinkInfo {
  Target : string;
  DisplayText : string
}.

Definition seen_target (seen : list string) (t : string) : bool :=
  existsb (String.eqb t) seen.

(** The loop of [UniqueTargets]; [seen] is the key set of the Go map. *)
Fixpoint UniqueTargets_from (seen : list string) (links : list LinkInfo)
  : list string :=
  match links with
  | [] => []
  | link :: rest =>
    if negb (seen_target seen (Target link)) then
      Target link :: UniqueTargets_from (Target link :: seen) rest
    else UniqueTargets_from seen rest
  end.

Definition UniqueTargets (links : list LinkInfo) : list string :=
  UniqueTargets_from [] links.

(** What the walk of [ExtractLinks] records for a [WikiLink] node. *)
Definition link_of_node (wl : wikilink.WikiLink) : LinkInfo :=
  mkLinkInfo (wikilink.Target wl) (wikilink.DisplayText wl).

End markdown.

(** ** internal/database: the SQLite store

    The tables are lists of rows in rowid order.  The schema's
    constraints are part of the model: [pages.slug] is UNIQUE, the
    foreign keys are enforced ([_pragma=foreign_keys(1)]), ids come from
    AUTOINCREMENT, and [pages_fts] is an FTS5 table whose [rowid] is its
    key, so that inserting a rowid that is present is a constraint
    failure.  Timestamps are integers read from a clock that the caller
    supplies as [now]. *)

Module database.

Module Page.
Record t : Type := mk {
  ID : Z;
  Slug : string;
  Title : string;
  IsPhantom : bool;
  FirstCitedByUserID : option Z;
  FirstCitedInPageID : option Z;
  DeletedAt : option Z;
  CreatedAt : Z;
  UpdatedAt : Z
}.
End Page.

Module Revision.
Record t : Type := mk {
  ID : Z;
  PageID : Z;
  Content : string;
  AuthorID : Z;
  CreatedAt : Z
}.
End Revision.

(** A row of the virtual table [pages_fts]. *)
Module Fts.
Record t : Type := mk {
  rowid : Z;
  title : string;
  content : string
}.
End Fts.

Record DB : Type := mkDB {
  users : list Z;                 (* ids of the rows of [users] *)
  pages : list Page.t;
  revisions : list Revision.t;
  pages_fts : list Fts.t
}.

Inductive error : Type :=
| ErrNotFound                     (* [ErrNotFound] *)
| ErrPageExists                   (* [errors.New("page already exists")] *)
| ErrConstraint.                  (* a constraint failure reported by SQLite *)

Inductive result (A : Type) : Type :=
| Ok (a : A)
| Err (e : error).
Arguments Ok {A} a.
Arguments Err {A} e.

Definition bind {A B : Type} (r : result A) (k : A -> result B) : result B :=
  match r with
  | Ok a => k a
  | Err e => Err e
  end.

Notation "x <- r ;; k" := (bind r (fun x => k))
  (at level 61, r at next level, right associativity).
Notation "' p <- r ;; k" := (bind r (fun x => let 'p := x in k))
  (at level 61, p pattern, r at next level, right associativity).

Definition is_deleted (p : Page.t) : bool :=
  match Page.DeletedAt p with Some _ => true | None => false end.

Definition mem_id (i : Z) (ids : list Z) : bool := existsb (Z.eqb i) ids.

Definition page_ids (db : DB) : list Z := map Page.ID (pages db).

(** AUTOINCREMENT: one more than the largest rowid the table has held.
    No statement of the program deletes from [pages] or [revisions], so
    that is the largest rowid present. *)
Definition next_id (ids : list Z) : Z := 1 + fold_right Z.max 0 ids.

(** *** Single statements *)

(** [SELECT ... FROM pages WHERE slug = ?] (first row) *)
Definition select_page_by_slug (db : DB) (slug : string) : option Page.t :=
  find (fun p => String.eqb (Page.Slug p) slug) (pages db).

(** [SELECT ... FROM pages WHERE id = ?] (first row) *)
Definition select_page_by_id (db : DB) (id : Z) : option Page.t :=
  find (fun p => Page.ID p =? id) (pages db).

Definition fk_ok (ref : option Z) (ids : list Z) : bool :=
  match ref with
  | None => true
  | Some i => mem_id i ids
  end.

(** [INSERT INTO pages (slug, title, is_phantom, first_cited_by_user_id,
    first_cited_in_page_id, created_at, updated_at)]; gives the new
    store and [LastInsertId]. *)
Definition insert_page (db : DB) (slug title : string) (is_phantom : bool)
    (by_user in_page : option Z) (now : Z) : result (DB * Z) :=
  if existsb (fun p => String.eqb (Page.Slug p) slug) (pages db) then Err ErrConstraint
  else if negb (fk_ok by_user (users db)) then Err ErrConstraint
  else if negb (fk_ok in_page (page_ids db)) then Err ErrConstraint
  else
    let id := next_id (page_ids db) in
    Ok (mkDB (users db)
             (pages db ++ [Page.mk id slug title is_phantom by_user in_page None now now])
             (revisions db) (pages_fts db), id).

(** [UPDATE pages SET ... WHERE <cond>], row by row. *)
Definition update_pages (db : DB) (cond : Page.t -> bool) (set : Page.t -> Page.t) : DB :=
  mkDB (users db)
       (map (fun p => if cond p then set p else p) (pages db))
       (revisions db) (pages_fts db).

(** [RowsAffected] of the same statement. *)
Definition rows_affected (db : DB) (cond : Page.t -> bool) : Z :=
  Z.of_nat (List.length (filter cond (pages db))).

(** [INSERT INTO revisions (page_id, content, author_id, created_at)] *)
Definition insert_revision (db : DB) (pageID : Z) (content : string)
    (authorID now : Z) : result DB :=
  if negb (mem_id pageID (page_ids db)) then Err ErrConstraint
  else if negb (mem_id authorID (users db)) then Err ErrConstraint
  else
    let id := next_id (map Revision.ID (revisions db)) in
    Ok (mkDB (users db) (pages db)
             (revisions db ++ [Revision.mk id pageID content authorID now])
             (pages_fts db)).

(** [INSERT INTO pages_fts (rowid, title, content) VALUES (?, ?, ?)] *)
Definition insert_fts (db : DB) (rowid : Z) (title content : string) : result DB :=
  if existsb (fun e => Fts.rowid e =? rowid) (pages_fts db) then Err ErrConstraint
  else
    Ok (mkDB (users db) (pages db) (revisions db)
             (pages_fts db ++ [Fts.mk rowid title content])).

(** [DELETE FROM pages_fts WHERE rowid = ?] *)
Definition delete_fts (db : DB) (rowid : Z) : DB :=
  mkDB (users db) (pages db) (revisions db)
       (filter (fun e => negb (Fts.rowid e =? rowid)) (pages_fts db)).

(** [ORDER BY] with a stable insertion; [le a b] says that [a] may come
    before [b]. *)
Fixpoint insert_by {A : Type} (le : A -> A -> bool) (x : A) (l : list A) : list A :=
  match l with
  | [] => [x]
  | y :: l' => if le x y then x :: l else y :: insert_by le x l'
  end.

Definition order_by {A : Type} (le : A -> A -> bool) (l : list A) : list A :=
  fold_right (insert_by le) [] l.

(** [LIMIT ?]: a negative limit is no limit. *)
Definition limit_rows {A : Type} (n : Z) (l : list A) : list A :=
  if n <? 0 then l else firstn (Z.to_nat n) l.

Section Engine.

(** [ORDER BY r.created_at DESC LIMIT 1] names no second sort key: among
    rows with equal [created_at] the engine is free to return any.
    [tie r b] is the engine's decision to put row [r] before the row [b]
    it holds so far when both carry the same timestamp. *)
Variable tie : Revision.t -> Revision.t -> bool.

Definition newer (best : option Revision.t) (r : Revision.t) : option Revision.t :=
  match best with
  | None => Some r
  | Some b =>
    if Revision.CreatedAt b <? Revision.CreatedAt r then Some r
    else if (Revision.CreatedAt b =? Revision.CreatedAt r) && tie r b then Some r
    else Some b
  end.

Definition latest_from (best : option Revision.t) (rs : list Revision.t)
  : option Revision.t :=
  fold_left newer rs best.

Definition latest (rs : list Revision.t) : option Revision.t := latest_from None rs.

(** *** pages.go *)

Definition GetPageBySlug (db : DB) (slug : string) : result Page.t :=
  match select_page_by_slug db slug with
  | None => Err ErrNotFound
  | Some page => Ok page
  end.

Definition GetPageByID (db : DB) (id : Z) : result Page.t :=
  match select_page_by_id db id with
  | None => Err ErrNotFound
  | Some page => Ok page
  end.

(** The statements of [CreatePage] between [Begin] and [Commit]. *)
Definition CreatePage_tx (tx : DB) (slug title content : string)
    (authorID now : Z) : result (DB * Z) :=
  '(tx, pageID) <-
    match select_page_by_slug tx slug with
    | None =>
      (* Create new page *)
      insert_page tx slug title false None None now
    | Some existing =>
      if Page.IsPhantom existing then
        (* Convert phantom to real page *)
        let existingID := Page.ID existing in
        Ok (update_pages tx (fun p => Page.ID p =? existingID)
              (fun p => Page.mk (Page.ID p) (Page.Slug p) title false
                          (Page.FirstCitedByUserID p) (Page.FirstCitedInPageID p)
                          (Page.DeletedAt p) (Page.CreatedAt p) now),
            existingID)
      else Err ErrPageExists
    end ;;
  (* Create first revision *)
  tx <- insert_revision tx pageID content authorID now ;;
  (* Update FTS index *)
  tx <- insert_fts tx pageID title content ;;
  Ok (tx, pageID).

(** [CreatePage]: on an error the deferred [Rollback] leaves the store
    as it was. *)
Definition CreatePage (db : DB) (slug title content : string)
    (authorID now : Z) : DB * result Page.t :=
  match CreatePage_tx db slug title content authorID now with
  | Err e => (db, Err e)
  | Ok (db', pageID) => (db', GetPageByID db' pageID)
  end.

Definition UpdatePage_tx (tx : DB) (pageID : Z) (title content : string)
    (authorID now : Z) : result DB :=
  (* Update page metadata *)
  let tx := update_pages tx (fun p => Page.ID p =? pageID)
              (fun p => Page.mk (Page.ID p) (Page.Slug p) title (Page.IsPhantom p)
                          (Page.FirstCitedByUserID p) (Page.FirstCitedInPageID p)
                          (Page.DeletedAt p) (Page.CreatedAt p) now) in
  (* Create new revision *)
  tx <- insert_revision tx pageID content authorID now ;;
  (* Update FTS index *)
  let tx := delete_fts tx pageID in
  insert_fts tx pageID title content.

Definition UpdatePage (db : DB) (pageID : Z) (title content : string)
    (authorID now : Z) : DB * result unit :=
  match UpdatePage_tx db pageID title content authorID now with
  | Err e => (db, Err e)
  | Ok db' => (db', Ok tt)
  end.

Definition CreatePhantom (db : DB) (slug title : string)
    (citedByUserID citedInPageID now : Z) : DB * result Page.t :=
  match GetPageBySlug db slug with
  | Ok existing => (db, Ok existing)   (* Already exists, return it *)
  | Err ErrNotFound =>
    match insert_page db slug title true (Some citedByUserID) (Some citedInPageID) now with
    | Err e => (db, Err e)
    | Ok (db', id) => (db', GetPageByID db' id)
    end
  | Err e => (db, Err e)
  end.

Definition PageExists (db : DB) (slug : string) : result bool :=
  let count := Z.of_nat (List.length
                 (filter (fun p => String.eqb (Page.Slug p) slug) (pages db))) in
  Ok (0 <? count).

Definition IsPhantom (db : DB) (slug : string) : result bool :=
  match select_page_by_slug db slug with
  | None => Err ErrNotFound
  | Some p => Ok (Page.IsPhantom p)
  end.

Definition SoftDeletePage (db : DB) (pageID now : Z) : DB * result unit :=
  let cond := fun p => (Page.ID p =? pageID) && negb (is_deleted p) in
  let rows := rows_affected db cond in
  let db := update_pages db cond
              (fun p => Page.mk (Page.ID p) (Page.Slug p) (Page.Title p)
                          (Page.IsPhantom p) (Page.FirstCitedByUserID p)
                          (Page.FirstCitedInPageID p) (Some now) (Page.CreatedAt p) now) in
  if rows =? 0 then (db, Err ErrNotFound)
  else
    (* Remove from FTS index *)
    (delete_fts db pageID, Ok tt).

(** The row that the query of [RestorePage] scans: the page's title and
    [COALESCE(r.content, '')] of the LEFT JOIN, first row in
    [r.created_at DESC] order. *)
Definition select_restore_row (db : DB) (pageID : Z) : option (string * string) :=
  match find (fun p => (Page.ID p =? pageID) && is_deleted p) (pages db) with
  | None => None
  | Some p =>
    match latest (filter (fun r => Revision.PageID r =? Page.ID p) (revisions db)) with
    | None => Some (Page.Title p, "")
    | Some r => Some (Page.Title p, Revision.Content r)
    end
  end.

Definition RestorePage (db : DB) (pageID now : Z) : DB * result unit :=
  (* Get the page to restore *)
  match select_restore_row db pageID with
  | None => (db, Err ErrNotFound)
  | Some (title, content) =>
    (* Restore the page *)
    let db := update_pages db (fun p => Page.ID p =? pageID)
                (fun p => Page.mk (Page.ID p) (Page.Slug p) (Page.Title p)
                            (Page.IsPhantom p) (Page.FirstCitedByUserID p)
                            (Page.FirstCitedInPageID p) None (Page.CreatedAt p) now) in
    (* Re-add to FTS index; the statement's error is dropped *)
    match insert_fts db pageID title content with
    | Ok db' => (db', Ok tt)
    | Err _ => (db, Ok tt)
    end
  end.

Definition deleted_at_desc (a b : Page.t) : bool :=
  match Page.DeletedAt a, Page.DeletedAt b with
  | Some x, Some y => y <=? x
  | Some _, None => true      (* NULL sorts last in DESC order *)
  | None, Some _ => false
  | None, None => true
  end.

Definition title_asc (a b : Page.t) : bool := String.leb (Page.Title a) (Page.Title b).

Definition updated_at_desc (a b : Page.t) : bool := Page.UpdatedAt b <=? Page.UpdatedAt a.

Definition ListDeletedPages (db : DB) : list Page.t :=
  order_by deleted_at_desc (filter is_deleted (pages db)).

Definition ListPages (db : DB) : list Page.t :=
  order_by title_asc
    (filter (fun p => negb (Page.IsPhantom p) && negb (is_deleted p)) (pages db)).

Definition ListPhantoms (db : DB) : list Page.t :=
  order_by title_asc
    (filter (fun p => Page.IsPhantom p && negb (is_deleted p)) (pages db)).

Definition ListRecentPages (db : DB) (limit : Z) : list Page.t :=
  limit_rows limit
    (order_by updated_at_desc
       (filter (fun p => negb (Page.IsPhantom p) && negb (is_deleted p)) (pages db))).

Definition PageStats (db : DB) : Z * Z :=
  (Z.of_nat (List.length
     (filter (fun p => negb (Page.IsPhantom p) && negb (is_deleted p)) (pages db))),
   Z.of_nat (List.length
     (filter (fun p => Page.IsPhantom p && negb (is_deleted p)) (pages db)))).

(** *** revisions.go *)

(** [FROM revisions r JOIN users u ON r.author_id = u.id WHERE r.page_id = ?] *)
Definition revisions_of (db : DB) (pageID : Z) : list Revision.t :=
  filter (fun r => (Revision.PageID r =? pageID) && mem_id (Revision.AuthorID r) (users db))
         (revisions db).

Definition GetCurrentRevision (db : DB) (pageID : Z) : result Revision.t :=
  match latest (revisions_of db pageID) with
  | None => Err ErrNotFound
  | Some rev => Ok rev
  end.

Definition RevisionCount (db : DB) (pageID : Z) : Z :=
  Z.of_nat (List.length (filter (fun r => Revision.PageID r =? pageID) (revisions db))).

End Engine.

(** The store operations as commands, for runs of several of them. *)
Inductive op : Type :=
| OpCreatePage (slug title content : string) (authorID now : Z)
| OpUpdatePage (pageID : Z) (title content : string) (authorID now : Z)
| OpCreatePhantom (slug title : string) (citedByUserID citedInPageID now : Z)
| OpSoftDeletePage (pageID now : Z)
| OpRestorePage (pageID now : Z).

Definition op_time (o : op) : Z :=
  match o with
  | OpCreatePage _ _ _ _ now => now
  | OpUpdatePage _ _ _ _ now => now
  | OpCreatePhantom _ _ _ _ now => now
  | OpSoftDeletePage _ now => now
  | OpRestorePage _ now => now
  end.

Definition exec (tie : Revision.t -> Revision.t -> bool) (db : DB) (o : op) : DB :=
  match o with
  | OpCreatePage slug title content a now => fst (CreatePage db slug title content a now)
  | OpUpdatePage id title content a now => fst (UpdatePage db id title content a now)
  | OpCreatePhantom slug title u p now => fst (CreatePhantom db slug title u p now)
  | OpSoftDeletePage id now => fst (SoftDeletePage db id now)
  | OpRestorePage id now => fst (RestorePage tie db id now)
  end.

Definition run (tie : Revision.t -> Revision.t -> bool) (db : DB) (ops : list op) : DB :=
  fold_left (exec tie) ops db.

(** A store right after the schema has been created, holding the given
    users. *)
Definition empty_db (us : list Z) : DB := mkDB us [] [] [].

(** *** revisions.go, continued *)

Definition created_at_desc (a b : Revision.t) : bool :=
  Revision.CreatedAt b <=? Revision.CreatedAt a.

(** [ListRevisions]: all revisions of a page, newest first. *)
Definition ListRevisions (db : DB) (pageID : Z) : list Revision.t :=
  order_by created_at_desc (revisions_of db pageID).

(** [GetRevisionByID]: the row of [revisions JOIN users] with this id. *)
Definition GetRevisionByID (db : DB) (revisionID : Z) : result Revision.t :=
  match find (fun r => (Revision.ID r =? revisionID)
                       && mem_id (Revision.AuthorID r) (users db))
             (revisions db) with
  | None => Err ErrNotFound
  | Some rev => Ok rev
  end.

(** *** pages.go, continued *)

Record PhantomWithSource : Type := mkPhantomWithSource {
  Page_ : Page.t;
  SourceSlug : string;
  SourceTitle : string
}.

(** The row of [pages src] that the LEFT JOIN of [ListPhantomsWithSource]
    attaches to [p], with [COALESCE(.., '')] applied. *)
Definition with_source (db : DB) (p : Page.t) : PhantomWithSource :=
  match Page.FirstCitedInPageID p with
  | None => mkPhantomWithSource p "" ""
  | Some src_id =>
    match select_page_by_id db src_id with
    | None => mkPhantomWithSource p "" ""
    | Some src => mkPhantomWithSource p (Page.Slug src) (Page.Title src)
    end
  end.

Definition ListPhantomsWithSource (db : DB) : list PhantomWithSource :=
  map (with_source db)
      (order_by title_asc
         (filter (fun p => Page.IsPhantom p && negb (is_deleted p)) (pages db))).

(** *** search.go: [sanitizeFTSQuery] *)

(** The characters that the replacer of [sanitizeFTSQuery] removes. *)
Definition fts_removed : list ascii :=
  [dquote; "^"%char; ":"%char; "("%char; ")"%char; "{"%char; "}"%char;
   "["%char; "]"%char].

(** One iteration of the loop over [words]: the term that the word
    contributes, if any. *)
Definition sanitize_word (word : string) : option string :=
  let word := TrimSpace word in
  if String.eqb word "" || String.eqb word "*" || String.eqb word "-" then None
  else if HasSuffixByte word "*"%char then
    (* Prefix search: remove quotes, keep the * *)
    let base := TrimSuffixByte word "*"%char in
    let base := TrimByte base hyphen in
    if negb (String.eqb base "") then Some (base ++ "*")%string else None
  else
    (* Regular word: quote it for exact token matching *)
    let word := TrimByte word hyphen in
    if negb (String.eqb word "") then Some (dq ++ word ++ dq)%string else None.

Fixpoint sanitize_terms (words : list string) : list string :=
  match words with
  | [] => []
  | word :: rest =>
    match sanitize_word word with
    | Some term => term :: sanitize_terms rest
    | None => sanitize_terms rest
    end
  end.

Definition sanitizeFTSQuery (query : string) : string :=
  let sanitized := RemoveBytes query fts_removed in
  (* Split into words *)
  let words := Fields sanitized in
  match words with
  | [] => ""
  | _ =>
    match sanitize_terms words with
    | [] => ""
    | terms => Join terms " "   (* implicit AND in FTS5 *)
    end
  end.

End database.

(** ** internal/handler/pages.go: [SavePage] and [processWikiLinks] *)

Module handler.

Import database.

(** What the handler answers with. *)
Inductive response : Type :=
| Flash (kind message : string)   (* [AddFlash] and a redirect *)
| RenderError (message : string).

Section Handler.

(** [h.Markdown.ExtractLinks]: goldmark's parser with the wiki-link
    inline parser registered, followed by the walk that collects the
    [WikiLink] nodes.  goldmark is not part of the repository. *)
Variable ExtractLinks : string -> list markdown.LinkInfo.

(** The inner loop of [processWikiLinks]: the display text of the first
    link with this target. *)
Fixpoint find_display (links : list markdown.LinkInfo) (target : string) : string :=
  match links with
  | [] => ""
  | link :: rest =>
    if String.eqb (markdown.Target link) target then markdown.DisplayText link
    else find_display rest target
  end.

(** One iteration of the outer loop. *)
Definition resolve_target (links : list markdown.LinkInfo) (userID pageID now : Z)
    (db : DB) (target : string) : DB :=
  match PageExists db target with
  | Err _ => db
  | Ok true => db
  | Ok false =>
    let displayText := find_display links target in
    fst (CreatePhantom db target displayText userID pageID now)
  end.

Definition processWikiLinks (db : DB) (content : string) (userID pageID now : Z) : DB :=
  let links := ExtractLinks content in
  let targets := markdown.UniqueTargets links in
  fold_left (resolve_target links userID pageID now) targets db.

(** [SavePage] for the request [POST /{slug}] of the signed-in user
    [userID] with form values [title] and [content]. *)
Definition SavePage (db : DB) (slug : string) (userID : Z) (title content : string)
    (now : Z) : DB * response :=
  if String.eqb title "" then (db, Flash "danger" "Title is required")
  else if 500 <? len title then
    (db, Flash "danger" "Title is too long (max 500 characters)")
  else if 500 * 1024 <? len content then
    (db, Flash "danger" "Content is too long (max 500KB)")
  else
    let create :=
      match CreatePage db slug title content userID now with
      | (db', Err _) => (db', Flash "danger" "Failed to create page")
      | (db', Ok page) =>
        (processWikiLinks db' content userID (Page.ID page) now,
         Flash "success" "Page saved")
      end in
    match GetPageBySlug db slug with
    | Err ErrNotFound => create
    | Err _ => (db, RenderError "Database error")
    | Ok page =>
      if Page.IsPhantom page then create
      else
        match UpdatePage db (Page.ID page) title content userID now with
        | (db', Err _) => (db', Flash "danger" "Failed to update page")
        | (db', Ok _) =>
          (processWikiLinks db' content userID (Page.ID page) now,
           Flash "success" "Page saved")
        end
    end.

End Handler.

(** *** handler.go: the page checker given to the renderer in [New] *)
Definition pageChecker (db : DB) : wikilink.PageChecker :=
  fun slug =>
    match PageExists db slug with
    | Err _ => (false, false)
    | Ok false => (false, false)
    | Ok true =>
      match IsPhantom db slug with
      | Err _ => (true, false)
      | Ok isPhantom => (true, isPhantom)
      end
    end.

(** *** handler.go: flash messages

    [h.flashes] maps a session id to its messages; a missing key reads as
    the empty slice, so the map is modelled by a function.  [session] is
    [None] when the request has no session. *)
Definition Flashes : Type := string -> list (string * string).

Definition AddFlash (flashes : Flashes) (session : option string)
    (typ message : string) : Flashes :=
  match session with
  | None => flashes
  | Some id =>
    fun k => if String.eqb k id then (flashes id ++ [(typ, message)])%list
             else flashes k
  end.

Definition GetFlashes (flashes : Flashes) (session : option string)
  : list (string * string) * Flashes :=
  match session with
  | None => ([], flashes)
  | Some id =>
    (flashes id, fun k => if String.eqb k id then [] else flashes k)
  end.

(** *** pages.go of the handlers: [DeletePage] for the request
    [POST /{slug}/delete] of a signed-in user with the given role.
    [h.NotFound] is [RenderError] with the message "Page not found". *)
Definition DeletePage (db : DB) (slug role : string) (now : Z) : DB * response :=
  match GetPageBySlug db slug with
  | Err ErrNotFound => (db, RenderError "Page not found")
  | Err _ => (db, RenderError "Database error")
  | Ok page =>
    (* Only admins can delete pages *)
    if negb (String.eqb role "admin") then
      (db, RenderError "Only admins can delete pages")
    else
      match SoftDeletePage db (Page.ID page) now with
      | (db', Err _) => (db', Flash "danger" "Failed to delete page")
      | (db', Ok _) => (db', Flash "success" "Page deleted")
      end
  end.

(** *** pages.go of the handlers: the pages that show a page

    What [ViewPage] answers with.  The comments that the page view also
    lists are not part of the model. *)
Inductive view : Type :=
| RedirectToEdit                      (* redirect to [/{slug}/edit] *)
| NotFoundView                        (* [h.NotFound] *)
| ErrorView (message : string)        (* [h.RenderError] *)
| PhantomView (page : Page.t)         (* [renderPhantom] *)
| DeletedView (page : Page.t)         (* [renderDeleted] *)
| PageView (page : Page.t) (html : string) (revision : Revision.t)
           (revisionCount : Z).       (* [page/view.html] *)

(** The values that [EditPage] hands to [page/edit.html]. *)
Record EditForm : Type := mkEditForm {
  FormSlug : string;
  FormTitle : string;
  FormContent : string;
  IsNew : bool
}.

Section Views.

Variable tie : Revision.t -> Revision.t -> bool.

(** [h.Markdown.Render]: goldmark's [Convert], which is not part of the
    repository; [None] is its error. *)
Variable Render : string -> option string.

Definition ViewPage (db : DB) (slug : string) (loggedIn : bool) : view :=
  match GetPageBySlug db slug with
  | Err ErrNotFound =>
    (* Page doesn't exist - redirect to edit if logged in *)
    if loggedIn then RedirectToEdit else NotFoundView
  | Err _ => ErrorView "Database error"
  | Ok page =>
    if Page.IsPhantom page then
      (* Phantom page - redirect to edit if logged in *)
      if loggedIn then RedirectToEdit else PhantomView page
    else if is_deleted page then DeletedView page
    else
      match GetCurrentRevision tie db (Page.ID page) with
      | Err _ => ErrorView "Database error"
      | Ok revision =>
        match Render (Revision.Content revision) with
        | None => ErrorView "Markdown error"
        | Some html =>
          PageView page html revision (RevisionCount db (Page.ID page))
        end
      end
  end.

Definition EditPage (db : DB) (slug : string) : result EditForm :=
  match GetPageBySlug db slug with
  | Err ErrNotFound =>
    (* New page - use slug as initial title *)
    Ok (mkEditForm slug slug "" true)
  | Err e => Err e
  | Ok page =>
    if Page.IsPhantom page then
      (* Phantom page - use phantom's title *)
      Ok (mkEditForm slug (Page.Title page) "" true)
    else
      (* Existing page - load current content *)
      let content :=
        match GetCurrentRevision tie db (Page.ID page) with
        | Ok rev => Revision.Content rev
        | Err _ => ""
        end in
      Ok (mkEditForm slug (Page.Title page) content false)
  end.

(** [PageHistory]: the page and its revisions, or the error shown. *)
Definition PageHistory (db : DB) (slug : string) : result (Page.t * list Revision.t) :=
  match GetPageBySlug db slug with
  | Err e => Err e
  | Ok page => Ok (page, ListRevisions db (Page.ID page))
  end.

(** [ViewRevision]: the page and the revision shown; every other
    outcome is [h.NotFound].  [scanned] is what [fmt.Sscanf] read from
    the [revisionID] of the URL, [None] when it failed. *)
Definition ViewRevision (db : DB) (slug : string) (scanned : option Z)
  : result (Page.t * Revision.t) :=
  match GetPageBySlug db slug with
  | Err e => Err e
  | Ok page =>
    match scanned with
    | None => Err ErrNotFound
    | Some revID =>
      match GetRevisionByID db revID with
      | Err e => Err e
      | Ok revision =>
        (* Verify revision belongs to this page *)
        if negb (Revision.PageID revision =? Page.ID page) then Err ErrNotFound
        else Ok (page, revision)
      end
    end
  end.

(** *** admin.go: [AdminRestorePage] for [POST /admin/deleted/{pageID}/restore].
    [parsed] is what [strconv.ParseInt] made of the [pageID] of the URL,
    [None] for its error. *)
Definition AdminRestorePage (db : DB) (parsed : option Z) (now : Z) : DB * response :=
  match parsed with
  | None => (db, Flash "danger" "Invalid page ID")
  | Some pageID =>
    match RestorePage tie db pageID now with
    | (db', Err _) => (db', Flash "danger" "Failed to restore page")
    | (db', Ok _) => (db', Flash "success" "Page restored")
    end
  end.

End Views.

End handler.

(** ** A Unicode library that is exact on ASCII

    Both [norm.NFKD.String] and [strings.ToLower] have a fast path for
    strings of bytes below [RuneSelf]: the first returns its argument and
    the second maps ['A'..'Z'] to ['a'..'z'].  The properties of
    [Slugify] below rest on nothing else. *)

Fixpoint is_ascii (s : string) : bool :=
  match s with
  | EmptyString => true
  | String c rest => (b2z c <? RuneSelf) && is_ascii rest
  end.

Definition lower_byte (c : ascii) : ascii :=
  if (0x41 <=? b2z c) && (b2z c <=? 0x5A) then z2b (b2z c + 0x20) else c.

Fixpoint lower_ascii (s : string) : string :=
  match s with
  | EmptyString => EmptyString
  | String c rest => String (lower_byte c) (lower_ascii rest)
  end.

Definition ascii_exact (U : UnicodeLib) : Prop :=
  (forall s, is_ascii s = true -> NFKD U s = s) /\
  (forall s, is_ascii s = true -> ToLower U s = lower_ascii s).

(** The library restricted to its ASCII fast paths; other bytes are left
    alone. *)
Definition AsciiLib : UnicodeLib :=
  {| NFKD := fun s => s; ToLower := lower_ascii; IsMn := fun _ => false |}.

(** * Properties *)

Local Open Scope list_scope.

(** ** Notions used to state them *)

Definition is_slug_byte (c : ascii) : bool := is_slug_rune (b2z c).

(** The bytes of [s] that [Slugify]'s loop keeps. *)
Fixpoint keep_slug_bytes (s : string) : string :=
  match s with
  | EmptyString => EmptyString
  | String c rest =>
    if is_slug_byte c then String c (keep_slug_bytes rest) else keep_slug_bytes rest
  end.

Fixpoint all_slug (s : string) : bool :=
  match s with
  | EmptyString => true
  | String c rest => is_slug_byte c && all_slug rest
  end.

(** No two neighbouring bytes of [s] are both [c]. *)
Fixpoint no_run (s : string) (c : ascii) : bool :=
  match s with
  | String a (String b _ as rest) =>
    negb (Ascii.eqb a c && Ascii.eqb b c) && no_run rest c
  | _ => true
  end.

(** [s] does not end with the byte [c]. *)
Fixpoint no_trailing (s : string) (c : ascii) : bool :=
  match s with
  | EmptyString => true
  | String a EmptyString => negb (Ascii.eqb a c)
  | String _ rest => no_trailing rest c
  end.

Definition no_leading (s : string) (c : ascii) : bool :=
  match s with
  | String a _ => negb (Ascii.eqb a c)
  | EmptyString => true
  end.

(** The shape of a slug: bytes from [a-z0-9-], hyphens single and not at
    either end. *)
Definition slug_shaped (s : string) : Prop :=
  all_slug s = true /\ no_run s hyphen = true /\
  no_leading s hyphen = true /\ no_trailing s hyphen = true.

Definition newline : ascii := "010"%char.

Fixpoint has_byte (s : string) (c : ascii) : bool :=
  match s with
  | EmptyString => false
  | String d rest => Ascii.eqb d c || has_byte rest c
  end.

(** Two closing brackets in a row occur somewhere in [s]. *)
Fixpoint has_closing (s : string) : bool :=
  match s with
  | String a (String b _ as rest) =>
    (Ascii.eqb a "]"%char && Ascii.eqb b "]"%char) || has_closing rest
  | _ => false
  end.

(** [content] can stand between the opening brackets and the first
    closing pair of a line: it holds no newline, and no closing pair
    starts inside it. *)
Definition bracket_content (content : string) : Prop :=
  has_byte content newline = false /\ has_closing (content ++ "]") = false.

(** [pipe_split content title display]: the reference title and the
    display text that [content] denotes, by splitting on the first [|]
    and trimming both sides; without a [|] the trimmed content is
    both. *)
Inductive pipe_split : string -> string -> string -> Prop :=
| split_piped (left right : string) :
    has_byte left "|"%char = false ->
    pipe_split (left ++ "|" ++ right) (TrimSpace left) (TrimSpace right)
| split_plain (content : string) :
    has_byte content "|"%char = false ->
    pipe_split content (TrimSpace content) (TrimSpace content).

(** The part of [Parse] after the closing brackets have been found. *)
Definition node_of_content (U : UnicodeLib) (content : string)
  : option wikilink.WikiLink :=
  if String.eqb content "" then None
  else
    let '(target, displayText) :=
      match IndexByte content "|"%char with
      | Some idx =>
        (TrimSpace (take idx content), TrimSpace (drop (S idx) content))
      | None =>
        let target := TrimSpace content in (target, target)
      end in
    if String.eqb target "" then None
    else
      let slug := Slugify U target in
      if String.eqb slug "" then None
      else Some (wikilink.NewWikiLink slug displayText).

Import database.

(** *** Notions about the store *)

Definition fts_has (db : DB) (id : Z) : bool :=
  existsb (fun e => Fts.rowid e =? id) (pages_fts db).


(** All revisions of a page, whoever wrote them. *)
Definition revs_of_page (db : DB) (id : Z) : list Revision.t :=
  filter (fun r => Revision.PageID r =? id) (revisions db).

(** [r] is one of [rs] and none of [rs] is newer. *)
Definition is_latest (rs : list Revision.t) (r : Revision.t) : Prop :=
  In r rs /\ forall r', In r' rs -> Revision.CreatedAt r' <= Revision.CreatedAt r.

(** [r] is one of [rs], none is newer, and among those of the same age
    none has a higher id: the revision the specification calls current. *)
Definition is_current (rs : list Revision.t) (r : Revision.t) : Prop :=
  is_latest rs r /\
  forall r', In r' rs -> Revision.CreatedAt r' = Revision.CreatedAt r ->
             Revision.ID r' <= Revision.ID r.

Definition live_real (p : Page.t) : bool :=
  negb (Page.IsPhantom p) && negb (is_deleted p).



(** The entry carries the content of a latest revision of its page, or
    the empty string when the page has no revision. *)
Definition entry_content_ok (db : DB) (e : Fts.t) : Prop :=
  (revs_of_page db (Fts.rowid e) = [] /\ Fts.content e = "") \/
  (exists r, is_latest (revs_of_page db (Fts.rowid e)) r /\
             Revision.Content r = Fts.content e).


(** The engine keeps the row it met first (rows are met in rowid
    order). *)
Definition keep_first : Revision.t -> Revision.t -> bool := fun _ _ => false.

(** An extractor that only recognises a link at the very start of the
    text. *)
Definition ExtractLinks_head (U : UnicodeLib) (content : string)
  : list markdown.LinkInfo :=
  match wikilink.Parse U content with
  | Some wl => [markdown.link_of_node wl]
  | None => []
  end.

(** Every link the extractor reports was built by [Parse]. *)
Definition links_from_Parse (U : UnicodeLib)
    (ExtractLinks : string -> list markdown.LinkInfo) : Prop :=
  forall content link,
    In link (ExtractLinks content) ->
    exists line wl, wikilink.Parse U line = Some wl /\ link = markdown.link_of_node wl.

(** The row of a phantom once [CreatePage] has turned it into a real
    page: id, slug, provenance, deletion mark and creation time stay. *)
Definition converted (existing : Page.t) (title : string) (now : Z) : Page.t :=
  Page.mk (Page.ID existing) (Page.Slug existing) title false
          (Page.FirstCitedByUserID existing) (Page.FirstCitedInPageID existing)
          (Page.DeletedAt existing) (Page.CreatedAt existing) now.

(** The revision row that an insert into [revisions] adds. *)
Definition new_revision (db : DB) (pageID : Z) (content : string)
    (authorID now : Z) : Revision.t :=
  Revision.mk (next_id (map Revision.ID (revisions db))) pageID content authorID now.

(** [l] with the rows of id [id] replaced by [set] of them. *)
Definition replace_by_id (id : Z) (set : Page.t -> Page.t) (l : list Page.t)
  : list Page.t :=
  map (fun p => if Page.ID p =? id then set p else p) l.

(** [db'] has the rows of [pages db], unchanged and in place, followed
    by rows added since; the users are the same. *)
Definition pages_extend (db db' : DB) : Prop :=
  users db' = users db /\ exists added, pages db' = pages db ++ added.

(** The identity of a page row: its id and its slug. *)
Definition page_key (p : Page.t) : Z * string := (Page.ID p, Page.Slug p).

(** Every row of [db] is still in [db'], in place, with its id and slug;
    rows may have been added after them. *)
Definition keys_extend (db db' : DB) : Prop :=
  exists added, map page_key (pages db') = map page_key (pages db) ++ added.

(** [q] has the id and slug of a row of [db]. *)
Definition old_key (db : DB) (q : Page.t) : Prop :=
  exists q0, In q0 (pages db) /\ page_key q0 = page_key q.



(** *** Notions for the further properties *)

(** The row of a page once [SoftDeletePage] has marked it. *)
Definition mark_deleted (now : Z) (p : Page.t) : Page.t :=
  Page.mk (Page.ID p) (Page.Slug p) (Page.Title p) (Page.IsPhantom p)
          (Page.FirstCitedByUserID p) (Page.FirstCitedInPageID p)
          (Some now) (Page.CreatedAt p) now.

(** The row of a page once [RestorePage] has cleared the mark. *)
Definition mark_restored (now : Z) (p : Page.t) : Page.t :=
  Page.mk (Page.ID p) (Page.Slug p) (Page.Title p) (Page.IsPhantom p)
          (Page.FirstCitedByUserID p) (Page.FirstCitedInPageID p)
          None (Page.CreatedAt p) now.

(** The row of a page once [UpdatePage] has written title and time. *)
Definition retitled (title : string) (now : Z) (p : Page.t) : Page.t :=
  Page.mk (Page.ID p) (Page.Slug p) title (Page.IsPhantom p)
          (Page.FirstCitedByUserID p) (Page.FirstCitedInPageID p)
          (Page.DeletedAt p) (Page.CreatedAt p) now.

(** The row can be soft-deleted under this id. *)
Definition deletable (pageID : Z) (p : Page.t) : bool :=
  (Page.ID p =? pageID) && negb (is_deleted p).

(** What the schema guarantees about [revisions]: the primary key and
    the foreign key of [author_id]. *)
Definition revisions_ok (db : DB) : Prop :=
  NoDup (map Revision.ID (revisions db)) /\
  forall r, In r (revisions db) -> In (Revision.AuthorID r) (users db).

(** [db'] has the users of [db] and its revisions, unchanged and in
    place, followed by [added]. *)
Definition revisions_extend (db db' : DB) (added : list Revision.t) : Prop :=
  users db' = users db /\ revisions db' = revisions db ++ added.

(** The two ways a save ends: with the store untouched and a message
    other than "Page saved", or with "Page saved" after [CreatePage] or
    [UpdatePage] has written the page [pid] and the links of the text
    have been resolved. *)
Inductive save_outcome (ExtractLinks : string -> list markdown.LinkInfo)
    (db : DB) (slug : string) (userID : Z) (title content : string) (now : Z)
    (out : DB * handler.response) : Prop :=
| save_rejected :
    fst out = db -> snd out <> handler.Flash "success" "Page saved" ->
    save_outcome ExtractLinks db slug userID title content now out
| save_done (db1 : DB) (pg : Page.t) :
    snd out = handler.Flash "success" "Page saved" ->
    fst out = handler.processWikiLinks ExtractLinks db1 content userID (Page.ID pg) now ->
    title <> "" -> len title <= 500 -> len content <= 500 * 1024 ->
    In userID (users db) ->
    users db1 = users db ->
    revisions db1 = revisions db ++ [new_revision db (Page.ID pg) content userID now] ->
    select_page_by_slug db1 slug = Some pg ->
    Page.Title pg = title -> Page.IsPhantom pg = false ->
    Page.DeletedAt pg = match select_page_by_slug db slug with
                        | Some e => Page.DeletedAt e
                        | None => None
                        end ->
    save_outcome ExtractLinks db slug userID title content now out.


(** None of the characters that [sanitizeFTSQuery] removes is in [s]. *)
Definition fts_clean (s : string) : Prop :=
  forall c, In c fts_removed -> has_byte s c = false.

(** A term of the query that [sanitizeFTSQuery] builds: a word between
    double quotes, or a prefix followed by the star.  The word holds
    none of the removed characters and neither starts nor ends with a
    hyphen. *)
Definition fts_term (t : string) : Prop :=
  exists w,
    w <> "" /\ fts_clean w /\
    no_leading w hyphen = true /\ no_trailing w hyphen = true /\
    (t = (dq ++ w ++ dq)%string \/ t = (w ++ "*")%string).

(** An ASCII letter or digit. *)
Definition is_plain_byte (c : ascii) : bool :=
  let b := b2z c in
  ((0x30 <=? b) && (b <=? 0x39)) || ((0x41 <=? b) && (b <=? 0x5A))
  || ((0x61 <=? b) && (b <=? 0x7A)).

Fixpoint all_plain (s : string) : bool :=
  match s with
  | EmptyString => true
  | String c rest => is_plain_byte c && all_plain rest
  end.

(** A word of a search query made of ASCII letters and digits. *)
Definition plain_word (w : string) : Prop := w <> "" /\ all_plain w = true.

(** The word between double quotes. *)
Definition quoted (w : string) : string := (dq ++ w ++ dq)%string.

(** Every phantom names the page that first cited it, and that page has
    a row. *)
Definition phantoms_cited (db : DB) : Prop :=
  forall p, In p (pages db) -> Page.IsPhantom p = true ->
            exists i, Page.FirstCitedInPageID p = Some i /\ In i (page_ids db).

(** Every real page has a revision written by a known user. *)
Definition real_pages_written (db : DB) : Prop :=
  forall p, In p (pages db) -> Page.IsPhantom p = false ->
            revisions_of db (Page.ID p) <> [].

(** Where a row [q] of the store [db'] after an operation comes from: a
    row of the store [db] before it with the same id, citation and
    phantom flag; or it is a real page with a revision; or it is a
    phantom cited in a page of [db]. *)
Inductive row_origin (db db' : DB) (q : Page.t) : Prop :=
| row_kept (q0 : Page.t) :
    In q0 (pages db) -> Page.ID q = Page.ID q0 ->
    Page.FirstCitedInPageID q = Page.FirstCitedInPageID q0 ->
    Page.IsPhantom q = Page.IsPhantom q0 ->
    row_origin db db' q
| row_written :
    Page.IsPhantom q = false -> revisions_of db' (Page.ID q) <> [] ->
    row_origin db db' q
| row_cited (i : Z) :
    Page.IsPhantom q = true -> Page.FirstCitedInPageID q = Some i ->
    In i (page_ids db) ->
    row_origin db db' q.

(** Some byte of [s] is an ASCII letter or digit. *)
Fixpoint has_plain (s : string) : bool :=
  match s with
  | EmptyString => false
  | String c rest => is_plain_byte c || has_plain rest
  end.

(** Some byte of [s] is not [c]. *)
Fixpoint has_other (s : string) (c : ascii) : bool :=
  match s with
  | EmptyString => false
  | String d rest => negb (Ascii.eqb d c) || has_other rest c
  end.

(** ** Bytes and UTF-8 decoding *)

Lemma b2z_range (c : ascii) : 0 <= b2z c < 256.
Proof.
  unfold b2z. pose proof (N_ascii_bounded c). lia.
Qed.

Lemma z2b_b2z (c : ascii) : z2b (b2z c) = c.
Proof.
  unfold z2b, b2z. rewrite N2Z.id. apply ascii_N_embedding.
Qed.

Lemma lor_ge_l (a b : Z) : 0 <= b -> a <= Z.lor a b.
Proof.
  intros Hb. pose proof (Zbitwise.Z.sub_lor_l_same_l b a) as H.
  assert (0 <= Z.land b (Z.lnot a)) by (apply Z.land_nonneg; left; exact Hb).
  lia.
Qed.

Lemma lor_ge_r (a b : Z) : 0 <= a -> b <= Z.lor a b.
Proof.
  intros Ha. rewrite Z.lor_comm. apply lor_ge_l. exact Ha.
Qed.

Lemma land_mask_range (b : Z) (n : Z) :
  0 <= n -> Z.land b (Z.ones n) = b mod 2 ^ n.
Proof.
  intros. apply Z.land_ones. assumption.
Qed.

Lemma not_slug_rune_ge (r : rune) : RuneSelf <= r -> is_slug_rune r = false.
Proof.
  unfold is_slug_rune, RuneSelf. intros H.
  destruct (Z.leb_spec r 0x7A); destruct (Z.leb_spec r 0x39);
    destruct (Z.eqb_spec r 0x2D); try lia;
    rewrite ?Bool.andb_false_r; reflexivity.
Qed.

Lemma not_slug_RuneError : is_slug_rune RuneError = false.
Proof. reflexivity. Qed.

Lemma cont_not_slug (c : ascii) : locb <= b2z c -> is_slug_byte c = false.
Proof.
  intros H. apply not_slug_rune_ge. exact H.
Qed.

Lemma mask_shift_ge (b k n lo : Z) :
  0 <= k -> 0 <= n -> 0 <= b -> lo <= b mod 2 ^ k ->
  lo * 2 ^ n <= Z.shiftl (Z.land b (Z.ones k)) n.
Proof.
  intros Hk Hn Hb Hlo. rewrite Z.land_ones by assumption.
  rewrite Z.shiftl_mul_pow2 by assumption.
  apply Z.mul_le_mono_nonneg_r; [apply Z.pow_nonneg; lia | assumption].
Qed.

Lemma mask_shift_nonneg (b k n : Z) :
  0 <= k -> 0 <= n -> 0 <= Z.shiftl (Z.land b (Z.ones k)) n.
Proof.
  intros Hk Hn. rewrite Z.land_ones by assumption.
  rewrite Z.shiftl_mul_pow2 by assumption.
  apply Z.mul_nonneg_nonneg; [|apply Z.pow_nonneg; lia].
  apply Z.mod_pos_bound. apply Z.pow_pos_nonneg; lia.
Qed.

Lemma mask_nonneg (b k : Z) : 0 <= k -> 0 <= Z.land b (Z.ones k).
Proof.
  intros Hk. rewrite Z.land_ones by assumption.
  apply Z.mod_pos_bound. apply Z.pow_pos_nonneg; lia.
Qed.

(** The rune decoded from a well-formed multi-byte sequence is not below
    [RuneSelf]. *)
Lemma rune2_ge (b0 b1 : Z) :
  0xC2 <= b0 <= 0xDF ->
  RuneSelf <= Z.lor (Z.shiftl (Z.land b0 0x1F) 6) (Z.land b1 0x3F).
Proof.
  intros H0. change 0x1F with (Z.ones 5). change 0x3F with (Z.ones 6).
  etransitivity; [|apply lor_ge_l; apply mask_nonneg; lia].
  etransitivity; [|apply (mask_shift_ge b0 5 6 2); try lia].
  - unfold RuneSelf. lia.
  - change (2 ^ 5) with 32. Z.to_euclidean_division_equations. lia.
Qed.

Lemma rune3_ge (b0 b1 b2 : Z) :
  0xE0 <= b0 <= 0xEF -> 0x80 <= b1 <= 0xBF -> (b0 = 0xE0 -> 0xA0 <= b1) ->
  RuneSelf <= Z.lor (Z.lor (Z.shiftl (Z.land b0 0x0F) 12)
                           (Z.shiftl (Z.land b1 0x3F) 6))
                    (Z.land b2 0x3F).
Proof.
  intros H0 H1 HE. change 0x0F with (Z.ones 4). change 0x3F with (Z.ones 6).
  etransitivity; [|apply lor_ge_l; apply mask_nonneg; lia].
  destruct (Z.eq_dec b0 0xE0) as [E|E].
  - etransitivity; [|apply lor_ge_r; apply mask_shift_nonneg; lia].
    etransitivity; [|apply (mask_shift_ge b1 6 6 32); try lia].
    + unfold RuneSelf. lia.
    + change (2 ^ 6) with 64. specialize (HE E).
      Z.to_euclidean_division_equations. lia.
  - etransitivity; [|apply lor_ge_l; apply mask_shift_nonneg; lia].
    etransitivity; [|apply (mask_shift_ge b0 4 12 1); try lia].
    + unfold RuneSelf. lia.
    + change (2 ^ 4) with 16. Z.to_euclidean_division_equations. lia.
Qed.

Lemma rune4_ge (b0 b1 b2 b3 : Z) :
  0xF0 <= b0 <= 0xF4 -> 0x80 <= b1 <= 0xBF -> (b0 = 0xF0 -> 0x90 <= b1) ->
  RuneSelf <= Z.lor (Z.lor (Z.lor (Z.shiftl (Z.land b0 0x07) 18)
                                  (Z.shiftl (Z.land b1 0x3F) 12))
                           (Z.shiftl (Z.land b2 0x3F) 6))
                    (Z.land b3 0x3F).
Proof.
  intros H0 H1 HF. change 0x07 with (Z.ones 3). change 0x3F with (Z.ones 6).
  etransitivity; [|apply lor_ge_l; apply mask_nonneg; lia].
  etransitivity; [|apply lor_ge_l; apply mask_shift_nonneg; lia].
  destruct (Z.eq_dec b0 0xF0) as [E|E].
  - etransitivity; [|apply lor_ge_r; apply mask_shift_nonneg; lia].
    etransitivity; [|apply (mask_shift_ge b1 6 12 16); try lia].
    + unfold RuneSelf. lia.
    + change (2 ^ 6) with 64. specialize (HF E).
      Z.to_euclidean_division_equations. lia.
  - etransitivity; [|apply lor_ge_l; apply mask_shift_nonneg; lia].
    etransitivity; [|apply (mask_shift_ge b0 3 18 1); try lia].
    + unfold RuneSelf. lia.
    + change (2 ^ 3) with 8. Z.to_euclidean_division_equations. lia.
Qed.

Lemma first_Multi (b0 sz lo hi : Z) :
  first b0 = Multi sz lo hi ->
  locb <= lo /\ hi <= hicb /\
  ((sz = 2 /\ 0xC2 <= b0 <= 0xDF) \/
   (sz = 3 /\ 0xE0 <= b0 <= 0xEF /\ (b0 = 0xE0 -> 0xA0 <= lo)) \/
   (sz = 4 /\ 0xF0 <= b0 <= 0xF4 /\ (b0 = 0xF0 -> 0x90 <= lo))).
Proof.
  unfold first, locb, hicb.
  repeat match goal with
         | |- context [Z.ltb ?a ?b] => destruct (Z.ltb_spec a b)
         | |- context [Z.leb ?a ?b] => destruct (Z.leb_spec a b)
         | |- context [Z.eqb ?a ?b] => destruct (Z.eqb_spec a b)
         end;
    intros E; inversion E; subst; (split; [lia|split; [lia|]]); lia.
Qed.

(** What [range] sees at the head of a non-empty string: an ASCII byte
    is its own rune; otherwise the rune is outside [a-z0-9-] and the
    bytes it spans beyond the first are continuation bytes. *)
Lemma DecodeRune_head (c0 : ascii) (s1 : string) (r : rune) (w : nat) :
  DecodeRuneInString (String c0 s1) = (r, w) ->
  keep_slug_bytes (take (Nat.pred w) s1) = "" /\
  (if b2z c0 <? RuneSelf then r = b2z c0 else is_slug_rune r = false).
Proof.
  unfold DecodeRuneInString.
  destruct (Z.ltb_spec (b2z c0) RuneSelf) as [Hlt|Hge].
  { intros E; inversion E; subst. split; reflexivity. }
  assert (Hbad : forall r' w', (RuneError, 1%nat) = (r', w') ->
            keep_slug_bytes (take (Nat.pred w') s1) = "" /\ is_slug_rune r' = false).
  { intros r' w' E; inversion E; subst. split; reflexivity. }
  destruct (first (b2z c0)) as [|sz lo hi] eqn:Hf; [apply Hbad|].
  apply first_Multi in Hf. destruct Hf as (Hlo & Hhi & Hsz).
  destruct s1 as [|c1 s2]; [apply Hbad|].
  destruct (Z.ltb_spec (b2z c1) lo); [apply Hbad|].
  destruct (Z.ltb_spec hi (b2z c1)); [apply Hbad|]. cbn [orb].
  assert (Hc1 : is_slug_byte c1 = false) by (apply cont_not_slug; lia).
  unfold locb, hicb in *.
  destruct (Z.leb_spec sz 2).
  { intros E; inversion E; subst. cbn. rewrite Hc1. split; [reflexivity|].
    apply not_slug_rune_ge, rune2_ge. lia. }
  destruct s2 as [|c2 s3]; [apply Hbad|].
  unfold is_cont, locb, hicb.
  destruct (Z.leb_spec 0x80 (b2z c2)); [|apply Hbad].
  destruct (Z.leb_spec (b2z c2) 0xBF); [|apply Hbad]. cbn [andb negb].
  assert (Hc2 : is_slug_byte c2 = false) by (apply cont_not_slug; unfold locb; lia).
  destruct (Z.leb_spec sz 3).
  { intros E; inversion E; subst. cbn. rewrite Hc1, Hc2. split; [reflexivity|].
    apply not_slug_rune_ge, rune3_ge; lia. }
  destruct s3 as [|c3 s4]; [apply Hbad|].
  destruct (Z.leb_spec 0x80 (b2z c3)); [|apply Hbad].
  destruct (Z.leb_spec (b2z c3) 0xBF); [|apply Hbad]. cbn [andb negb].
  assert (Hc3 : is_slug_byte c3 = false) by (apply cont_not_slug; unfold locb; lia).
  intros E; inversion E; subst. cbn. rewrite Hc1, Hc2, Hc3. split; [reflexivity|].
  apply not_slug_rune_ge, rune4_ge; lia.
Qed.

Lemma EncodeRune_byte (c : ascii) :
  b2z c < RuneSelf -> EncodeRune (b2z c) = String c "".
Proof.
  intros H. unfold EncodeRune. pose proof (b2z_range c) as Hr.
  destruct (Z.leb_spec 0 (b2z c)); [|lia].
  destruct (Z.ltb_spec (b2z c) 0x80); [|unfold RuneSelf in H; lia].
  cbn [andb]. rewrite z2b_b2z. reflexivity.
Qed.

(** The loop of [Slugify] over the runes of [s] keeps exactly the bytes
    of [s] that lie in [a-z0-9-]. *)
Lemma keep_slug_runes_range_from (U : UnicodeLib) (s : string) :
  forall k, keep_slug_bytes (take k s) = "" ->
            keep_slug_runes U (range_from k s) = keep_slug_bytes s.
Proof.
  induction s as [|a s IH]; intros k Hk.
  - destruct k; reflexivity.
  - destruct k as [|k].
    + cbn [range_from]. destruct (DecodeRuneInString (String a s)) as [r w] eqn:E.
      apply DecodeRune_head in E. destruct E as [Hskip Hr].
      cbn [keep_slug_runes keep_slug_bytes]. unfold is_slug_byte.
      destruct (Z.ltb_spec (b2z a) RuneSelf) as [Hlt|Hge].
      * subst r. destruct (is_slug_rune (b2z a)).
        -- rewrite EncodeRune_byte by assumption. cbn. f_equal. apply IH, Hskip.
        -- destruct (IsMn U (b2z a)); apply IH, Hskip.
      * rewrite Hr. rewrite (not_slug_rune_ge (b2z a)) by assumption.
        destruct (IsMn U r); apply IH, Hskip.
    + cbn [take keep_slug_bytes] in Hk. cbn [range_from keep_slug_bytes].
      destruct (is_slug_byte a); [discriminate|]. apply IH, Hk.
Qed.

Lemma keep_slug_runes_range (U : UnicodeLib) (s : string) :
  keep_slug_runes U (range s) = keep_slug_bytes s.
Proof.
  apply keep_slug_runes_range_from. reflexivity.
Qed.

(** ** Shape of the strings [Slugify] builds *)

Lemma all_slug_keep (s : string) : all_slug (keep_slug_bytes s) = true.
Proof.
  induction s as [|a s IH]; [reflexivity|].
  cbn. destruct (is_slug_byte a) eqn:E; [|exact IH].
  cbn. rewrite E, IH. reflexivity.
Qed.

Lemma keep_all_slug (s : string) : all_slug s = true -> keep_slug_bytes s = s.
Proof.
  induction s as [|a s IH]; [reflexivity|].
  cbn. destruct (is_slug_byte a); [|discriminate].
  cbn. intros H. rewrite IH by assumption. reflexivity.
Qed.

Lemma CollapseRuns_cons (a : ascii) (s : string) (c : ascii) :
  CollapseRuns (String a s) c =
  if Ascii.eqb a c then
    match s with
    | String e _ =>
      if Ascii.eqb e c then CollapseRuns s c else String a (CollapseRuns s c)
    | EmptyString => String a EmptyString
    end
  else String a (CollapseRuns s c).
Proof. reflexivity. Qed.

Lemma all_slug_Collapse (s : string) (c : ascii) :
  all_slug s = true -> all_slug (CollapseRuns s c) = true.
Proof.
  induction s as [|a s IH]; [reflexivity|].
  rewrite CollapseRuns_cons. cbn [all_slug]. intros H.
  apply andb_prop in H. destruct H as [Ha Hs].
  destruct (Ascii.eqb a c).
  - destruct s as [|b s']; [cbn; rewrite Ha; reflexivity|].
    destruct (Ascii.eqb b c); [apply IH, Hs|].
    cbn [all_slug]. rewrite Ha. apply IH, Hs.
  - cbn [all_slug]. rewrite Ha. apply IH, Hs.
Qed.

Lemma CollapseRuns_head (s : string) (c a : ascii) :
  no_leading (CollapseRuns (String a s) c) a = false.
Proof.
  revert a. induction s as [|b s IH]; intros a.
  - cbn. destruct (Ascii.eqb a c); cbn; rewrite Ascii.eqb_refl; reflexivity.
  - rewrite CollapseRuns_cons. destruct (Ascii.eqb a c) eqn:Ea.
    + destruct (Ascii.eqb b c) eqn:Eb.
      * apply Ascii.eqb_eq in Ea, Eb. subst. apply IH.
      * cbn [no_leading]. rewrite Ascii.eqb_refl. reflexivity.
    + cbn [no_leading]. rewrite Ascii.eqb_refl. reflexivity.
Qed.

Lemma no_run_cons (a : ascii) (t : string) (c : ascii) :
  no_run (String a t) c = negb (Ascii.eqb a c && negb (no_leading t c)) && no_run t c.
Proof.
  destruct t as [|b t]; cbn.
  - rewrite Bool.andb_false_r. reflexivity.
  - rewrite Bool.negb_involutive. reflexivity.
Qed.

Lemma no_run_Collapse (s : string) (c : ascii) : no_run (CollapseRuns s c) c = true.
Proof.
  induction s as [|a s IH]; [reflexivity|].
  rewrite CollapseRuns_cons. destruct (Ascii.eqb a c) eqn:Ea.
  - destruct s as [|b s']; [reflexivity|].
    destruct (Ascii.eqb b c) eqn:Eb; [exact IH|].
    rewrite no_run_cons, IH, Bool.andb_true_r.
    pose proof (CollapseRuns_head s' c b) as Hh.
    destruct (CollapseRuns (String b s') c) as [|b' t]; [discriminate|].
    cbn in Hh. apply Bool.negb_false_iff, Ascii.eqb_eq in Hh. subst b'.
    cbn [no_leading]. rewrite Eb. rewrite Bool.andb_false_r. reflexivity.
  - rewrite no_run_cons, IH, Ea. reflexivity.
Qed.

Lemma Collapse_no_run (s : string) (c : ascii) :
  no_run s c = true -> CollapseRuns s c = s.
Proof.
  induction s as [|a s IH]; [reflexivity|].
  intros H. rewrite CollapseRuns_cons.
  destruct s as [|b s'].
  - destruct (Ascii.eqb a c); reflexivity.
  - cbn [no_run] in H. apply andb_prop in H. destruct H as [Hab Hs].
    rewrite (IH Hs).
    destruct (Ascii.eqb a c); [|reflexivity].
    destruct (Ascii.eqb b c); [discriminate|reflexivity].
Qed.

Lemma TrimRightByte_cons (d : ascii) (rest : string) (c : ascii) :
  TrimRightByte (String d rest) c =
  match TrimRightByte rest c with
  | EmptyString => if Ascii.eqb d c then EmptyString else String d EmptyString
  | t => String d t
  end.
Proof. reflexivity. Qed.

Lemma TrimRightByte_head (s : string) (c b : ascii) (t : string) :
  TrimRightByte s c = String b t -> exists r, s = String b r.
Proof.
  destruct s as [|d rest]; [discriminate|].
  rewrite TrimRightByte_cons.
  destruct (TrimRightByte rest c).
  - destruct (Ascii.eqb d c); [discriminate|].
    intros E; inversion E; subst. eexists; reflexivity.
  - intros E; inversion E; subst. eexists; reflexivity.
Qed.

Lemma all_slug_TrimRight (s : string) (c : ascii) :
  all_slug s = true -> all_slug (TrimRightByte s c) = true.
Proof.
  induction s as [|d rest IH]; [reflexivity|].
  rewrite TrimRightByte_cons. cbn [all_slug]. intros H.
  apply andb_prop in H. destruct H as [Hd Hr]. specialize (IH Hr).
  destruct (TrimRightByte rest c).
  - destruct (Ascii.eqb d c); [reflexivity|]. cbn. rewrite Hd. reflexivity.
  - cbn [all_slug] in *. rewrite Hd. exact IH.
Qed.

Lemma all_slug_TrimLeft (s : string) (c : ascii) :
  all_slug s = true -> all_slug (TrimLeftByte s c) = true.
Proof.
  induction s as [|d rest IH]; [reflexivity|].
  cbn [TrimLeftByte]. intros H. destruct (Ascii.eqb d c); [|exact H].
  cbn [all_slug] in H. apply andb_prop in H. apply IH, H.
Qed.

Lemma no_run_tail (a : ascii) (t : string) (c : ascii) :
  no_run (String a t) c = true -> no_run t c = true.
Proof.
  rewrite no_run_cons. intros H. apply andb_prop in H. apply H.
Qed.

Lemma no_run_TrimLeft (s : string) (c : ascii) :
  no_run s c = true -> no_run (TrimLeftByte s c) c = true.
Proof.
  induction s as [|d rest IH]; [reflexivity|].
  cbn [TrimLeftByte]. intros H. destruct (Ascii.eqb d c); [|exact H].
  apply IH. eapply no_run_tail. exact H.
Qed.

Lemma no_run_TrimRight (s : string) (c : ascii) :
  no_run s c = true -> no_run (TrimRightByte s c) c = true.
Proof.
  induction s as [|d rest IH]; [reflexivity|].
  intros H. rewrite TrimRightByte_cons.
  pose proof (no_run_tail _ _ _ H) as Hr. specialize (IH Hr).
  destruct (TrimRightByte rest c) as [|b t] eqn:Et.
  - destruct (Ascii.eqb d c); reflexivity.
  - apply TrimRightByte_head in Et. destruct Et as [r Er]. subst rest.
    rewrite no_run_cons, IH, Bool.andb_true_r.
    rewrite no_run_cons in H. apply andb_prop in H. destruct H as [H _].
    exact H.
Qed.

Lemma no_trailing_TrimRight (s : string) (c : ascii) :
  no_trailing (TrimRightByte s c) c = true.
Proof.
  induction s as [|d rest IH]; [reflexivity|].
  rewrite TrimRightByte_cons.
  destruct (TrimRightByte rest c) as [|b t].
  - destruct (Ascii.eqb d c) eqn:E; [reflexivity|]. cbn. rewrite E. reflexivity.
  - exact IH.
Qed.

Lemma no_trailing_tail (a : ascii) (t : string) (c : ascii) :
  no_trailing (String a t) c = true -> no_trailing t c = true.
Proof.
  destruct t; [reflexivity|]. intros H. exact H.
Qed.

Lemma no_trailing_TrimLeft (s : string) (c : ascii) :
  no_trailing s c = true -> no_trailing (TrimLeftByte s c) c = true.
Proof.
  induction s as [|d rest IH]; [reflexivity|].
  cbn [TrimLeftByte]. intros H. destruct (Ascii.eqb d c); [|exact H].
  apply IH. eapply no_trailing_tail. exact H.
Qed.

Lemma no_leading_TrimLeft (s : string) (c : ascii) :
  no_leading (TrimLeftByte s c) c = true.
Proof.
  induction s as [|d rest IH]; [reflexivity|].
  cbn [TrimLeftByte]. destruct (Ascii.eqb d c) eqn:E; [exact IH|].
  cbn. rewrite E. reflexivity.
Qed.

Lemma TrimLeft_no_leading (s : string) (c : ascii) :
  no_leading s c = true -> TrimLeftByte s c = s.
Proof.
  destruct s as [|d rest]; [reflexivity|].
  cbn. destruct (Ascii.eqb d c); [discriminate|reflexivity].
Qed.

Lemma TrimRight_no_trailing (s : string) (c : ascii) :
  no_trailing s c = true -> TrimRightByte s c = s.
Proof.
  induction s as [|d rest IH]; [reflexivity|].
  intros H. rewrite TrimRightByte_cons.
  destruct rest as [|b t].
  - cbn in *. destruct (Ascii.eqb d c); [discriminate|reflexivity].
  - rewrite IH by exact H. reflexivity.
Qed.

(** [Slugify] always returns a string of the slug shape, whatever the
    Unicode tables are. *)
Lemma Slugify_shape (U : UnicodeLib) (title : string) : slug_shaped (Slugify U title).
Proof.
  unfold Slugify, TrimByte. rewrite keep_slug_runes_range.
  set (k := keep_slug_bytes _).
  assert (Hk : all_slug k = true) by apply all_slug_keep.
  repeat split.
  - apply all_slug_TrimLeft, all_slug_TrimRight, all_slug_Collapse, Hk.
  - apply no_run_TrimLeft, no_run_TrimRight, no_run_Collapse.
  - apply no_leading_TrimLeft.
  - apply no_trailing_TrimLeft, no_trailing_TrimRight.
Qed.

(** ** [Slugify] on a string that already has the slug shape *)

Lemma slug_byte_cases (c : ascii) :
  is_slug_byte c = true ->
  b2z c < RuneSelf /\ lower_byte c = c /\
  Ascii.eqb c " "%char = false /\ Ascii.eqb c "_"%char = false.
Proof.
  unfold is_slug_byte, is_slug_rune, lower_byte, RuneSelf. intros H.
  assert (Hr : 0x61 <= b2z c <= 0x7A \/ 0x30 <= b2z c <= 0x39 \/ b2z c = 0x2D).
  { destruct (Z.leb_spec 0x61 (b2z c)); destruct (Z.leb_spec (b2z c) 0x7A);
      destruct (Z.leb_spec 0x30 (b2z c)); destruct (Z.leb_spec (b2z c) 0x39);
      destruct (Z.eqb_spec (b2z c) 0x2D); try discriminate; lia. }
  split; [lia|]. split.
  - destruct (Z.leb_spec 0x41 (b2z c)); destruct (Z.leb_spec (b2z c) 0x5A);
      try reflexivity; lia.
  - split; apply Ascii.eqb_neq; intros E; subst c.
    + change (b2z " "%char) with 0x20 in Hr. lia.
    + change (b2z "_"%char) with 0x5F in Hr. lia.
Qed.

Lemma all_slug_fixed (s : string) :
  all_slug s = true ->
  is_ascii s = true /\ lower_ascii s = s /\
  ReplaceAllByte s " "%char hyphen = s /\ ReplaceAllByte s "_"%char hyphen = s.
Proof.
  induction s as [|c s IH]; [repeat split|].
  cbn [all_slug]. intros H. apply andb_prop in H. destruct H as [Hc Hs].
  destruct (IH Hs) as (I1 & I2 & I3 & I4).
  destruct (slug_byte_cases c Hc) as (C1 & C2 & C3 & C4).
  cbn. rewrite I1, I2, I3, I4, C2, C3, C4.
  destruct (Z.ltb_spec (b2z c) RuneSelf); [|lia]. repeat split.
Qed.

Lemma Slugify_fixed (U : UnicodeLib) (s : string) :
  ascii_exact U -> slug_shaped s -> Slugify U s = s.
Proof.
  intros [HN HL] (Hall & Hrun & Hlead & Htrail).
  destruct (all_slug_fixed s Hall) as (Ha & Hl & Hsp & Hun).
  unfold Slugify. rewrite (HN s Ha), (HL s Ha), Hl, Hsp, Hun.
  rewrite keep_slug_runes_range, (keep_all_slug s Hall).
  rewrite (Collapse_no_run s hyphen Hrun). unfold TrimByte.
  rewrite (TrimRight_no_trailing s hyphen Htrail).
  apply TrimLeft_no_leading, Hlead.
Qed.

Lemma AsciiLib_exact : ascii_exact AsciiLib.
Proof.
  split; intros s _; reflexivity.
Qed.

(** The cases of the repository's [TestSlugify] that stay within ASCII,
    and the one with no ASCII letter at all. *)
Example Slugify_test_cases :
  map (Slugify AsciiLib)
      ["Page Name"; "The Battle of Foo"; "Chapter 1"; "Some-Thing"; "Hello_World";
       "  Spaces  "; "Multiple   Spaces"; "UPPERCASE"; "Numbers123";
       "Special!@#$Characters"; "---hyphens---"; ""; "日本語"; "a-b-c"]
  = ["page-name"; "the-battle-of-foo"; "chapter-1"; "some-thing"; "hello-world";
     "spaces"; "multiple-spaces"; "uppercase"; "numbers123";
     "specialcharacters"; "hyphens"; ""; ""; "a-b-c"].
Proof. reflexivity. Qed.

(** ** The wiki-link parser *)

Lemma take_app (a b : string) : take (String.length a) (a ++ b) = a.
Proof.
  induction a as [|c a IH]; [destruct b; reflexivity|].
  cbn. rewrite IH. reflexivity.
Qed.

Lemma drop_app (a b : string) : drop (String.length a) (a ++ b) = b.
Proof.
  induction a as [|c a IH]; [reflexivity|]. exact IH.
Qed.

Lemma length_app (a b : string) :
  String.length (a ++ b) = (String.length a + String.length b)%nat.
Proof.
  induction a as [|c a IH]; [reflexivity|]. cbn. rewrite IH. reflexivity.
Qed.

Lemma app_assoc_str (a b c : string) : ((a ++ b) ++ c = a ++ (b ++ c))%string.
Proof.
  induction a as [|x a IH]; [reflexivity|]. cbn. rewrite IH. reflexivity.
Qed.

Lemma find_closing_found (content rest : string) :
  bracket_content content ->
  forall i, wikilink.find_closing i (content ++ "]]" ++ rest)
            = wikilink.ClosedAt (i + String.length content).
Proof.
  unfold bracket_content.
  induction content as [|a content IH]; intros [Hnl Hcl] i.
  - cbn. rewrite Nat.add_0_r. reflexivity.
  - cbn [has_byte] in Hnl. apply Bool.orb_false_iff in Hnl. destruct Hnl as [Ha Hnl].
    assert (Hstep : (Ascii.eqb a "]"%char &&
                     match (content ++ "]]" ++ rest)%string with
                     | String d _ => Ascii.eqb d "]"%char
                     | EmptyString => false
                     end) = false
                    /\ has_closing (content ++ "]") = false).
    { destruct content as [|b content'].
      - cbn in Hcl |- *. rewrite Bool.orb_false_r in Hcl. split; [exact Hcl|reflexivity].
      - cbn [append has_closing] in Hcl |- *.
        apply Bool.orb_false_iff in Hcl. exact Hcl. }
    destruct Hstep as [Hfirst Hcl'].
    specialize (IH (conj Hnl Hcl') (S i)).
    replace (i + String.length (String a content))%nat
      with (S i + String.length content)%nat by (cbn; lia).
    change (String a content ++ "]]" ++ rest)%string
      with (String a (content ++ "]]" ++ rest)).
    rewrite <- IH.
    destruct (content ++ "]]" ++ rest)%string as [|d tl] eqn:E.
    { destruct content; discriminate. }
    cbn beta iota in Hfirst.
    change (wikilink.find_closing i (String a (String d tl)))
      with (if Ascii.eqb a "]"%char && Ascii.eqb d "]"%char then wikilink.ClosedAt i
            else if Ascii.eqb a "010"%char then wikilink.HitNewline
                 else wikilink.find_closing (S i) (String d tl)).
    rewrite Hfirst. unfold newline in Ha. rewrite Ha. reflexivity.
Qed.

Lemma find_closing_inv (s : string) :
  forall i e, wikilink.find_closing i s = wikilink.ClosedAt e ->
  exists content rest,
    s = (content ++ "]]" ++ rest)%string /\ e = (i + String.length content)%nat /\
    bracket_content content.
Proof.
  unfold bracket_content.
  induction s as [|c s IH]; intros i e H; [discriminate|].
  destruct s as [|d s']; [discriminate|].
  change (wikilink.find_closing i (String c (String d s')))
    with (if Ascii.eqb c "]"%char && Ascii.eqb d "]"%char then wikilink.ClosedAt i
          else if Ascii.eqb c "010"%char then wikilink.HitNewline
               else wikilink.find_closing (S i) (String d s')) in H.
  destruct (Ascii.eqb c "]"%char && Ascii.eqb d "]"%char) eqn:Ecl.
  - inversion H; subst. apply andb_prop in Ecl. destruct Ecl as [Ec Ed].
    apply Ascii.eqb_eq in Ec, Ed. subst.
    exists "", s'. rewrite Nat.add_0_r. repeat split.
  - destruct (Ascii.eqb c "010"%char) eqn:Enl; [discriminate|].
    apply IH in H. destruct H as (content & rest & Hs & He & Hnl & Hcl).
    exists (String c content), rest. cbn [append String.length].
    rewrite Hs. split; [reflexivity|]. split; [lia|].
    split.
    + cbn [has_byte]. unfold newline. rewrite Enl. exact Hnl.
    + destruct content as [|b content'].
      * cbn in Hs. inversion Hs; subst. cbn. rewrite Bool.orb_false_r.
        rewrite Bool.andb_true_r in Ecl |- *. exact Ecl.
      * cbn in Hs. inversion Hs; subst. cbn [append has_closing] in *.
        rewrite Ecl. exact Hcl.
Qed.

(** On a line that opens with two brackets and is closed after
    [content], [Parse] builds its node from [content] alone. *)
Lemma Parse_closed (U : UnicodeLib) (content rest : string) :
  bracket_content content ->
  wikilink.Parse U ("[[" ++ content ++ "]]" ++ rest) = node_of_content U content.
Proof.
  intros Hc. unfold wikilink.Parse.
  assert (Hlen : (len ("[[" ++ content ++ "]]" ++ rest) <? 4) = false).
  { apply Z.ltb_ge. unfold len. rewrite !length_app. cbn. lia. }
  rewrite Hlen.
  change ("[[" ++ content ++ "]]" ++ rest)%string
    with (String "["%char (String "["%char (content ++ "]]" ++ rest))).
  cbv beta iota. change (Ascii.eqb "["%char "["%char) with true. cbn [negb orb].
  rewrite (find_closing_found content rest Hc 2).
  replace (2 + String.length content - 2)%nat with (String.length content) by lia.
  rewrite take_app. reflexivity.
Qed.

Lemma Parse_inv (U : UnicodeLib) (line : string) (wl : wikilink.WikiLink) :
  wikilink.Parse U line = Some wl ->
  exists content rest,
    line = ("[[" ++ content ++ "]]" ++ rest)%string /\ bracket_content content.
Proof.
  unfold wikilink.Parse. destruct (len line <? 4); [discriminate|].
  destruct line as [|c0 [|c1 tl]]; try discriminate.
  destruct (Ascii.eqb c0 "["%char) eqn:E0; [|discriminate].
  destruct (Ascii.eqb c1 "["%char) eqn:E1; [|discriminate].
  cbn [negb orb]. apply Ascii.eqb_eq in E0, E1. subst.
  destruct (wikilink.find_closing 2 tl) as [e| |] eqn:Ef; try discriminate.
  intros _. apply find_closing_inv in Ef.
  destruct Ef as (content & rest & Hs & _ & Hc).
  exists content, rest. subst tl. split; [reflexivity|exact Hc].
Qed.

Lemma IndexByte_absent (s : string) (c : ascii) :
  has_byte s c = false -> IndexByte s c = None.
Proof.
  induction s as [|d s IH]; [reflexivity|].
  cbn. destruct (Ascii.eqb d c); [discriminate|].
  intros H. rewrite (IH H). reflexivity.
Qed.

Lemma IndexByte_first (left right : string) (c : ascii) :
  has_byte left c = false ->
  IndexByte (left ++ String c right) c = Some (String.length left).
Proof.
  induction left as [|d left IH]; intros H.
  - cbn. rewrite Ascii.eqb_refl. reflexivity.
  - cbn in H |- *. destruct (Ascii.eqb d c); [discriminate|].
    rewrite (IH H). reflexivity.
Qed.

Lemma IndexByte_split (s : string) (c : ascii) :
  forall idx, IndexByte s c = Some idx ->
  s = (take idx s ++ String c (drop (S idx) s))%string /\
  has_byte (take idx s) c = false.
Proof.
  induction s as [|d s IH]; intros idx H; [discriminate|].
  cbn in H. destruct (Ascii.eqb d c) eqn:E.
  - inversion H; subst. apply Ascii.eqb_eq in E. subst. split; reflexivity.
  - destruct (IndexByte s c) as [j|]; [|discriminate].
    cbn in H. inversion H; subst. destruct (IH j eq_refl) as [Hs Hb].
    cbn [take drop append has_byte]. rewrite E, Hb. split; [|reflexivity].
    f_equal. exact Hs.
Qed.

Lemma pipe_split_total (content : string) :
  exists title display, pipe_split content title display.
Proof.
  destruct (IndexByte content "|"%char) as [idx|] eqn:E.
  - apply IndexByte_split in E. destruct E as [Hs Hb].
    exists (TrimSpace (take idx content)), (TrimSpace (drop (S idx) content)).
    rewrite Hs at 1. apply (split_piped _ _ Hb).
  - exists (TrimSpace content), (TrimSpace content). apply split_plain.
    destruct (has_byte content "|"%char) eqn:Hb; [|reflexivity].
    exfalso. clear -E Hb. induction content as [|d s IH]; [discriminate|].
    cbn in *. destruct (Ascii.eqb d "|"%char); [discriminate|].
    destruct (IndexByte s "|"%char); [discriminate|]. apply IH; auto.
Qed.

Lemma TrimSpace_empty : TrimSpace "" = "".
Proof. reflexivity. Qed.

(** The node built from the bracket content, in terms of its title and
    display text. *)
Lemma node_of_content_split (U : UnicodeLib) (content title display : string) :
  pipe_split content title display ->
  node_of_content U content =
  if String.eqb title "" || String.eqb (Slugify U title) "" then None
  else Some (wikilink.NewWikiLink (Slugify U title) display).
Proof.
  intros H. unfold node_of_content. destruct H as [left right Hb|content Hb].
  - destruct (String.eqb_spec (left ++ "|" ++ right) "") as [E|_].
    { destruct left; discriminate. }
    change (left ++ "|" ++ right)%string with (left ++ String "|"%char right)%string.
    rewrite (IndexByte_first left right _ Hb).
    rewrite take_app.
    assert (Hd : drop (S (String.length left)) (left ++ String "|"%char right) = right).
    { clear. induction left as [|d l IH]; [reflexivity|exact IH]. }
    rewrite Hd.
    destruct (String.eqb (TrimSpace left) ""); [reflexivity|].
    destruct (String.eqb (Slugify U (TrimSpace left)) ""); reflexivity.
  - rewrite (IndexByte_absent content _ Hb).
    destruct (String.eqb_spec content "") as [E|_].
    { subst. reflexivity. }
    destruct (String.eqb (TrimSpace content) ""); [reflexivity|].
    destruct (String.eqb (Slugify U (TrimSpace content)) ""); reflexivity.
Qed.

Lemma Parse_complete (U : UnicodeLib) (content rest title display : string) :
  bracket_content content ->
  pipe_split content title display ->
  wikilink.Parse U ("[[" ++ content ++ "]]" ++ rest) =
  if String.eqb title "" || String.eqb (Slugify U title) "" then None
  else Some (wikilink.NewWikiLink (Slugify U title) display).
Proof.
  intros Hc Hs. rewrite (Parse_closed U content rest Hc).
  apply node_of_content_split, Hs.
Qed.

Lemma Parse_sound (U : UnicodeLib) (line : string) (wl : wikilink.WikiLink) :
  wikilink.Parse U line = Some wl ->
  exists content rest title display,
    line = ("[[" ++ content ++ "]]" ++ rest)%string /\
    bracket_content content /\
    pipe_split content title display /\
    title <> "" /\ Slugify U title <> "" /\
    wl = wikilink.NewWikiLink (Slugify U title) display.
Proof.
  intros H. destruct (Parse_inv U line wl H) as (content & rest & Hl & Hc).
  destruct (pipe_split_total content) as (title & display & Hs).
  exists content, rest, title, display. subst line.
  rewrite (Parse_complete U content rest title display Hc Hs) in H.
  destruct (String.eqb_spec title ""); [discriminate|].
  destruct (String.eqb_spec (Slugify U title) ""); [discriminate|].
  cbn [orb] in H. inversion H; subst.
  split; [reflexivity|]. split; [exact Hc|]. split; [exact Hs|].
  split; [assumption|]. split; [assumption|reflexivity].
Qed.

(** The cases of the repository's [TestParser]. *)
Example Parse_test_cases :
  map (wikilink.Parse AsciiLib)
      ["[[Page Name]]"; "[[Page Name|Display Text]]"; "[[ Page Name | Display Text ]]";
       "[[The Battle of Foo!]]"; "[[]]"; "[Page"; "[Page Name]"; "[[Page Name";
       "[[Chapter 1]]"; "[[Some-Thing]]"]
  = [Some (wikilink.NewWikiLink "page-name" "Page Name");
     Some (wikilink.NewWikiLink "page-name" "Display Text");
     Some (wikilink.NewWikiLink "page-name" "Display Text");
     Some (wikilink.NewWikiLink "the-battle-of-foo" "The Battle of Foo!");
     None; None; None; None;
     Some (wikilink.NewWikiLink "chapter-1" "Chapter 1");
     Some (wikilink.NewWikiLink "some-thing" "Some-Thing")].
Proof. reflexivity. Qed.


(** On ASCII titles [Slugify] does not depend on the Unicode tables. *)
Lemma Slugify_ascii (U : UnicodeLib) (t : string) :
  ascii_exact U -> is_ascii t = true -> Slugify U t = Slugify AsciiLib t.
Proof.
  intros [HN HL] Ha. unfold Slugify. rewrite !keep_slug_runes_range.
  rewrite (HN t Ha), (HL t Ha). reflexivity.
Qed.

(** ** Lists: ordering, limits and the newest revision *)

Lemma In_insert_by {A : Type} (le : A -> A -> bool) (x y : A) (l : list A) :
  In y (insert_by le x l) <-> y = x \/ In y l.
Proof.
  induction l as [|z l IH]; cbn.
  - intuition congruence.
  - destruct (le x z); cbn; rewrite ?IH; intuition congruence.
Qed.

Lemma In_order_by {A : Type} (le : A -> A -> bool) (y : A) (l : list A) :
  In y (order_by le l) <-> In y l.
Proof.
  unfold order_by. induction l as [|x l IH]; cbn; [tauto|].
  rewrite In_insert_by, IH. intuition congruence.
Qed.

Lemma length_insert_by {A : Type} (le : A -> A -> bool) (x : A) (l : list A) :
  List.length (insert_by le x l) = S (List.length l).
Proof.
  induction l as [|z l IH]; cbn; [reflexivity|].
  destruct (le x z); cbn; rewrite ?IH; reflexivity.
Qed.

Lemma length_order_by {A : Type} (le : A -> A -> bool) (l : list A) :
  List.length (order_by le l) = List.length l.
Proof.
  unfold order_by. induction l as [|x l IH]; cbn; [reflexivity|].
  rewrite length_insert_by, IH. reflexivity.
Qed.

Lemma In_limit_rows {A : Type} (n : Z) (y : A) (l : list A) :
  In y (limit_rows n l) -> In y l.
Proof.
  unfold limit_rows. destruct (n <? 0); [tauto|].
  intros H. rewrite <- (firstn_skipn (Z.to_nat n) l). apply in_or_app. left. exact H.
Qed.

Section Latest.

Variable tie : Revision.t -> Revision.t -> bool.

Lemma latest_from_spec (rs : list Revision.t) :
  forall best r,
    latest_from tie best rs = Some r ->
    (best = Some r \/ In r rs) /\
    (forall b, best = Some b -> Revision.CreatedAt b <= Revision.CreatedAt r) /\
    (forall r', In r' rs -> Revision.CreatedAt r' <= Revision.CreatedAt r).
Proof.
  induction rs as [|x rs IH]; intros best r H.
  - cbn in H. subst best. repeat split; auto.
    + intros b E. inversion E. lia.
    + intros r' [].
  - cbn [latest_from fold_left] in H. apply IH in H.
    destruct H as (Hin & Hbest & Hall).
    assert (Hx : Revision.CreatedAt x <= Revision.CreatedAt r /\
                 (forall b, best = Some b -> Revision.CreatedAt b <= Revision.CreatedAt r) /\
                 (newer tie best x = Some r -> best = Some r \/ x = r)).
    { unfold newer in *. destruct best as [b|].
      - destruct (Z.ltb_spec (Revision.CreatedAt b) (Revision.CreatedAt x)).
        + specialize (Hbest x eq_refl). repeat split; try lia.
          * intros b' E; inversion E; subst; lia.
          * intros E; inversion E; auto.
        + destruct ((Revision.CreatedAt b =? Revision.CreatedAt x) && tie x b) eqn:Et.
          * apply andb_prop in Et. destruct Et as [Et _]. apply Z.eqb_eq in Et.
            specialize (Hbest x eq_refl). repeat split; try lia.
            -- intros b' E; inversion E; subst; lia.
            -- intros E; inversion E; auto.
          * specialize (Hbest b eq_refl). repeat split; try lia.
            -- intros b' E; inversion E; subst; lia.
            -- intros E; inversion E; auto.
      - specialize (Hbest x eq_refl). repeat split; try lia.
        + intros b E; discriminate.
        + intros E; inversion E; auto. }
    destruct Hx as (Hx1 & Hx2 & Hx3). repeat split.
    + destruct Hin as [Hin|Hin]; [|right; right; exact Hin].
      destruct (Hx3 Hin) as [E|E]; [left; exact E|right; left; exact E].
    + exact Hx2.
    + intros r' [E|Hr']; [subst; exact Hx1|apply Hall, Hr'].
Qed.

Lemma latest_from_some (rs : list Revision.t) :
  forall b, exists r, latest_from tie (Some b) rs = Some r.
Proof.
  induction rs as [|x rs IH]; intros b.
  - eexists; reflexivity.
  - assert (E : exists b', newer tie (Some b) x = Some b').
    { unfold newer.
      destruct (Revision.CreatedAt b <? Revision.CreatedAt x); [eexists; reflexivity|].
      destruct ((Revision.CreatedAt b =? Revision.CreatedAt x) && tie x b);
        eexists; reflexivity. }
    destruct E as [b' E]. unfold latest_from in *. cbn [fold_left].
    rewrite E. apply IH.
Qed.

Lemma latest_none (rs : list Revision.t) : latest tie rs = None <-> rs = [].
Proof.
  split.
  - destruct rs as [|x rs]; [reflexivity|]. unfold latest. cbn.
    destruct (latest_from_some rs x) as [r Hr].
    unfold latest_from in Hr. rewrite Hr. discriminate.
  - intros ->. reflexivity.
Qed.

Lemma latest_is_latest (rs : list Revision.t) (r : Revision.t) :
  latest tie rs = Some r -> is_latest rs r.
Proof.
  intros H. apply latest_from_spec in H. destruct H as ([H|H] & _ & Hall).
  - discriminate.
  - split; assumption.
Qed.

(** A revision strictly newer than all the others is the one returned,
    whatever the engine does with ties. *)
Lemma latest_unique (rs : list Revision.t) (r : Revision.t) :
  In r rs ->
  (forall r', In r' rs -> r' <> r -> Revision.CreatedAt r' < Revision.CreatedAt r) ->
  latest tie rs = Some r.
Proof.
  intros Hin Hnew.
  destruct (latest tie rs) as [x|] eqn:E.
  - apply latest_is_latest in E. destruct E as [Hx Hmax].
    assert (Hd : {x = r} + {x <> r}).
    { decide equality; try apply Z.eq_dec; apply string_dec. }
    destruct Hd as [|Hne]; [f_equal; assumption|].
    specialize (Hnew x Hx Hne). specialize (Hmax r Hin). lia.
  - apply latest_none in E. subst. destruct Hin.
Qed.

End Latest.

(** ** Single statements of the store *)

Lemma mem_id_In (i : Z) (ids : list Z) : mem_id i ids = true <-> In i ids.
Proof.
  unfold mem_id. rewrite existsb_exists. split.
  - intros (x & Hx & E). apply Z.eqb_eq in E. subst. exact Hx.
  - intros H. exists i. split; [exact H|apply Z.eqb_refl].
Qed.

Lemma fold_max_ge (ids : list Z) (x : Z) : In x ids -> x <= fold_right Z.max 0 ids.
Proof.
  induction ids as [|y ids IH]; cbn; [tauto|].
  intros [E|H]; [subst; lia|]. specialize (IH H). lia.
Qed.

Lemma next_id_fresh (ids : list Z) : ~ In (next_id ids) ids.
Proof.
  unfold next_id. intros H. apply fold_max_ge in H. lia.
Qed.



Lemma select_by_slug_none (db : DB) (slug : string) :
  select_page_by_slug db slug = None <->
  existsb (fun p => String.eqb (Page.Slug p) slug) (pages db) = false.
Proof.
  unfold select_page_by_slug. induction (pages db) as [|p l IH]; cbn; [tauto|].
  destruct (String.eqb (Page.Slug p) slug); cbn; [split; discriminate|exact IH].
Qed.

Lemma select_by_slug_some (db : DB) (slug : string) (p : Page.t) :
  select_page_by_slug db slug = Some p -> In p (pages db) /\ Page.Slug p = slug.
Proof.
  unfold select_page_by_slug. intros H. apply find_some in H.
  destruct H as [Hin E]. apply String.eqb_eq in E. auto.
Qed.

Lemma insert_page_inv (db : DB) (slug title : string) (ph : bool)
    (u p : option Z) (now : Z) (db' : DB) (id : Z) :
  insert_page db slug title ph u p now = Ok (db', id) ->
  select_page_by_slug db slug = None /\
  fk_ok u (users db) = true /\ fk_ok p (page_ids db) = true /\
  id = next_id (page_ids db) /\
  db' = mkDB (users db)
             (pages db ++ [Page.mk id slug title ph u p None now now])
             (revisions db) (pages_fts db).
Proof.
  unfold insert_page.
  destruct (existsb _ (pages db)) eqn:E1; [discriminate|].
  destruct (fk_ok u (users db)); [|discriminate].
  destruct (fk_ok p (page_ids db)); [|discriminate].
  cbn [negb]. intros H. inversion H; subst.
  rewrite select_by_slug_none. auto.
Qed.

Lemma insert_page_run (db : DB) (slug title : string) (ph : bool)
    (u p : option Z) (now : Z) :
  select_page_by_slug db slug = None ->
  fk_ok u (users db) = true -> fk_ok p (page_ids db) = true ->
  insert_page db slug title ph u p now =
  Ok (mkDB (users db)
           (pages db ++ [Page.mk (next_id (page_ids db)) slug title ph u p None now now])
           (revisions db) (pages_fts db),
      next_id (page_ids db)).
Proof.
  intros H1 H2 H3. unfold insert_page. apply select_by_slug_none in H1.
  rewrite H1, H2, H3. reflexivity.
Qed.

Lemma insert_revision_inv (db : DB) (pageID : Z) (content : string)
    (authorID now : Z) (db' : DB) :
  insert_revision db pageID content authorID now = Ok db' ->
  In pageID (page_ids db) /\ In authorID (users db) /\
  db' = mkDB (users db) (pages db)
             (revisions db ++ [Revision.mk (next_id (map Revision.ID (revisions db)))
                                           pageID content authorID now])
             (pages_fts db).
Proof.
  unfold insert_revision.
  destruct (mem_id pageID (page_ids db)) eqn:E1; [|discriminate].
  destruct (mem_id authorID (users db)) eqn:E2; [|discriminate].
  cbn [negb]. intros H. inversion H; subst.
  apply mem_id_In in E1, E2. auto.
Qed.

Lemma insert_fts_inv (db : DB) (rowid : Z) (title content : string) (db' : DB) :
  insert_fts db rowid title content = Ok db' ->
  fts_has db rowid = false /\
  db' = mkDB (users db) (pages db) (revisions db)
             (pages_fts db ++ [Fts.mk rowid title content]).
Proof.
  unfold insert_fts, fts_has.
  destruct (existsb _ (pages_fts db)); [discriminate|].
  intros H. inversion H; subst. auto.
Qed.


Lemma fts_has_delete (db : DB) (id i : Z) :
  fts_has (delete_fts db id) i = fts_has db i && negb (i =? id).
Proof.
  unfold fts_has, delete_fts. cbn [pages_fts].
  induction (pages_fts db) as [|e l IH]; [reflexivity|].
  cbn [filter existsb].
  destruct (Z.eqb_spec (Fts.rowid e) id); cbn [negb existsb]; rewrite IH;
    destruct (Z.eqb_spec (Fts.rowid e) i); destruct (Z.eqb_spec i id);
    cbn; try lia; rewrite ?Bool.andb_false_r, ?Bool.andb_true_r; reflexivity.
Qed.

Lemma NoDup_snoc {A : Type} (l : list A) (x : A) :
  NoDup l -> ~ In x l -> NoDup (l ++ [x]).
Proof.
  induction l as [|y l IH]; intros Hl Hx.
  - cbn. constructor; [intros []|constructor].
  - inversion Hl; subst. cbn. constructor.
    + rewrite in_app_iff. intros [H|[H|[]]]; [contradiction|].
      subst. apply Hx. left. reflexivity.
    + apply IH; [assumption|]. intros H. apply Hx. right. exact H.
Qed.

Lemma page_ids_update (db : DB) (cond : Page.t -> bool) (set : Page.t -> Page.t) :
  (forall p, Page.ID (set p) = Page.ID p) ->
  page_ids (update_pages db cond set) = page_ids db.
Proof.
  intros H. unfold page_ids, update_pages. cbn [pages]. rewrite map_map.
  apply map_ext. intros p. destruct (cond p); [apply H|reflexivity].
Qed.


(** ** The schema's constraints hold in every store the program builds *)








(** ** Lookups by id *)

Lemma find_by_id_NoDup (l : list Page.t) (x : Page.t) :
  NoDup (map Page.ID l) -> In x l ->
  find (fun p => Page.ID p =? Page.ID x) l = Some x.
Proof.
  induction l as [|y l IH]; intros Hnd Hin; [destruct Hin|].
  cbn in Hnd. inversion Hnd; subst. cbn [find].
  destruct Hin as [E|Hin].
  - subst. rewrite Z.eqb_refl. reflexivity.
  - destruct (Z.eqb_spec (Page.ID y) (Page.ID x)) as [E|_].
    + exfalso. apply H1. rewrite E. apply in_map. exact Hin.
    + apply IH; assumption.
Qed.

Lemma find_replace_by_id (l : list Page.t) (id : Z) (set : Page.t -> Page.t) :
  (forall p, Page.ID (set p) = Page.ID p) ->
  find (fun p => Page.ID p =? id) (replace_by_id id set l)
  = option_map set (find (fun p => Page.ID p =? id) l).
Proof.
  intros Hset. unfold replace_by_id. induction l as [|y l IH]; [reflexivity|].
  cbn [map find]. destruct (Z.eqb_spec (Page.ID y) id) as [E|E].
  - rewrite Hset. rewrite E, Z.eqb_refl. reflexivity.
  - destruct (Z.eqb_spec (Page.ID y) id); [contradiction|]. exact IH.
Qed.

Lemma find_snoc_fresh (l : list Page.t) (x : Page.t) :
  ~ In (Page.ID x) (map Page.ID l) ->
  find (fun p => Page.ID p =? Page.ID x) (l ++ [x]) = Some x.
Proof.
  induction l as [|y l IH]; intros H; cbn.
  - rewrite Z.eqb_refl. reflexivity.
  - destruct (Z.eqb_spec (Page.ID y) (Page.ID x)) as [E|_].
    + exfalso. apply H. left. exact E.
    + apply IH. intros Hin. apply H. right. exact Hin.
Qed.


Lemma insert_fts_run (db : DB) (rowid : Z) (title content : string) :
  insert_fts db rowid title content =
  if fts_has db rowid then Err ErrConstraint
  else Ok (mkDB (users db) (pages db) (revisions db)
                (pages_fts db ++ [Fts.mk rowid title content])).
Proof. reflexivity. Qed.








(** ** Phantom creation only adds rows *)

Lemma pages_extend_refl (db : DB) : pages_extend db db.
Proof.
  split; [reflexivity|]. exists []. symmetry. apply app_nil_r.
Qed.

Lemma pages_extend_trans (a b c : DB) :
  pages_extend a b -> pages_extend b c -> pages_extend a c.
Proof.
  intros [Hu1 [x Hx]] [Hu2 [y Hy]]. split; [congruence|].
  exists (x ++ y). rewrite Hy, Hx. symmetry. apply app_assoc.
Qed.

Lemma CreatePhantom_extend (db : DB) (slug title : string) (u p now : Z) :
  pages_extend db (fst (CreatePhantom db slug title u p now)).
Proof.
  unfold CreatePhantom, GetPageBySlug.
  destruct (select_page_by_slug db slug); [apply pages_extend_refl|].
  destruct (insert_page _ _ _ _ _ _ _) as [[db' id]|] eqn:E; [|apply pages_extend_refl].
  apply insert_page_inv in E. destruct E as (_ & _ & _ & _ & ->).
  cbn [fst]. split; [reflexivity|]. eexists. reflexivity.
Qed.

Section HandlerLemmas.

Variable ExtractLinks : string -> list markdown.LinkInfo.

Lemma resolve_target_extend (links : list markdown.LinkInfo) (u p now : Z)
    (db : DB) (target : string) :
  pages_extend db (handler.resolve_target links u p now db target).
Proof.
  unfold handler.resolve_target, PageExists.
  destruct (0 <? _); [apply pages_extend_refl|apply CreatePhantom_extend].
Qed.

Lemma resolve_fold_extend (links : list markdown.LinkInfo) (u p now : Z)
    (targets : list string) :
  forall db, pages_extend db (fold_left (handler.resolve_target links u p now) targets db).
Proof.
  induction targets as [|t ts IH]; intros db; [apply pages_extend_refl|].
  cbn [fold_left]. eapply pages_extend_trans; [apply resolve_target_extend|apply IH].
Qed.

Lemma processWikiLinks_extend (db : DB) (content : string) (u p now : Z) :
  pages_extend db (handler.processWikiLinks ExtractLinks db content u p now).
Proof.
  unfold handler.processWikiLinks. apply resolve_fold_extend.
Qed.

End HandlerLemmas.

(** ** Link targets and their resolution *)

Lemma seen_target_In (seen : list string) (t : string) :
  markdown.seen_target seen t = true <-> In t seen.
Proof.
  unfold markdown.seen_target. rewrite existsb_exists. split.
  - intros (x & Hx & E). apply String.eqb_eq in E. subst. exact Hx.
  - intros H. exists t. split; [exact H|apply String.eqb_refl].
Qed.

Lemma UniqueTargets_from_In (links : list markdown.LinkInfo) :
  forall seen t,
    In t (markdown.UniqueTargets_from seen links) <->
    (exists l, In l links /\ markdown.Target l = t) /\ ~ In t seen.
Proof.
  induction links as [|l links IH]; intros seen t; cbn [markdown.UniqueTargets_from].
  - split; [intros []|intros [(x & [] & _) _]].
  - destruct (markdown.seen_target seen (markdown.Target l)) eqn:E; cbn [negb].
    + rewrite IH. apply seen_target_In in E. split.
      * intros [(x & Hx & Ex) Hn]. split; [|exact Hn]. exists x. split; [right|]; assumption.
      * intros [(x & [Hx|Hx] & Ex) Hn]; split; try exact Hn.
        -- subst. contradiction.
        -- exists x. split; assumption.
    + assert (Hn : ~ In (markdown.Target l) seen).
      { intros H. apply seen_target_In in H. congruence. }
      cbn [In]. rewrite IH. split.
      * intros [Et|[(x & Hx & Ex) Hs]].
        -- subst t. split; [|exact Hn]. exists l. split; [left|]; reflexivity.
        -- split; [exists x; split; [right|]; assumption|].
           intros H. apply Hs. right. exact H.
      * intros [(x & [Hx|Hx] & Ex) Hs].
        -- subst. left. reflexivity.
        -- destruct (string_dec (markdown.Target l) t) as [Et|Et]; [left; exact Et|].
           right. split; [exists x; split; assumption|].
           intros [H|H]; [contradiction|contradiction].
Qed.

Lemma UniqueTargets_from_NoDup (links : list markdown.LinkInfo) :
  forall seen, NoDup (markdown.UniqueTargets_from seen links).
Proof.
  induction links as [|l links IH]; intros seen; cbn [markdown.UniqueTargets_from].
  - constructor.
  - destruct (markdown.seen_target seen (markdown.Target l)); cbn [negb]; [apply IH|].
    constructor; [|apply IH].
    rewrite UniqueTargets_from_In. intros [_ H]. apply H. left. reflexivity.
Qed.

Lemma find_display_first (before after : list markdown.LinkInfo) (link : markdown.LinkInfo) :
  (forall l, In l before -> markdown.Target l <> markdown.Target link) ->
  handler.find_display (before ++ link :: after) (markdown.Target link)
  = markdown.DisplayText link.
Proof.
  induction before as [|b before IH]; intros H; cbn.
  - rewrite String.eqb_refl. reflexivity.
  - destruct (String.eqb_spec (markdown.Target b) (markdown.Target link)) as [E|_].
    + exfalso. apply (H b); [left; reflexivity|exact E].
    + apply IH. intros l Hl. apply H. right. exact Hl.
Qed.

Lemma select_by_slug_extend (db db' : DB) (slug : string) (q : Page.t) :
  pages_extend db db' ->
  select_page_by_slug db slug = Some q -> select_page_by_slug db' slug = Some q.
Proof.
  intros [_ [added Ha]]. unfold select_page_by_slug. rewrite Ha. clear Ha.
  induction (pages db) as [|p l IH]; cbn; [discriminate|].
  destruct (String.eqb (Page.Slug p) slug); [tauto|exact IH].
Qed.

Lemma select_by_slug_snoc (l : list Page.t) (users0 : list Z) (r : list Revision.t)
    (f : list Fts.t) (ph : Page.t) (slug : string) :
  find (fun p => String.eqb (Page.Slug p) slug) l = None ->
  select_page_by_slug (mkDB users0 (l ++ [ph]) r f) slug
  = if String.eqb (Page.Slug ph) slug then Some ph else None.
Proof.
  unfold select_page_by_slug. cbn [pages]. intros H.
  induction l as [|p l IH]; cbn in *; [reflexivity|].
  destruct (String.eqb (Page.Slug p) slug); [discriminate|]. apply IH, H.
Qed.

(** A second call for the same slug, whatever title and citation it
    carries, returns the row of the first call and writes nothing. *)
Lemma CreatePhantom_again (db : DB) (slug title : string) (u p now : Z)
    (page : Page.t) (title2 : string) (u2 p2 now2 : Z) :
  snd (CreatePhantom db slug title u p now) = Ok page ->
  CreatePhantom (fst (CreatePhantom db slug title u p now)) slug title2 u2 p2 now2
  = (fst (CreatePhantom db slug title u p now), Ok page).
Proof.
  destruct (CreatePhantom db slug title u p now) as [db1 r1] eqn:E1.
  cbn [fst snd]. intros ->.
  unfold CreatePhantom, GetPageBySlug in E1.
  destruct (select_page_by_slug db slug) as [existing|] eqn:Es.
  - inversion E1; subst.
    unfold CreatePhantom, GetPageBySlug. rewrite Es. reflexivity.
  - destruct (insert_page _ _ _ _ _ _ _) as [[db' id]|] eqn:E; [|discriminate].
    apply insert_page_inv in E. destruct E as (_ & _ & _ & Hid & ->).
    set (new := Page.mk id slug title true (Some u) (Some p) None now now) in *.
    assert (F : GetPageByID
                  (mkDB (users db) (pages db ++ [new]) (revisions db) (pages_fts db)) id
                = Ok new).
    { unfold GetPageByID, select_page_by_id. cbn [pages].
      assert (F : find (fun q => Page.ID q =? id) (pages db ++ [new]) = Some new).
      { apply (find_snoc_fresh (pages db) new). cbn [Page.ID new]. rewrite Hid.
        apply next_id_fresh. }
      rewrite F. reflexivity. }
    rewrite F in E1. inversion E1; subst db1 page.
    unfold CreatePhantom, GetPageBySlug.
    rewrite select_by_slug_snoc by exact Es.
    cbn [Page.Slug new]. rewrite String.eqb_refl. reflexivity.
Qed.

Lemma PageExists_absent (db : DB) (slug : string) :
  select_page_by_slug db slug = None -> PageExists db slug = Ok false.
Proof.
  unfold PageExists, select_page_by_slug. intros H.
  assert (E : filter (fun p => String.eqb (Page.Slug p) slug) (pages db) = []).
  { induction (pages db) as [|p l IH]; cbn in *; [reflexivity|].
    destruct (String.eqb (Page.Slug p) slug); [discriminate|]. apply IH, H. }
  rewrite E. reflexivity.
Qed.

(** One iteration either leaves the store alone or appends one phantom
    row for the target. *)
Lemma resolve_target_cases (links : list markdown.LinkInfo) (u p now : Z)
    (db : DB) (target : string) :
  handler.resolve_target links u p now db target = db \/
  exists id,
    handler.resolve_target links u p now db target
    = mkDB (users db)
           (pages db ++ [Page.mk id target (handler.find_display links target) true
                                 (Some u) (Some p) None now now])
           (revisions db) (pages_fts db).
Proof.
  unfold handler.resolve_target, PageExists.
  destruct (0 <? _); [left; reflexivity|].
  unfold CreatePhantom, GetPageBySlug.
  destruct (select_page_by_slug db target); [left; reflexivity|].
  destruct (insert_page _ _ _ _ _ _ _) as [[db' id]|] eqn:E; [|left; reflexivity].
  apply insert_page_inv in E. destruct E as (_ & _ & _ & _ & ->).
  right. exists id. reflexivity.
Qed.

Lemma resolve_target_creates (links : list markdown.LinkInfo) (u p now : Z)
    (db : DB) (target : string) :
  select_page_by_slug db target = None ->
  In u (users db) -> In p (page_ids db) ->
  handler.resolve_target links u p now db target
  = mkDB (users db)
         (pages db ++ [Page.mk (next_id (page_ids db)) target
                               (handler.find_display links target) true
                               (Some u) (Some p) None now now])
         (revisions db) (pages_fts db).
Proof.
  intros Hs Hu Hp. unfold handler.resolve_target.
  rewrite (PageExists_absent db target Hs).
  unfold CreatePhantom, GetPageBySlug. rewrite Hs.
  rewrite insert_page_run; [reflexivity|exact Hs| |].
  - cbn. apply mem_id_In, Hu.
  - cbn. apply mem_id_In, Hp.
Qed.

Lemma resolve_fold_creates (links : list markdown.LinkInfo) (u p now : Z)
    (targets : list string) (t : string) :
  forall db,
    NoDup targets -> In t targets ->
    select_page_by_slug db t = None ->
    In u (users db) -> In p (page_ids db) ->
    exists id,
      select_page_by_slug (fold_left (handler.resolve_target links u p now) targets db) t
      = Some (Page.mk id t (handler.find_display links t) true
                      (Some u) (Some p) None now now).
Proof.
  induction targets as [|t0 ts IH]; intros db Hnd Hin Hs Hu Hp; [destruct Hin|].
  inversion Hnd; subst. cbn [fold_left].
  destruct (string_dec t0 t) as [E|E].
  - subst t0. rewrite (resolve_target_creates links u p now db t Hs Hu Hp).
    eexists. eapply select_by_slug_extend; [apply resolve_fold_extend|].
    rewrite select_by_slug_snoc by exact Hs.
    cbn [Page.Slug]. rewrite String.eqb_refl. reflexivity.
  - destruct Hin as [Hin|Hin]; [contradiction|].
    pose proof (resolve_target_extend links u p now db t0) as [Hus [added Hadd]].
    apply IH; try assumption.
    + destruct (resolve_target_cases links u p now db t0) as [->|[id ->]]; [exact Hs|].
      rewrite select_by_slug_snoc by exact Hs.
      cbn [Page.Slug]. destruct (String.eqb_spec t0 t); [contradiction|reflexivity].
    + rewrite Hus. exact Hu.
    + unfold page_ids in *. rewrite Hadd, map_app. apply in_or_app. left. exact Hp.
Qed.

(** ** Ids and slugs of rows never change *)

Lemma keys_extend_refl (db : DB) : keys_extend db db.
Proof. exists []. symmetry. apply app_nil_r. Qed.

Lemma keys_extend_trans (a b c : DB) :
  keys_extend a b -> keys_extend b c -> keys_extend a c.
Proof.
  intros [x Hx] [y Hy]. exists (x ++ y). rewrite Hy, Hx. symmetry. apply app_assoc.
Qed.

Lemma keys_extend_same (db db' : DB) : pages db' = pages db -> keys_extend db db'.
Proof. intros H. exists []. rewrite H. symmetry. apply app_nil_r. Qed.

Lemma keys_extend_pages (db db' : DB) : pages_extend db db' -> keys_extend db db'.
Proof.
  intros [_ [added H]]. exists (map page_key added). rewrite H. apply map_app.
Qed.

Lemma keys_extend_update (db : DB) (cond : Page.t -> bool) (set : Page.t -> Page.t) :
  (forall p, page_key (set p) = page_key p) ->
  keys_extend db (update_pages db cond set).
Proof.
  intros H. exists []. rewrite app_nil_r. unfold update_pages. cbn [pages].
  rewrite map_map. apply map_ext. intros p. destruct (cond p); [apply H|reflexivity].
Qed.

Lemma old_key_update (db : DB) (cond : Page.t -> bool) (set : Page.t -> Page.t)
    (q : Page.t) :
  (forall p, page_key (set p) = page_key p) ->
  In q (pages (update_pages db cond set)) -> old_key db q.
Proof.
  intros H Hq. unfold update_pages in Hq. cbn [pages] in Hq.
  apply in_map_iff in Hq. destruct Hq as (q0 & E & Hin).
  exists q0. split; [exact Hin|]. subst q. destruct (cond q0); [symmetry; apply H|reflexivity].
Qed.

Lemma old_key_In (db : DB) (q : Page.t) : In q (pages db) -> old_key db q.
Proof. intros H. exists q. split; [exact H|reflexivity]. Qed.

Lemma old_key_keys_extend (a b : DB) (q : Page.t) :
  keys_extend a b -> old_key a q -> old_key b q.
Proof.
  intros [added H] (q0 & Hin & E).
  assert (Hk : In (page_key q0) (map page_key (pages b))).
  { rewrite H. apply in_or_app. left. apply in_map, Hin. }
  apply in_map_iff in Hk. destruct Hk as (q1 & E1 & H1).
  exists q1. split; [exact H1|congruence].
Qed.

(** The rows after [CreatePage_tx]: old ones, or one with the slug
    given. *)
Lemma CreatePage_tx_rows (db : DB) (slug title content : string) (authorID now : Z)
    (db' : DB) (id : Z) :
  CreatePage_tx db slug title content authorID now = Ok (db', id) ->
  keys_extend db db' /\
  (forall q, In q (pages db') -> old_key db q \/ Page.Slug q = slug).
Proof.
  unfold CreatePage_tx. intros E.
  assert (H1 : exists tx1 id1,
             (keys_extend db tx1 /\
              forall q, In q (pages tx1) -> old_key db q \/ Page.Slug q = slug) /\
             (tx2 <- insert_revision tx1 id1 content authorID now ;;
              tx3 <- insert_fts tx2 id1 title content ;; Ok (tx3, id1)) = Ok (db', id)).
  { destruct (select_page_by_slug db slug) as [existing|].
    - destruct (Page.IsPhantom existing); [|discriminate].
      cbn [bind] in E. eexists _, _. split; [|exact E]. split.
      + apply keys_extend_update. reflexivity.
      + intros q Hq. left. eapply old_key_update; [|exact Hq]. reflexivity.
    - destruct (insert_page _ _ _ _ _ _ _) as [[tx1 id1]|] eqn:E1; [|discriminate].
      cbn [bind] in E. exists tx1, id1. split; [|exact E].
      apply insert_page_inv in E1. destruct E1 as (_ & _ & _ & _ & ->). split.
      + exists [page_key (Page.mk id1 slug title false None None None now now)].
        cbn [pages]. apply map_app.
      + cbn [pages]. intros q Hq. apply in_app_or in Hq.
        destruct Hq as [Hq|[Hq|[]]]; [left; apply old_key_In, Hq|].
        subst q. right. reflexivity. }
  destruct H1 as (tx1 & id1 & [Hk Hrows] & E').
  destruct (insert_revision _ _ _ _ _) as [tx2|] eqn:E2; [|discriminate].
  cbn [bind] in E'.
  destruct (insert_fts _ _ _ _) as [tx3|] eqn:E3; [|discriminate].
  cbn [bind] in E'. inversion E'; subst.
  apply insert_fts_inv in E3. destruct E3 as [_ ->].
  apply insert_revision_inv in E2. destruct E2 as (_ & _ & ->).
  cbn [pages]. split; [|exact Hrows].
  destruct Hk as [added Hk]. exists added. exact Hk.
Qed.

Lemma CreatePage_rows (db : DB) (slug title content : string) (authorID now : Z) :
  keys_extend db (fst (CreatePage db slug title content authorID now)) /\
  (forall q, In q (pages (fst (CreatePage db slug title content authorID now))) ->
             old_key db q \/ Page.Slug q = slug).
Proof.
  unfold CreatePage.
  destruct (CreatePage_tx db slug title content authorID now) as [[db' id]|e] eqn:E.
  - cbn [fst]. eapply CreatePage_tx_rows, E.
  - cbn [fst]. split; [apply keys_extend_refl|]. intros q Hq. left. apply old_key_In, Hq.
Qed.

Lemma UpdatePage_rows (db : DB) (pageID : Z) (title content : string) (authorID now : Z) :
  keys_extend db (fst (UpdatePage db pageID title content authorID now)) /\
  (forall q, In q (pages (fst (UpdatePage db pageID title content authorID now))) ->
             old_key db q).
Proof.
  unfold UpdatePage.
  destruct (UpdatePage_tx db pageID title content authorID now) as [db'|e] eqn:E.
  - cbn [fst]. unfold UpdatePage_tx in E.
    destruct (insert_revision _ _ _ _ _) as [tx2|] eqn:E2; [|discriminate].
    cbn [bind] in E.
    apply insert_fts_inv in E. destruct E as [_ ->].
    apply insert_revision_inv in E2. destruct E2 as (_ & _ & ->).
    cbn [pages delete_fts]. split.
    + apply (keys_extend_update db _ _). reflexivity.
    + intros q Hq. eapply old_key_update; [|exact Hq]. reflexivity.
  - cbn [fst]. split; [apply keys_extend_refl|]. intros q Hq. apply old_key_In, Hq.
Qed.

Lemma SoftDeletePage_keys (db : DB) (pageID now : Z) :
  keys_extend db (fst (SoftDeletePage db pageID now)).
Proof.
  unfold SoftDeletePage.
  destruct (rows_affected db _ =? 0); cbn [fst delete_fts];
    apply (keys_extend_update db _ _); reflexivity.
Qed.

Lemma RestorePage_keys (tie : Revision.t -> Revision.t -> bool) (db : DB) (pageID now : Z) :
  keys_extend db (fst (RestorePage tie db pageID now)).
Proof.
  unfold RestorePage.
  destruct (select_restore_row tie db pageID) as [[title content]|];
    [|apply keys_extend_refl].
  destruct (insert_fts _ _ _ _) as [db'|] eqn:E; cbn [fst].
  - apply insert_fts_inv in E. destruct E as [_ ->].
    apply (keys_extend_update db _ _). reflexivity.
  - apply (keys_extend_update db _ _). reflexivity.
Qed.

Lemma exec_keys (tie : Revision.t -> Revision.t -> bool) (db : DB) (o : op) :
  keys_extend db (exec tie db o).
Proof.
  destruct o; cbn [exec].
  - apply CreatePage_rows.
  - apply UpdatePage_rows.
  - apply keys_extend_pages, CreatePhantom_extend.
  - apply SoftDeletePage_keys.
  - apply RestorePage_keys.
Qed.

(** The rows that link resolution adds are phantoms whose slug is one of
    the targets. *)
Lemma resolve_fold_rows (links : list markdown.LinkInfo) (u p now : Z)
    (targets : list string) :
  forall db q,
    In q (pages (fold_left (handler.resolve_target links u p now) targets db)) ->
    In q (pages db) \/ (Page.IsPhantom q = true /\ In (Page.Slug q) targets).
Proof.
  induction targets as [|t ts IH]; intros db q Hq; [left; exact Hq|].
  cbn [fold_left] in Hq. apply IH in Hq. destruct Hq as [Hq|[Hph Hin]].
  - destruct (resolve_target_cases links u p now db t) as [E|[id E]];
      rewrite E in Hq; [left; exact Hq|].
    cbn [pages] in Hq. apply in_app_or in Hq.
    destruct Hq as [Hq|[Hq|[]]]; [left; exact Hq|].
    subst q. right. split; [reflexivity|left; reflexivity].
  - right. split; [exact Hph|right; exact Hin].
Qed.

Lemma Parse_target_fixed (U : UnicodeLib) (line : string) (wl : wikilink.WikiLink) :
  ascii_exact U -> wikilink.Parse U line = Some wl ->
  Slugify U (wikilink.Target wl) = wikilink.Target wl.
Proof.
  intros HU H. apply Parse_sound in H.
  destruct H as (content & rest & title & display & _ & _ & _ & _ & _ & ->).
  cbn [wikilink.Target]. apply Slugify_fixed; [exact HU|apply Slugify_shape].
Qed.

Lemma processWikiLinks_rows (U : UnicodeLib)
    (ExtractLinks : string -> list markdown.LinkInfo)
    (db : DB) (content : string) (u p now : Z) (q : Page.t) :
  ascii_exact U -> links_from_Parse U ExtractLinks ->
  In q (pages (handler.processWikiLinks ExtractLinks db content u p now)) ->
  In q (pages db) \/ (Page.IsPhantom q = true /\ Slugify U (Page.Slug q) = Page.Slug q).
Proof.
  intros HU HE Hq. unfold handler.processWikiLinks in Hq.
  apply resolve_fold_rows in Hq. destruct Hq as [Hq|[Hph Hin]]; [left; exact Hq|].
  right. split; [exact Hph|].
  unfold markdown.UniqueTargets in Hin. apply UniqueTargets_from_In in Hin.
  destruct Hin as [(l & Hl & E) _].
  destruct (HE content l Hl) as (line & wl & Hparse & ->).
  rewrite <- E. cbn [markdown.link_of_node markdown.Target].
  eapply Parse_target_fixed; eassumption.
Qed.

Lemma ExtractLinks_head_from_Parse (U : UnicodeLib) :
  links_from_Parse U (ExtractLinks_head U).
Proof.
  intros content link H. unfold ExtractLinks_head in H.
  destruct (wikilink.Parse U content) as [wl|] eqn:E; [|destruct H].
  destruct H as [H|[]]. exists content, wl. split; [exact E|symmetry; exact H].
Qed.

Section SavePageLemmas.

Variable U : UnicodeLib.
Variable ExtractLinks : string -> list markdown.LinkInfo.
Hypothesis HU : ascii_exact U.
Hypothesis HE : links_from_Parse U ExtractLinks.

Lemma save_rows_after_links (db db1 : DB) (slug content : string) (u p now : Z) :
  keys_extend db db1 ->
  (forall q, In q (pages db1) -> old_key db q \/ Page.Slug q = slug) ->
  keys_extend db (handler.processWikiLinks ExtractLinks db1 content u p now) /\
  (forall q,
      In q (pages (handler.processWikiLinks ExtractLinks db1 content u p now)) ->
      old_key db q \/ Page.Slug q = slug \/
      (Page.IsPhantom q = true /\ Slugify U (Page.Slug q) = Page.Slug q)).
Proof.
  intros Hk Hrows. split.
  - eapply keys_extend_trans; [exact Hk|].
    apply keys_extend_pages, processWikiLinks_extend.
  - intros q Hq. apply (processWikiLinks_rows U) in Hq; [|exact HU|exact HE].
    destruct Hq as [Hq|Hq]; [|right; right; exact Hq].
    destruct (Hrows q Hq) as [H|H]; [left; exact H|right; left; exact H].
Qed.

Lemma SavePage_rows (db : DB) (slug : string) (userID : Z) (title content : string)
    (now : Z) :
  keys_extend db (fst (handler.SavePage ExtractLinks db slug userID title content now)) /\
  (forall q,
      In q (pages (fst (handler.SavePage ExtractLinks db slug userID title content now))) ->
      old_key db q \/ Page.Slug q = slug \/
      (Page.IsPhantom q = true /\ Slugify U (Page.Slug q) = Page.Slug q)).
Proof.
  assert (Hsame : keys_extend db db /\
                  (forall q, In q (pages db) ->
                             old_key db q \/ Page.Slug q = slug \/
                             (Page.IsPhantom q = true /\
                              Slugify U (Page.Slug q) = Page.Slug q))).
  { split; [apply keys_extend_refl|]. intros q Hq. left. apply old_key_In, Hq. }
  assert (Hcreate :
    let out := match CreatePage db slug title content userID now with
               | (db', Err _) => (db', handler.Flash "danger" "Failed to create page")
               | (db', Ok page) =>
                 (handler.processWikiLinks ExtractLinks db' content userID
                    (Page.ID page) now,
                  handler.Flash "success" "Page saved")
               end in
    keys_extend db (fst out) /\
    (forall q, In q (pages (fst out)) ->
               old_key db q \/ Page.Slug q = slug \/
               (Page.IsPhantom q = true /\ Slugify U (Page.Slug q) = Page.Slug q))).
  { cbv zeta. pose proof (CreatePage_rows db slug title content userID now) as [Hk Hr].
    destruct (CreatePage db slug title content userID now) as [db' [page|e]];
      cbn [fst] in *.
    - apply save_rows_after_links; assumption.
    - split; [exact Hk|]. intros q Hq.
      destruct (Hr q Hq) as [H|H]; [left; exact H|right; left; exact H]. }
  unfold handler.SavePage.
  destruct (String.eqb title ""); [exact Hsame|].
  destruct (500 <? len title); [exact Hsame|].
  destruct (500 * 1024 <? len content); [exact Hsame|].
  destruct (GetPageBySlug db slug) as [page|e].
  - destruct (Page.IsPhantom page); [exact Hcreate|].
    pose proof (UpdatePage_rows db (Page.ID page) title content userID now) as [Hk Hr].
    destruct (UpdatePage db (Page.ID page) title content userID now) as [db' [[]|e]];
      cbn [fst] in *.
    + apply save_rows_after_links; [exact Hk|]. intros q Hq. left. apply Hr, Hq.
    + split; [exact Hk|]. intros q Hq. left. apply Hr, Hq.
  - destruct e; [exact Hcreate|exact Hsame|exact Hsame].
Qed.

End SavePageLemmas.

(** ** The shape of the store after a committed transaction *)

Lemma CreatePage_tx_shape (db : DB) (slug title content : string) (authorID now : Z)
    (db' : DB) (id : Z) :
  CreatePage_tx db slug title content authorID now = Ok (db', id) ->
  fts_has db id = false /\
  users db' = users db /\
  revisions db' = revisions db ++ [new_revision db id content authorID now] /\
  pages_fts db' = pages_fts db ++ [Fts.mk id title content] /\
  ((exists existing,
       In existing (pages db) /\ Page.ID existing = id /\
       pages db' = replace_by_id id (fun p => converted p title now) (pages db)) \/
   pages db' = pages db ++ [Page.mk id slug title false None None None now now]).
Proof.
  unfold CreatePage_tx. intros E.
  assert (H1 : exists tx1,
             users tx1 = users db /\ revisions tx1 = revisions db /\
             pages_fts tx1 = pages_fts db /\
             ((exists existing,
                  In existing (pages db) /\ Page.ID existing = id /\
                  pages tx1 = replace_by_id id (fun p => converted p title now) (pages db)) \/
              pages tx1 = pages db ++ [Page.mk id slug title false None None None now now]) /\
             (tx2 <- insert_revision tx1 id content authorID now ;;
              tx3 <- insert_fts tx2 id title content ;; Ok (tx3, id)) = Ok (db', id)).
  { destruct (select_page_by_slug db slug) as [existing|] eqn:Es.
    - destruct (Page.IsPhantom existing); [|discriminate].
      cbn [bind] in E.
      assert (Eid : Page.ID existing = id).
      { destruct (insert_revision _ _ _ _ _); [|discriminate]. cbn [bind] in E.
        destruct (insert_fts _ _ _ _); [|discriminate]. cbn [bind] in E.
        inversion E. reflexivity. }
      rewrite Eid in E.
      exists (update_pages db (fun p => Page.ID p =? id) (fun p => converted p title now)).
      repeat split; [|exact E].
      left. exists existing. apply select_by_slug_some in Es.
      split; [apply Es|]. split; [exact Eid|reflexivity].
    - destruct (insert_page _ _ _ _ _ _ _) as [[tx1 id1]|] eqn:E1; [|discriminate].
      cbn [bind] in E.
      assert (Eid : id1 = id).
      { destruct (insert_revision _ _ _ _ _); [|discriminate]. cbn [bind] in E.
        destruct (insert_fts _ _ _ _); [|discriminate]. cbn [bind] in E.
        inversion E. reflexivity. }
      subst id1. exists tx1.
      apply insert_page_inv in E1. destruct E1 as (_ & _ & _ & _ & ->).
      repeat split; [|exact E]. right. reflexivity. }
  destruct H1 as (tx1 & Hu & Hr & Hf & Hp & E').
  destruct (insert_revision _ _ _ _ _) as [tx2|] eqn:E2; [|discriminate].
  cbn [bind] in E'.
  destruct (insert_fts _ _ _ _) as [tx3|] eqn:E3; [|discriminate].
  cbn [bind] in E'. inversion E'; subst.
  apply insert_fts_inv in E3. destruct E3 as [Hn ->].
  apply insert_revision_inv in E2. destruct E2 as (_ & _ & ->).
  cbn [users pages revisions pages_fts]. unfold fts_has in *. cbn [pages_fts] in Hn.
  rewrite Hf in Hn. unfold new_revision. rewrite Hr, Hf. repeat split; assumption.
Qed.


Lemma In_replace_by_id (id : Z) (set : Page.t -> Page.t) (l : list Page.t) (q : Page.t) :
  In q (replace_by_id id set l) ->
  exists p, In p l /\ ((Page.ID p = id /\ q = set p) \/ (Page.ID p <> id /\ q = p)).
Proof.
  unfold replace_by_id. intros H. apply in_map_iff in H. destruct H as (p & E & Hp).
  exists p. split; [exact Hp|].
  destruct (Z.eqb_spec (Page.ID p) id); [left|right]; auto.
Qed.




(** ** The index follows the page rows *)









(** ** The index follows the revisions *)















(** ** Transactions are all or nothing *)



(** * The claims of the specification *)

(** C9.  [Slugify] is idempotent on every title: slugifying a slug gives
    the same slug.  It is a total function, and its result always has the
    slug shape (bytes from [a-z0-9-], single hyphens, none at the ends),
    the empty string included. *)
Theorem Slugify_idempotent (U : UnicodeLib) (HU : ascii_exact U) :
  forall t : string,
    Slugify U (Slugify U t) = Slugify U t /\ slug_shaped (Slugify U t).
Proof.
  intros t. split.
  - apply Slugify_fixed; [exact HU|apply Slugify_shape].
  - apply Slugify_shape.
Qed.

Lemma Slugify_idempotent_witness :
  Slugify AsciiLib (Slugify AsciiLib "  Multiple   Spaces_and-Hyphens ")
  = Slugify AsciiLib "  Multiple   Spaces_and-Hyphens ".
Proof.
  exact (proj1 (Slugify_idempotent AsciiLib AsciiLib_exact
                  "  Multiple   Spaces_and-Hyphens ")).
Defined.



(** C8, as amended.  [GetCurrentRevision] returns a revision of the page
    (with a known author) that no other one exceeds in [CreatedAt], and
    [ErrNotFound] exactly when there is none.  A revision strictly newer
    than all others is returned whatever the engine does; between
    revisions of equal [CreatedAt] the query names no order. *)
Theorem GetCurrentRevision_latest (tie : Revision.t -> Revision.t -> bool)
    (db : DB) (pageID : Z) :
  match GetCurrentRevision tie db pageID with
  | Ok rev => is_latest (revisions_of db pageID) rev
  | Err e => e = ErrNotFound /\ revisions_of db pageID = []
  end /\
  (forall r,
      In r (revisions_of db pageID) ->
      (forall r', In r' (revisions_of db pageID) -> r' <> r ->
                  Revision.CreatedAt r' < Revision.CreatedAt r) ->
      GetCurrentRevision tie db pageID = Ok r).
Proof.
  unfold GetCurrentRevision. split.
  - destruct (latest tie (revisions_of db pageID)) as [r|] eqn:E.
    + apply latest_is_latest in E. exact E.
    + apply latest_none in E. split; [reflexivity|exact E].
  - intros r Hin Hnew. rewrite (latest_unique tie _ r Hin Hnew). reflexivity.
Qed.

(** C8, counterexample.  Two revisions written at the same clock
    reading: an engine that keeps the row it met first returns the one
    with the lower id. *)
Lemma GetCurrentRevision_tie_counterexample :
  let db := run keep_first (empty_db [1])
              [OpCreatePage "a" "A" "first" 1 10; OpUpdatePage 1 "A" "second" 1 10] in
  let r1 := Revision.mk 1 1 "first" 1 10 in
  let r2 := Revision.mk 2 1 "second" 1 10 in
  GetCurrentRevision keep_first db 1 = Ok r1 /\
  In r2 (revisions_of db 1) /\
  ~ is_current (revisions_of db 1) r1.
Proof.
  cbv zeta. split; [reflexivity|]. split; [right; left; reflexivity|].
  intros [_ H].
  specialize (H (Revision.mk 2 1 "second" 1 10) (or_intror (or_introl eq_refl)) eq_refl).
  cbn in H. lia.
Qed.

(** C7, as amended.  The listings and the statistics leave soft-deleted
    pages out, and the admin listing holds exactly the soft-deleted
    ones.  [GetPageBySlug] and [GetPageByID] look at the slug or id only:
    they report [ErrNotFound] exactly when no row matches, so a
    soft-deleted row is returned, with its [DeletedAt] set. *)
Theorem soft_deleted_reads (db : DB) :
  (forall p, is_deleted p = true ->
             ~ In p (ListPages db) /\ ~ In p (ListPhantoms db) /\
             (forall limit, ~ In p (ListRecentPages db limit))) /\
  (forall p, In p (ListDeletedPages db) <-> In p (pages db) /\ is_deleted p = true) /\
  PageStats db = (Z.of_nat (List.length (ListPages db)),
                  Z.of_nat (List.length (ListPhantoms db))) /\
  (forall slug, GetPageBySlug db slug = Err ErrNotFound <->
                forall p, In p (pages db) -> Page.Slug p <> slug) /\
  (forall id, GetPageByID db id = Err ErrNotFound <->
              forall p, In p (pages db) -> Page.ID p <> id).
Proof.
  split; [|split; [|split; [|split]]].
  - intros p Hd. unfold ListPages, ListPhantoms, ListRecentPages.
    repeat split.
    + rewrite In_order_by, filter_In. rewrite Hd, Bool.andb_false_r.
      intros [_ H]; discriminate.
    + rewrite In_order_by, filter_In. rewrite Hd, Bool.andb_false_r.
      intros [_ H]; discriminate.
    + intros limit H. apply In_limit_rows in H.
      rewrite In_order_by, filter_In in H. rewrite Hd, Bool.andb_false_r in H.
      destruct H; discriminate.
  - intros p. unfold ListDeletedPages. rewrite In_order_by, filter_In. tauto.
  - unfold PageStats, ListPages, ListPhantoms. rewrite !length_order_by. reflexivity.
  - intros slug. unfold GetPageBySlug, select_page_by_slug.
    destruct (find _ (pages db)) as [q|] eqn:E.
    + split; [discriminate|]. intros H. apply find_some in E. destruct E as [Hq Hs].
      apply String.eqb_eq in Hs. destruct (H q Hq Hs).
    + split; [|reflexivity]. intros _ p Hp Hs.
      pose proof (find_none _ _ E p Hp) as Hn. cbn in Hn.
      apply String.eqb_neq in Hn. contradiction.
  - intros id. unfold GetPageByID, select_page_by_id.
    destruct (find _ (pages db)) as [q|] eqn:E.
    + split; [discriminate|]. intros H. apply find_some in E. destruct E as [Hq Hs].
      apply Z.eqb_eq in Hs. destruct (H q Hq Hs).
    + split; [|reflexivity]. intros _ p Hp Hs.
      pose proof (find_none _ _ E p Hp) as Hn. cbn in Hn.
      apply Z.eqb_neq in Hn. contradiction.
Qed.

(** C7, counterexample.  A page that has been soft-deleted is still
    returned by both lookups. *)
Lemma soft_deleted_lookup_counterexample :
  let db := run keep_first (empty_db [1])
              [OpCreatePage "a" "A" "x" 1 10; OpSoftDeletePage 1 20] in
  let p := Page.mk 1 "a" "A" false None None (Some 20) 10 20 in
  In p (pages db) /\ is_deleted p = true /\
  GetPageBySlug db "a" = Ok p /\ GetPageByID db 1 = Ok p.
Proof.
  cbv zeta. split; [left; reflexivity|]. repeat split.
Qed.



(** C3.  [CreatePhantom] on a slug that already has a row, real or
    phantom, returns that row as it is and leaves the store untouched;
    so a second call for a slug returns the row of the first, whatever
    title and citation it carries.  In general [CreatePhantom], and with it the resolution of the links
    of a saved text, only adds rows: every row that was there stays in
    place with all its fields, the provenance fields included. *)
Theorem CreatePhantom_idempotent (db : DB) (slug title : string)
    (citedByUserID citedInPageID now : Z) :
  (forall existing,
      select_page_by_slug db slug = Some existing ->
      CreatePhantom db slug title citedByUserID citedInPageID now = (db, Ok existing)) /\
  (forall page title2 citedByUserID2 citedInPageID2 now2,
      snd (CreatePhantom db slug title citedByUserID citedInPageID now) = Ok page ->
      CreatePhantom (fst (CreatePhantom db slug title citedByUserID citedInPageID now))
                    slug title2 citedByUserID2 citedInPageID2 now2
      = (fst (CreatePhantom db slug title citedByUserID citedInPageID now), Ok page)) /\
  pages_extend db (fst (CreatePhantom db slug title citedByUserID citedInPageID now)) /\
  (forall ExtractLinks content,
      pages_extend db
        (handler.processWikiLinks ExtractLinks db content citedByUserID citedInPageID now)).
Proof.
  split; [|split; [|split]].
  - intros existing H. unfold CreatePhantom, GetPageBySlug. rewrite H. reflexivity.
  - intros page title2 u2 p2 now2 H. apply CreatePhantom_again, H.
  - apply CreatePhantom_extend.
  - intros ExtractLinks content. apply processWikiLinks_extend.
Qed.

(** C6, as amended.  [RestorePage] answers [ErrNotFound] exactly when no
    soft-deleted row has the id.  Otherwise it succeeds: the row's
    [DeletedAt] is cleared, and when the index has no row under the id
    one is added with the page's title and the content of a latest
    revision, or the empty string when the page has no revision; when
    the index already has a row the insert fails and is ignored. *)
Theorem RestorePage_cases (tie : Revision.t -> Revision.t -> bool)
    (db : DB) (pageID now : Z) :
  let out := RestorePage tie db pageID now in
  match find (fun p => (Page.ID p =? pageID) && is_deleted p) (pages db) with
  | None => out = (db, Err ErrNotFound)
  | Some p =>
    snd out = Ok tt /\
    users (fst out) = users db /\
    revisions (fst out) = revisions db /\
    pages (fst out)
      = replace_by_id pageID
          (fun q => Page.mk (Page.ID q) (Page.Slug q) (Page.Title q) (Page.IsPhantom q)
                      (Page.FirstCitedByUserID q) (Page.FirstCitedInPageID q)
                      None (Page.CreatedAt q) now)
          (pages db) /\
    if fts_has db pageID then pages_fts (fst out) = pages_fts db
    else
      exists content,
        pages_fts (fst out) = pages_fts db ++ [Fts.mk pageID (Page.Title p) content] /\
        ((revs_of_page db pageID = [] /\ content = "") \/
         (exists r, is_latest (revs_of_page db pageID) r /\ Revision.Content r = content))
  end.
Proof.
  cbv zeta. unfold RestorePage, select_restore_row.
  destruct (find _ (pages db)) as [p|] eqn:F; [|reflexivity].
  apply find_some in F. destruct F as [Hin Hc].
  apply andb_prop in Hc. destruct Hc as [Hid _]. apply Z.eqb_eq in Hid.
  rewrite Hid. fold (revs_of_page db pageID).
  assert (Hrow : exists content,
             match latest tie (revs_of_page db pageID) with
             | Some r => Some (Page.Title p, Revision.Content r)
             | None => Some (Page.Title p, "")
             end = Some (Page.Title p, content) /\
             ((revs_of_page db pageID = [] /\ content = "") \/
              (exists r, is_latest (revs_of_page db pageID) r /\
                         Revision.Content r = content))).
  { destruct (latest tie (revs_of_page db pageID)) as [r|] eqn:E.
    - exists (Revision.Content r). split; [reflexivity|]. right. exists r.
      split; [apply (latest_is_latest tie), E|reflexivity].
    - exists "". split; [reflexivity|]. left. split; [|reflexivity].
      apply (latest_none tie), E. }
  destruct Hrow as (content & -> & Hcontent).
  rewrite insert_fts_run.
  match goal with |- context [update_pages db ?c ?s] => set (db1 := update_pages db c s) end.
  change (fts_has db1 pageID) with (fts_has db pageID).
  destruct (fts_has db pageID); cbn [fst snd].
  - repeat split.
  - repeat split. exists content. split; [reflexivity|exact Hcontent].
Qed.

(** C6, counterexample.  A soft-deleted page without any revision (a
    phantom that an administrator deleted) is restored with success. *)
Lemma RestorePage_no_revision_counterexample :
  let db := run keep_first (empty_db [1])
              [OpCreatePage "a" "A" "x" 1 10; OpCreatePhantom "b" "B" 1 1 11;
               OpSoftDeletePage 2 20] in
  RevisionCount db 2 = 0 /\
  snd (RestorePage keep_first db 2 30) = Ok tt /\
  snd (RestorePage keep_first db 2 30) <> Err ErrNotFound.
Proof.
  cbv zeta. split; [reflexivity|]. split; [reflexivity|]. discriminate.
Qed.

(** C10.  When a saved text cites a target that has no page, the phantom
    created for it is stored under the display text of the first link
    with that target, not under the reference title: the link
    [[Unwritten Topic|see here]] has target [unwritten-topic] and display
    text [see here], and the phantom found under [unwritten-topic] has
    title [see here], cited by the saving user in the saved page.  Later
    citations leave that row as it is. *)
Theorem phantom_title_is_display_text (U : UnicodeLib) (HU : ascii_exact U)
    (ExtractLinks : string -> list markdown.LinkInfo)
    (db : DB) (content : string) (userID pageID now : Z)
    (before after : list markdown.LinkInfo) (link : markdown.LinkInfo)
    (Hlinks : ExtractLinks content = before ++ link :: after)
    (Hfirst : forall l, In l before -> markdown.Target l <> markdown.Target link)
    (Habsent : select_page_by_slug db (markdown.Target link) = None)
    (Huser : In userID (users db))
    (Hpage : In pageID (page_ids db)) :
  let db' := handler.processWikiLinks ExtractLinks db content userID pageID now in
  (exists ph,
      GetPageBySlug db' (markdown.Target link) = Ok ph /\
      Page.Title ph = markdown.DisplayText link /\
      Page.IsPhantom ph = true /\
      Page.FirstCitedByUserID ph = Some userID /\
      Page.FirstCitedInPageID ph = Some pageID /\
      (forall ExtractLinks2 content2 userID2 pageID2 now2,
          GetPageBySlug
            (handler.processWikiLinks ExtractLinks2 db' content2 userID2 pageID2 now2)
            (markdown.Target link) = Ok ph)) /\
  option_map markdown.link_of_node (wikilink.Parse U "[[Unwritten Topic|see here]]")
  = Some (markdown.mkLinkInfo "unwritten-topic" "see here").
Proof.
  cbv zeta. split.
  - unfold handler.processWikiLinks at 1. rewrite Hlinks.
    assert (Hin : In (markdown.Target link)
                     (markdown.UniqueTargets (before ++ link :: after))).
    { unfold markdown.UniqueTargets. rewrite UniqueTargets_from_In. split; [|intros []].
      exists link. split; [|reflexivity]. apply in_or_app. right. left. reflexivity. }
    destruct (resolve_fold_creates (before ++ link :: after) userID pageID now
                (markdown.UniqueTargets (before ++ link :: after))
                (markdown.Target link) db
                (UniqueTargets_from_NoDup _ _) Hin Habsent Huser Hpage) as [id Hsel].
    rewrite (find_display_first before after link Hfirst) in Hsel.
    eexists. split; [unfold GetPageBySlug; rewrite Hsel; reflexivity|].
    repeat split.
    intros EL2 content2 u2 p2 now2. unfold GetPageBySlug.
    unfold handler.processWikiLinks at 2. rewrite Hlinks.
    rewrite (select_by_slug_extend _ _ _ _
               (processWikiLinks_extend EL2 _ content2 u2 p2 now2) Hsel).
    reflexivity.
  - change "[[Unwritten Topic|see here]]"
      with ("[[" ++ ("Unwritten Topic" ++ "|" ++ "see here") ++ "]]" ++ "")%string.
    rewrite (Parse_complete U
               ("Unwritten Topic" ++ "|" ++ "see here")%string ""
               (TrimSpace "Unwritten Topic") (TrimSpace "see here"));
      [|split; reflexivity|apply (split_piped "Unwritten Topic" "see here"); reflexivity].
    change (TrimSpace "Unwritten Topic") with "Unwritten Topic".
    change (TrimSpace "see here") with "see here".
    rewrite (Slugify_ascii U "Unwritten Topic" HU eq_refl).
    reflexivity.
Qed.

Lemma phantom_title_is_display_text_witness :
  let db := run keep_first (empty_db [1])
              [OpCreatePage "home" "Home" "[[Unwritten Topic|see here]]" 1 10] in
  let db' := handler.processWikiLinks (ExtractLinks_head AsciiLib) db
               "[[Unwritten Topic|see here]]" 1 1 11 in
  exists ph,
    GetPageBySlug db' "unwritten-topic" = Ok ph /\
    Page.Title ph = "see here" /\
    Page.IsPhantom ph = true /\
    Page.FirstCitedByUserID ph = Some 1 /\
    Page.FirstCitedInPageID ph = Some 1 /\
    (forall ExtractLinks2 content2 userID2 pageID2 now2,
        GetPageBySlug
          (handler.processWikiLinks ExtractLinks2 db' content2 userID2 pageID2 now2)
          "unwritten-topic" = Ok ph).
Proof.
  cbv zeta.
  exact (proj1 (phantom_title_is_display_text AsciiLib AsciiLib_exact
                  (ExtractLinks_head AsciiLib)
                  (run keep_first (empty_db [1])
                     [OpCreatePage "home" "Home" "[[Unwritten Topic|see here]]" 1 10])
                  "[[Unwritten Topic|see here]]" 1 1 11
                  [] [] (markdown.mkLinkInfo "unwritten-topic" "see here")
                  eq_refl (fun l (H : In l []) => match H with end)
                  eq_refl (or_introl eq_refl) (or_introl eq_refl))).
Defined.

(** What does hold about slugs (in support of C5).  No store operation
    and no save changes the id or the slug of a row that exists: rows
    stay in place and new ones come after them.  A row that a save adds
    is either the page saved, which carries the slug of the request as
    it was given, or a phantom for a link target, whose slug [Slugify]
    leaves unchanged. *)
Theorem slug_set_at_creation (U : UnicodeLib) (HU : ascii_exact U)
    (ExtractLinks : string -> list markdown.LinkInfo)
    (HE : links_from_Parse U ExtractLinks) :
  (forall tie db o, keys_extend db (exec tie db o)) /\
  (forall db slug userID title content now,
      let db' := fst (handler.SavePage ExtractLinks db slug userID title content now) in
      keys_extend db db' /\
      forall q, In q (pages db') ->
                old_key db q \/ Page.Slug q = slug \/
                (Page.IsPhantom q = true /\ Slugify U (Page.Slug q) = Page.Slug q)).
Proof.
  split.
  - intros tie db o. apply exec_keys.
  - intros db slug userID title content now. cbv zeta.
    apply (SavePage_rows U ExtractLinks HU HE).
Qed.

Lemma slug_set_at_creation_witness :
  let db := empty_db [1] in
  let db' := fst (handler.SavePage (ExtractLinks_head AsciiLib) db
                    "home" 1 "Home" "[[Unwritten Topic]]" 10) in
  keys_extend db db' /\
  forall q, In q (pages db') ->
            old_key db q \/ Page.Slug q = "home" \/
            (Page.IsPhantom q = true /\ Slugify AsciiLib (Page.Slug q) = Page.Slug q).
Proof.
  cbv zeta.
  exact (proj2 (slug_set_at_creation AsciiLib AsciiLib_exact
                  (ExtractLinks_head AsciiLib) (ExtractLinks_head_from_Parse AsciiLib))
               (empty_db [1]) "home" 1 "Home" "[[Unwritten Topic]]" 10).
Defined.

(** C5.  The claim fails on the save path: [SavePage] checks the title
    and the length of title and content, but hands the slug of the
    request to [CreatePage] as it is.  Saving under the URL slug
    [Hello_World] creates a page with exactly that slug; it is not the
    output of [Slugify] for any title, and [Slugify] maps it to
    [hello-world]. *)
Lemma SavePage_keeps_raw_slug :
  let db := fst (handler.SavePage (ExtractLinks_head AsciiLib) (empty_db [1])
                   "Hello_World" 1 "Hello World" "Some text" 10) in
  let p := Page.mk 1 "Hello_World" "Hello World" false None None None 10 10 in
  In p (pages db) /\
  (forall U, ascii_exact U -> Slugify U (Page.Slug p) = "hello-world") /\
  (forall U t, Slugify U t <> Page.Slug p).
Proof.
  cbv zeta. split; [left; reflexivity|]. split.
  - intros U HU. cbn [Page.Slug].
    rewrite (Slugify_ascii U "Hello_World" HU eq_refl). reflexivity.
  - intros U t E. pose proof (Slugify_shape U t) as [Hall _].
    rewrite E in Hall. discriminate.
Qed.



(** * Further properties of the code *)

(** ** Updating, deleting and restoring a page *)

Lemma update_pages_none (db : DB) (cond : Page.t -> bool) (set : Page.t -> Page.t) :
  existsb cond (pages db) = false -> update_pages db cond set = db.
Proof.
  intros H. destruct db as [u ps rs fs]. unfold update_pages. simpl in *. f_equal.
  induction ps as [|p ps IH]; simpl in *; [reflexivity|].
  apply orb_false_iff in H. destruct H as [Hp Hps].
  rewrite Hp. f_equal. apply IH, Hps.
Qed.

Lemma fts_has_delete_same (db : DB) (id : Z) : fts_has (delete_fts db id) id = false.
Proof.
  rewrite fts_has_delete, Z.eqb_refl. simpl. apply andb_false_r.
Qed.

Lemma UpdatePage_eq (db : DB) (pageID : Z) (title content : string)
    (authorID now : Z) :
  UpdatePage db pageID title content authorID now
  = if mem_id pageID (page_ids db) && mem_id authorID (users db) then
      (mkDB (users db)
            (replace_by_id pageID (retitled title now) (pages db))
            (revisions db ++ [new_revision db pageID content authorID now])
            (filter (fun e => negb (Fts.rowid e =? pageID)) (pages_fts db)
             ++ [Fts.mk pageID title content]),
       Ok tt)
    else (db, Err ErrConstraint).
Proof.
  unfold UpdatePage, UpdatePage_tx.
  set (db1 := update_pages db _ _).
  assert (Hids : page_ids db1 = page_ids db)
    by (apply page_ids_update; reflexivity).
  unfold insert_revision. rewrite Hids.
  change (users db1) with (users db).
  destruct (mem_id pageID (page_ids db)); simpl; [|reflexivity].
  destruct (mem_id authorID (users db)); simpl; [|reflexivity].
  rewrite insert_fts_run.
  match goal with
  | |- context [fts_has (delete_fts ?d pageID) pageID] =>
    rewrite (fts_has_delete_same d pageID)
  end.
  reflexivity.
Qed.

(** X1.  [UpdatePage] succeeds exactly when a page row has the id and
    the author is a known user; then every row with the id gets the new
    title and time, one revision is appended and the index entry of the
    page is replaced by one with the new title and content.  Otherwise
    it reports the constraint failure of the revision insert, never
    [ErrNotFound], and the store is as it was.  Neither a deletion mark
    nor the phantom flag of the row plays a part. *)
Theorem UpdatePage_cases (db : DB) (pageID : Z) (title content : string)
    (authorID now : Z) :
  let out := UpdatePage db pageID title content authorID now in
  if mem_id pageID (page_ids db) && mem_id authorID (users db) then
    snd out = Ok tt /\
    users (fst out) = users db /\
    pages (fst out) = replace_by_id pageID (retitled title now) (pages db) /\
    revisions (fst out)
      = revisions db ++ [new_revision db pageID content authorID now] /\
    pages_fts (fst out)
      = filter (fun e => negb (Fts.rowid e =? pageID)) (pages_fts db)
        ++ [Fts.mk pageID title content]
  else out = (db, Err ErrConstraint).
Proof.
  cbv zeta. rewrite UpdatePage_eq.
  destruct (mem_id pageID (page_ids db) && mem_id authorID (users db)).
  - simpl. repeat split; reflexivity.
  - reflexivity.
Qed.

Lemma deletable_after_mark (pageID now : Z) (l : list Page.t) :
  existsb (deletable pageID)
    (map (fun p => if deletable pageID p then mark_deleted now p else p) l) = false.
Proof.
  induction l as [|p l IH]; simpl; [reflexivity|].
  rewrite IH, orb_false_r.
  destruct (deletable pageID p) eqn:E.
  - unfold deletable, mark_deleted, is_deleted. simpl. apply andb_false_r.
  - exact E.
Qed.

Lemma SoftDeletePage_none (db : DB) (pageID now : Z) :
  existsb (deletable pageID) (pages db) = false ->
  SoftDeletePage db pageID now = (db, Err ErrNotFound).
Proof.
  intros H. unfold SoftDeletePage.
  change (fun p : Page.t => (Page.ID p =? pageID) && negb (is_deleted p))
    with (deletable pageID).
  rewrite (update_pages_none db _ _ H).
  unfold rows_affected.
  assert (Hf : filter (deletable pageID) (pages db) = []).
  { clear - H. induction (pages db) as [|p l IH]; simpl in *; [reflexivity|].
    apply orb_false_iff in H. destruct H as [Hp Hl]. rewrite Hp. apply IH, Hl. }
  rewrite Hf. reflexivity.
Qed.

Lemma SoftDeletePage_some (db : DB) (pageID now : Z) :
  existsb (deletable pageID) (pages db) = true ->
  SoftDeletePage db pageID now
  = (mkDB (users db)
          (map (fun p => if deletable pageID p then mark_deleted now p else p) (pages db))
          (revisions db)
          (filter (fun e => negb (Fts.rowid e =? pageID)) (pages_fts db)),
     Ok tt).
Proof.
  intros H. unfold SoftDeletePage.
  change (fun p : Page.t => (Page.ID p =? pageID) && negb (is_deleted p))
    with (deletable pageID).
  unfold rows_affected.
  destruct (filter (deletable pageID) (pages db)) as [|q l] eqn:Hf.
  - exfalso. apply existsb_exists in H. destruct H as [p [Hin Hp]].
    assert (Hq : In p (filter (deletable pageID) (pages db)))
      by (apply filter_In; split; assumption).
    rewrite Hf in Hq. destruct Hq.
  - change (List.length (q :: l)) with (S (List.length l)).
    destruct (Z.of_nat (S (List.length l)) =? 0) eqn:E; [apply Z.eqb_eq in E; lia|].
    reflexivity.
Qed.

(** X2.  [SoftDeletePage] answers [ErrNotFound], and changes nothing,
    exactly when no row has the id without a deletion mark.  Otherwise
    it marks those rows with the time given, removes the index entry of
    the page and keeps users and revisions; a second call for the same
    id then answers [ErrNotFound] and changes nothing. *)
Theorem SoftDeletePage_cases (db : DB) (pageID now : Z) :
  let out := SoftDeletePage db pageID now in
  if existsb (deletable pageID) (pages db) then
    snd out = Ok tt /\
    users (fst out) = users db /\
    revisions (fst out) = revisions db /\
    pages (fst out)
      = map (fun p => if deletable pageID p then mark_deleted now p else p) (pages db) /\
    pages_fts (fst out)
      = filter (fun e => negb (Fts.rowid e =? pageID)) (pages_fts db) /\
    fts_has (fst out) pageID = false /\
    (forall now2, SoftDeletePage (fst out) pageID now2 = (fst out, Err ErrNotFound))
  else out = (db, Err ErrNotFound).
Proof.
  destruct (existsb (deletable pageID) (pages db)) eqn:H; cbv zeta.
  - rewrite (SoftDeletePage_some db pageID now H). simpl.
    repeat split.
    + apply (fts_has_delete_same db pageID).
    + intros now2. apply SoftDeletePage_none. simpl. apply deletable_after_mark.
  - apply SoftDeletePage_none, H.
Qed.

Lemma find_andb {A : Type} (P Q : A -> bool) (l : list A) (x : A) :
  find P l = Some x -> Q x = true -> find (fun a => P a && Q a) l = Some x.
Proof.
  induction l as [|a l IH]; simpl; [discriminate|].
  destruct (P a) eqn:Pa; simpl.
  - intros [= ->] Hq. rewrite Hq. reflexivity.
  - intros H Hq. apply IH; assumption.
Qed.

Lemma restore_after_mark (pageID t1 t2 : Z) (l : list Page.t) :
  map (fun q => if Page.ID q =? pageID then mark_restored t2 q else q)
      (map (fun q => if deletable pageID q then mark_deleted t1 q else q) l)
  = replace_by_id pageID (mark_restored t2) l.
Proof.
  unfold replace_by_id. rewrite map_map. apply map_ext. intros q.
  unfold deletable. destruct (Page.ID q =? pageID) eqn:E; simpl.
  - destruct (negb (is_deleted q)); simpl; rewrite ?E; reflexivity.
  - rewrite E. reflexivity.
Qed.

Lemma SoftDelete_Restore_shape (tie : Revision.t -> Revision.t -> bool)
    (db : DB) (p : Page.t) (t1 t2 : Z)
    (Hdb : NoDup (page_ids db))
    (Hp : In p (pages db))
    (Hlive : is_deleted p = false) :
  let del := SoftDeletePage db (Page.ID p) t1 in
  let out := RestorePage tie (fst del) (Page.ID p) t2 in
  snd del = Ok tt /\ snd out = Ok tt /\
  users (fst out) = users db /\
  revisions (fst out) = revisions db /\
  pages (fst out) = replace_by_id (Page.ID p) (mark_restored t2) (pages db) /\
  GetPageByID (fst out) (Page.ID p) = Ok (mark_restored t2 p) /\
  exists content,
    pages_fts (fst out)
    = filter (fun e => negb (Fts.rowid e =? Page.ID p)) (pages_fts db)
      ++ [Fts.mk (Page.ID p) (Page.Title p) content] /\
    entry_content_ok (fst out) (Fts.mk (Page.ID p) (Page.Title p) content).
Proof.
  assert (Hex : existsb (deletable (Page.ID p)) (pages db) = true).
  { apply existsb_exists. exists p. split; [exact Hp|].
    unfold deletable. rewrite Z.eqb_refl, Hlive. reflexivity. }
  cbv zeta. rewrite (SoftDeletePage_some db (Page.ID p) t1 Hex).
  set (f := fun q => if deletable (Page.ID p) q then mark_deleted t1 q else q).
  set (db1 := mkDB _ _ _ _).
  change (fst (db1, Ok tt)) with db1.
  assert (Hfp : f p = mark_deleted t1 p).
  { unfold f, deletable. rewrite Z.eqb_refl, Hlive. reflexivity. }
  assert (Hfid : forall q, Page.ID (f q) = Page.ID q).
  { intros q. unfold f. destruct (deletable (Page.ID p) q); reflexivity. }
  assert (Hids1 : map Page.ID (map f (pages db)) = page_ids db).
  { unfold page_ids. rewrite map_map. apply map_ext, Hfid. }
  assert (Hfind : find (fun q => (Page.ID q =? Page.ID p) && is_deleted q) (pages db1)
                  = Some (mark_deleted t1 p)).
  { apply find_andb; [|reflexivity].
    change (Page.ID p) with (Page.ID (mark_deleted t1 p)) at 1.
    apply find_by_id_NoDup.
    - change (pages db1) with (map f (pages db)). rewrite Hids1. exact Hdb.
    - change (pages db1) with (map f (pages db)). rewrite <- Hfp.
      apply in_map, Hp. }
  split; [reflexivity|].
  unfold RestorePage, select_restore_row. rewrite Hfind.
  change (Page.ID (mark_deleted t1 p)) with (Page.ID p).
  change (Page.Title (mark_deleted t1 p)) with (Page.Title p).
  change (revisions db1) with (revisions db).
  assert (Hcontent :
    exists content,
      match latest tie (filter (fun r => Revision.PageID r =? Page.ID p) (revisions db)) with
      | Some r => Some (Page.Title p, Revision.Content r)
      | None => Some (Page.Title p, "")
      end = Some (Page.Title p, content) /\
      ((revs_of_page db (Page.ID p) = [] /\ content = "") \/
       (exists r, is_latest (revs_of_page db (Page.ID p)) r /\
                  Revision.Content r = content))).
  { unfold revs_of_page.
    destruct (latest tie (filter (fun r => Revision.PageID r =? Page.ID p) (revisions db)))
      as [r|] eqn:El.
    - exists (Revision.Content r). split; [reflexivity|]. right.
      exists r. split; [apply (latest_is_latest tie), El | reflexivity].
    - exists ""%string. split; [reflexivity|]. left.
      split; [apply (latest_none tie), El | reflexivity]. }
  destruct Hcontent as [content [Heq Hok]]. rewrite Heq.
  rewrite insert_fts_run.
  set (db2 := update_pages db1 _ _).
  assert (Hno : fts_has db2 (Page.ID p) = false).
  { apply (fts_has_delete_same db (Page.ID p)). }
  rewrite Hno. simpl.
  assert (Hpages : map (fun q => if Page.ID q =? Page.ID p then mark_restored t2 q else q)
                       (map f (pages db))
                   = replace_by_id (Page.ID p) (mark_restored t2) (pages db))
    by apply restore_after_mark.
  repeat split.
  - exact Hpages.
  - unfold GetPageByID, select_page_by_id. simpl.
    change (fun p0 : Page.t =>
              if Page.ID p0 =? Page.ID p
              then Page.mk (Page.ID p0) (Page.Slug p0) (Page.Title p0) (Page.IsPhantom p0)
                     (Page.FirstCitedByUserID p0) (Page.FirstCitedInPageID p0) None
                     (Page.CreatedAt p0) t2
              else p0)
      with (fun q => if Page.ID q =? Page.ID p then mark_restored t2 q else q).
    rewrite Hpages.
    rewrite find_replace_by_id by reflexivity.
    rewrite (find_by_id_NoDup (pages db) p Hdb Hp). reflexivity.
  - exists content. split; [reflexivity|].
    unfold entry_content_ok. simpl.
    exact Hok.
Qed.

(** X3.  Deleting a page that is not soft-deleted and restoring it gives
    the store back up to the page's [UpdatedAt] and its index entry:
    both calls succeed, the row has no deletion mark and is otherwise
    as before, users and revisions are untouched, and the page has
    exactly one index entry again, built from its title and from the
    content of a latest revision (the empty string for a page without
    revisions, such as a phantom). *)
Theorem SoftDelete_then_Restore (tie : Revision.t -> Revision.t -> bool)
    (db : DB) (p : Page.t) (t1 t2 : Z)
    (Hdb : NoDup (page_ids db))
    (Hp : In p (pages db))
    (Hlive : is_deleted p = false) :
  let del := SoftDeletePage db (Page.ID p) t1 in
  let out := RestorePage tie (fst del) (Page.ID p) t2 in
  snd del = Ok tt /\ snd out = Ok tt /\
  users (fst out) = users db /\
  revisions (fst out) = revisions db /\
  pages (fst out) = replace_by_id (Page.ID p) (mark_restored t2) (pages db) /\
  GetPageByID (fst out) (Page.ID p) = Ok (mark_restored t2 p) /\
  exists content,
    pages_fts (fst out)
    = filter (fun e => negb (Fts.rowid e =? Page.ID p)) (pages_fts db)
      ++ [Fts.mk (Page.ID p) (Page.Title p) content] /\
    entry_content_ok (fst out) (Fts.mk (Page.ID p) (Page.Title p) content).
Proof.
  cbv zeta.
  destruct (SoftDelete_Restore_shape tie db p t1 t2 Hdb Hp Hlive)
    as (H1 & H2 & H3 & H4 & H5 & H6 & content & H7 & H8).
  repeat split; try assumption.
  exists content. split; assumption.
Qed.

(** X3, at a concrete store. *)
Lemma SoftDelete_then_Restore_witness :
  let db := run keep_first (empty_db [1]) [OpCreatePage "a" "A" "x" 1 10] in
  let p := Page.mk 1 "a" "A" false None None None 10 10 in
  GetPageByID (fst (RestorePage keep_first (fst (SoftDeletePage db 1 20)) 1 30)) 1
  = Ok (mark_restored 30 p).
Proof.
  apply (SoftDelete_then_Restore keep_first
           (run keep_first (empty_db [1]) [OpCreatePage "a" "A" "x" 1 10])
           (Page.mk 1 "a" "A" false None None None 10 10) 20 30).
  - vm_compute. repeat constructor; simpl; intuition discriminate.
  - vm_compute. left. reflexivity.
  - reflexivity.
Defined.


(** ** Revisions are only ever appended *)

Lemma revisions_extend_refl (db : DB) : revisions_extend db db [].
Proof. split; [reflexivity | symmetry; apply app_nil_r]. Qed.

Lemma revisions_extend_trans (a b c : DB) (l1 l2 : list Revision.t) :
  revisions_extend a b l1 -> revisions_extend b c l2 ->
  revisions_extend a c (l1 ++ l2).
Proof.
  intros [Hu1 Hr1] [Hu2 Hr2]. split.
  - congruence.
  - rewrite Hr2, Hr1. symmetry. apply app_assoc.
Qed.

Lemma CreatePage_tx_author (db : DB) (slug title content : string) (authorID now : Z)
    (db' : DB) (id : Z) :
  CreatePage_tx db slug title content authorID now = Ok (db', id) ->
  In authorID (users db).
Proof.
  unfold CreatePage_tx, bind. intros H.
  destruct (select_page_by_slug db slug) as [existing|] eqn:Es.
  - destruct (Page.IsPhantom existing); [|discriminate].
    match type of H with
    | match insert_revision ?d _ _ _ _ with _ => _ end = _ =>
      destruct (insert_revision d (Page.ID existing) content authorID now) as [tx2|] eqn:Er;
        [|discriminate]
    end.
    apply insert_revision_inv in Er. destruct Er as [_ [Hu _]]. exact Hu.
  - destruct (insert_page db slug title false None None now) as [[tx1 pid]|] eqn:Ei;
      [|discriminate].
    apply insert_page_inv in Ei. destruct Ei as [_ [_ [_ [_ Htx1]]]].
    destruct (insert_revision tx1 pid content authorID now) as [tx2|] eqn:Er;
      [|discriminate].
    apply insert_revision_inv in Er. destruct Er as [_ [Hu _]].
    rewrite Htx1 in Hu. exact Hu.
Qed.

Lemma CreatePhantom_frame (db : DB) (slug title : string) (u p now : Z) :
  revisions (fst (CreatePhantom db slug title u p now)) = revisions db /\
  pages_fts (fst (CreatePhantom db slug title u p now)) = pages_fts db.
Proof.
  unfold CreatePhantom, GetPageBySlug.
  destruct (select_page_by_slug db slug); [split; reflexivity|].
  destruct (insert_page db slug title true (Some u) (Some p) now) as [[db' id]|] eqn:E;
    [|split; reflexivity].
  apply insert_page_inv in E. destruct E as [_ [_ [_ [_ ->]]]]. split; reflexivity.
Qed.

Lemma RestorePage_frame (tie : Revision.t -> Revision.t -> bool)
    (db : DB) (pageID now : Z) :
  users (fst (RestorePage tie db pageID now)) = users db /\
  revisions (fst (RestorePage tie db pageID now)) = revisions db.
Proof.
  unfold RestorePage.
  destruct (select_restore_row tie db pageID) as [[title content]|]; [|split; reflexivity].
  match goal with
  | |- context [insert_fts ?d pageID title content] =>
    destruct (insert_fts d pageID title content) as [db'|] eqn:E
  end.
  - apply insert_fts_inv in E. destruct E as [_ ->]. split; reflexivity.
  - split; reflexivity.
Qed.

Lemma SoftDeletePage_frame (db : DB) (pageID now : Z) :
  users (fst (SoftDeletePage db pageID now)) = users db /\
  revisions (fst (SoftDeletePage db pageID now)) = revisions db.
Proof.
  destruct (existsb (deletable pageID) (pages db)) eqn:H.
  - rewrite (SoftDeletePage_some db pageID now H). split; reflexivity.
  - rewrite (SoftDeletePage_none db pageID now H). split; reflexivity.
Qed.

(** What one operation does to [revisions]: nothing, or one row for a
    known author, dated with the operation's clock reading. *)
Lemma exec_revisions (tie : Revision.t -> Revision.t -> bool) (db : DB) (o : op) :
  revisions_extend db (exec tie db o) [] \/
  exists pageID content authorID,
    In authorID (users db) /\
    revisions_extend db (exec tie db o)
      [new_revision db pageID content authorID (op_time o)].
Proof.
  destruct o as [slug title content a now | id title content a now
                | slug title u p now | id now | id now]; simpl.
  - unfold CreatePage.
    destruct (CreatePage_tx db slug title content a now) as [[db' pid]|] eqn:E.
    + right. exists pid, content, a.
      pose proof (CreatePage_tx_author _ _ _ _ _ _ _ _ E) as Ha.
      apply CreatePage_tx_shape in E. destruct E as [_ [Hu [Hr _]]].
      split; [exact Ha|]. split; assumption.
    + left. apply revisions_extend_refl.
  - rewrite UpdatePage_eq.
    destruct (mem_id id (page_ids db)) eqn:Ei; simpl;
      [|left; apply revisions_extend_refl].
    destruct (mem_id a (users db)) eqn:Ea; simpl;
      [|left; apply revisions_extend_refl].
    right. exists id, content, a. split; [apply mem_id_In, Ea|].
    split; reflexivity.
  - left. split.
    + apply CreatePhantom_extend.
    + rewrite (proj1 (CreatePhantom_frame db slug title u p now)).
      symmetry. apply app_nil_r.
  - left. destruct (SoftDeletePage_frame db id now) as [Hu Hr]. split.
    + exact Hu.
    + rewrite Hr. symmetry. apply app_nil_r.
  - left. destruct (RestorePage_frame tie db id now) as [Hu Hr]. split.
    + exact Hu.
    + rewrite Hr. symmetry. apply app_nil_r.
Qed.

Lemma run_revisions (tie : Revision.t -> Revision.t -> bool) (ops : list op) :
  forall db, exists added, revisions_extend db (run tie db ops) added.
Proof.
  induction ops as [|o ops IH]; intros db.
  - exists []. apply revisions_extend_refl.
  - destruct (IH (exec tie db o)) as [l2 H2].
    destruct (exec_revisions tie db o) as [H1 | [pid [c [a [_ H1]]]]].
    + exists ([] ++ l2). eapply revisions_extend_trans; eassumption.
    + eexists (_ ++ l2). eapply revisions_extend_trans; eassumption.
Qed.

Lemma resolve_fold_frame (links : list markdown.LinkInfo) (u p now : Z)
    (targets : list string) :
  forall db,
    revisions (fold_left (handler.resolve_target links u p now) targets db)
    = revisions db /\
    pages_fts (fold_left (handler.resolve_target links u p now) targets db)
    = pages_fts db.
Proof.
  induction targets as [|t targets IH]; intros db; simpl; [split; reflexivity|].
  destruct (IH (handler.resolve_target links u p now db t)) as [Hr Hf].
  rewrite Hr, Hf.
  destruct (resolve_target_cases links u p now db t) as [-> | [id ->]];
    split; reflexivity.
Qed.

Lemma processWikiLinks_frame (ExtractLinks : string -> list markdown.LinkInfo)
    (db : DB) (content : string) (u p now : Z) :
  users (handler.processWikiLinks ExtractLinks db content u p now) = users db /\
  revisions (handler.processWikiLinks ExtractLinks db content u p now) = revisions db /\
  pages_fts (handler.processWikiLinks ExtractLinks db content u p now) = pages_fts db.
Proof.
  split; [apply processWikiLinks_extend|].
  apply resolve_fold_frame.
Qed.

(** ** Saving a page and reading it back *)

Lemma find_slug_map (g : Page.t -> Page.t) (slug : string) (l : list Page.t) :
  (forall p, Page.Slug (g p) = Page.Slug p) ->
  find (fun p => String.eqb (Page.Slug p) slug) (map g l)
  = option_map g (find (fun p => String.eqb (Page.Slug p) slug) l).
Proof.
  intros Hg. induction l as [|p l IH]; simpl; [reflexivity|].
  rewrite Hg. destruct (String.eqb (Page.Slug p) slug); [reflexivity | exact IH].
Qed.

Lemma select_slug_replace (db db' : DB) (id : Z) (set : Page.t -> Page.t)
    (slug : string) (p : Page.t) :
  (forall q, Page.Slug (set q) = Page.Slug q) ->
  pages db' = replace_by_id id set (pages db) ->
  select_page_by_slug db slug = Some p -> Page.ID p = id ->
  select_page_by_slug db' slug = Some (set p).
Proof.
  intros Hset Hpages Hsel Hid. unfold select_page_by_slug in *.
  rewrite Hpages. unfold replace_by_id.
  rewrite find_slug_map.
  - rewrite Hsel. simpl. rewrite Hid, Z.eqb_refl. reflexivity.
  - intros q. destruct (Page.ID q =? id); [apply Hset | reflexivity].
Qed.

(** The row found under the slug once [CreatePage] has committed. *)
Lemma CreatePage_tx_slug (db : DB) (slug title content : string) (authorID now : Z)
    (db' : DB) (id : Z) :
  CreatePage_tx db slug title content authorID now = Ok (db', id) ->
  exists pg,
    select_page_by_slug db' slug = Some pg /\
    Page.ID pg = id /\ Page.Title pg = title /\ Page.IsPhantom pg = false /\
    Page.DeletedAt pg = match select_page_by_slug db slug with
                        | Some e => Page.DeletedAt e
                        | None => None
                        end.
Proof.
  unfold CreatePage_tx, bind. intros H.
  destruct (select_page_by_slug db slug) as [existing|] eqn:Es.
  - destruct (Page.IsPhantom existing); [|discriminate].
    match type of H with
    | match insert_revision ?d _ _ _ _ with _ => _ end = _ =>
      set (tx1 := d) in *;
      destruct (insert_revision tx1 (Page.ID existing) content authorID now)
        as [tx2|] eqn:Er; [|discriminate]
    end.
    destruct (insert_fts tx2 (Page.ID existing) title content) as [tx3|] eqn:Ef;
      [|discriminate].
    injection H as <- <-.
    apply insert_revision_inv in Er. destruct Er as [_ [_ Htx2]].
    apply insert_fts_inv in Ef. destruct Ef as [_ Htx3].
    exists (converted existing title now).
    split; [|repeat split; reflexivity].
    apply (select_slug_replace db tx3 (Page.ID existing)
             (fun p => converted p title now) slug existing);
      [reflexivity | | exact Es | reflexivity].
    rewrite Htx3, Htx2. reflexivity.
  - destruct (insert_page db slug title false None None now) as [[tx1 pid]|] eqn:Ei;
      [|discriminate].
    destruct (insert_revision tx1 pid content authorID now) as [tx2|] eqn:Er;
      [|discriminate].
    destruct (insert_fts tx2 pid title content) as [tx3|] eqn:Ef; [|discriminate].
    injection H as <- <-.
    apply insert_page_inv in Ei. destruct Ei as [_ [_ [_ [Hpid Htx1]]]].
    apply insert_revision_inv in Er. destruct Er as [_ [_ Htx2]].
    apply insert_fts_inv in Ef. destruct Ef as [_ Htx3].
    exists (Page.mk pid slug title false None None None now now).
    split; [|repeat split; reflexivity].
    rewrite Htx3, Htx2, Htx1. simpl.
    rewrite select_by_slug_snoc by exact Es.
    simpl. rewrite String.eqb_refl. reflexivity.
Qed.

Lemma GetPageByID_id (db : DB) (id : Z) (page : Page.t) :
  GetPageByID db id = Ok page -> Page.ID page = id.
Proof.
  unfold GetPageByID, select_page_by_id.
  destruct (find (fun p => Page.ID p =? id) (pages db)) as [q|] eqn:E; [|discriminate].
  intros [= <-]. apply find_some in E. apply Z.eqb_eq, E.
Qed.

Lemma SavePage_create_outcome (ExtractLinks : string -> list markdown.LinkInfo)
    (db : DB) (slug : string) (userID : Z) (title content : string) (now : Z) :
  title <> "" -> len title <= 500 -> len content <= 500 * 1024 ->
  save_outcome ExtractLinks db slug userID title content now
    (match CreatePage db slug title content userID now with
     | (db', Err _) => (db', handler.Flash "danger" "Failed to create page")
     | (db', Ok page) =>
       (handler.processWikiLinks ExtractLinks db' content userID (Page.ID page) now,
        handler.Flash "success" "Page saved")
     end).
Proof.
  intros Ht Hlt Hlc. unfold CreatePage.
  destruct (CreatePage_tx db slug title content userID now) as [[db' pid]|] eqn:E.
  - destruct (CreatePage_tx_slug _ _ _ _ _ _ _ _ E)
      as [pg [Hsel [Hid [Htitle [Hph Hdel]]]]].
    pose proof (CreatePage_tx_author _ _ _ _ _ _ _ _ E) as Hauthor.
    pose proof (CreatePage_tx_shape _ _ _ _ _ _ _ _ E) as [_ [Hu [Hr _]]].
    destruct (GetPageByID db' pid) as [page|e] eqn:Eg.
    + apply GetPageByID_id in Eg.
      apply (save_done _ _ _ _ _ _ _ _ db' pg); simpl; try assumption.
      * reflexivity.
      * rewrite Eg, Hid. reflexivity.
      * rewrite Hid. exact Hr.
    + exfalso. unfold GetPageByID, select_page_by_id in Eg.
      apply select_by_slug_some in Hsel. destruct Hsel as [Hin _].
      destruct (find (fun p => Page.ID p =? pid) (pages db')) eqn:Ef; [discriminate|].
      apply (find_none _ _ Ef) in Hin. rewrite Hid, Z.eqb_refl in Hin. discriminate.
  - apply save_rejected; simpl; [reflexivity | discriminate].
Qed.

Lemma SavePage_outcome (ExtractLinks : string -> list markdown.LinkInfo)
    (db : DB) (slug : string) (userID : Z) (title content : string) (now : Z) :
  save_outcome ExtractLinks db slug userID title content now
    (handler.SavePage ExtractLinks db slug userID title content now).
Proof.
  unfold handler.SavePage.
  destruct (String.eqb title "") eqn:Et;
    [apply save_rejected; simpl; [reflexivity | discriminate]|].
  destruct (500 <? len title) eqn:Elt;
    [apply save_rejected; simpl; [reflexivity | discriminate]|].
  destruct (500 * 1024 <? len content) eqn:Elc;
    [apply save_rejected; simpl; [reflexivity | discriminate]|].
  apply String.eqb_neq in Et. apply Z.ltb_ge in Elt. apply Z.ltb_ge in Elc.
  pose proof (SavePage_create_outcome ExtractLinks db slug userID title content now
                Et Elt Elc) as Hcreate.
  unfold GetPageBySlug.
  destruct (select_page_by_slug db slug) as [page|] eqn:Es; [|exact Hcreate].
  destruct (Page.IsPhantom page) eqn:Eph; [exact Hcreate|].
  rewrite UpdatePage_eq.
  assert (Hin : mem_id (Page.ID page) (page_ids db) = true).
  { apply mem_id_In. apply select_by_slug_some in Es. destruct Es as [Hin _].
    unfold page_ids. apply in_map, Hin. }
  rewrite Hin. simpl.
  destruct (mem_id userID (users db)) eqn:Eu.
  - apply (save_done _ _ _ _ _ _ _ _
             (mkDB (users db)
                   (replace_by_id (Page.ID page) (retitled title now) (pages db))
                   (revisions db ++ [new_revision db (Page.ID page) content userID now])
                   (filter (fun e => negb (Fts.rowid e =? Page.ID page)) (pages_fts db)
                    ++ [Fts.mk (Page.ID page) title content]))
             (retitled title now page)); simpl; try assumption; try reflexivity.
    + apply mem_id_In, Eu.
    + apply (select_slug_replace db _ (Page.ID page) (retitled title now) slug page);
        [reflexivity | reflexivity | exact Es | reflexivity].
    + rewrite Es. reflexivity.
  - apply save_rejected; simpl; [reflexivity | discriminate].
Qed.

(** X4.  [SavePage] changes the store only when it answers "Page
    saved".  That answer needs a title that is not empty and at most 500
    bytes long, a text of at most 500 KB and a known user, and it comes
    with exactly one new revision, which carries the text, the user and
    the clock reading; resolving the links of the text adds no revision
    and touches neither users nor index. *)
Theorem SavePage_changes_only_on_success
    (ExtractLinks : string -> list markdown.LinkInfo)
    (db : DB) (slug : string) (userID : Z) (title content : string) (now : Z) :
  let out := handler.SavePage ExtractLinks db slug userID title content now in
  (snd out <> handler.Flash "success" "Page saved" /\ fst out = db) \/
  (snd out = handler.Flash "success" "Page saved" /\
   title <> "" /\ len title <= 500 /\ len content <= 500 * 1024 /\
   In userID (users db) /\
   users (fst out) = users db /\
   exists pageID,
     revisions (fst out)
     = revisions db ++ [new_revision db pageID content userID now]).
Proof.
  cbv zeta.
  destruct (SavePage_outcome ExtractLinks db slug userID title content now)
    as [Hfst Hsnd | db1 pg Hsnd Hfst Ht Hlt Hlc Hu Husers Hrevs Hsel Htitle Hph Hdel].
  - left. split; assumption.
  - right. repeat split; try assumption.
    + rewrite Hfst.
      rewrite (proj1 (processWikiLinks_frame ExtractLinks db1 content userID
                        (Page.ID pg) now)).
      exact Husers.
    + exists (Page.ID pg). rewrite Hfst.
      rewrite (proj1 (proj2 (processWikiLinks_frame ExtractLinks db1 content userID
                               (Page.ID pg) now))).
      exact Hrevs.
Qed.

(** X5.  What has been saved is what is read back.  When [SavePage]
    answers "Page saved" at a clock reading later than that of every
    stored revision, the slug leads to a real page with the title given,
    [GetCurrentRevision] returns the revision just written whatever
    order the engine gives to equal timestamps, the edit form is filled
    with the saved title and text, and the page view shows that
    revision unless the row under the slug carried a deletion mark. *)
Theorem SavePage_then_read (tie : Revision.t -> Revision.t -> bool)
    (Render : string -> option string)
    (ExtractLinks : string -> list markdown.LinkInfo)
    (db : DB) (slug : string) (userID : Z) (title content : string) (now : Z)
    (Hclock : forall r, In r (revisions db) -> Revision.CreatedAt r < now)
    (Hsaved : snd (handler.SavePage ExtractLinks db slug userID title content now)
              = handler.Flash "success" "Page saved") :
  let db' := fst (handler.SavePage ExtractLinks db slug userID title content now) in
  exists pg rev,
    GetPageBySlug db' slug = Ok pg /\
    Page.Title pg = title /\ Page.IsPhantom pg = false /\
    GetCurrentRevision tie db' (Page.ID pg) = Ok rev /\
    Revision.Content rev = content /\ Revision.AuthorID rev = userID /\
    Revision.CreatedAt rev = now /\
    handler.EditPage tie db' slug = Ok (handler.mkEditForm slug title content false) /\
    (forall loggedIn html,
        Render content = Some html ->
        (forall e, select_page_by_slug db slug = Some e -> is_deleted e = false) ->
        handler.ViewPage tie Render db' slug loggedIn
        = handler.PageView pg html rev (RevisionCount db' (Page.ID pg))).
Proof.
  cbv zeta.
  destruct (SavePage_outcome ExtractLinks db slug userID title content now)
    as [Hfst Hsnd | db1 pg Hsnd Hfst Ht Hlt Hlc Hu Husers Hrevs Hsel Htitle Hph Hdel];
    [contradiction|].
  set (rev := new_revision db (Page.ID pg) content userID now).
  destruct (processWikiLinks_frame ExtractLinks db1 content userID (Page.ID pg) now)
    as [HuF [HrF _]].
  rewrite <- Hfst in HuF, HrF.
  assert (HselF : select_page_by_slug
                    (fst (handler.SavePage ExtractLinks db slug userID title content now))
                    slug = Some pg).
  { rewrite Hfst.
    apply (select_by_slug_extend db1); [apply processWikiLinks_extend | exact Hsel]. }
  set (dbF := fst (handler.SavePage ExtractLinks db slug userID title content now)) in *.
  assert (Hcur : GetCurrentRevision tie dbF (Page.ID pg) = Ok rev).
  { unfold GetCurrentRevision.
    rewrite (latest_unique tie (revisions_of dbF (Page.ID pg)) rev); [reflexivity | |].
    - unfold revisions_of. apply filter_In. split.
      + rewrite HrF, Hrevs. apply in_or_app. right. left. reflexivity.
      + simpl. rewrite Z.eqb_refl. simpl. apply mem_id_In.
        rewrite HuF, Husers. exact Hu.
    - intros r' Hin Hne. unfold revisions_of in Hin. apply filter_In in Hin.
      destruct Hin as [Hin _]. rewrite HrF, Hrevs in Hin.
      apply in_app_or in Hin. destruct Hin as [Hin | [Heq | []]].
      + simpl. apply Hclock, Hin.
      + exfalso. apply Hne. symmetry. exact Heq. }
  exists pg, rev.
  assert (Hget : GetPageBySlug dbF slug = Ok pg)
    by (unfold GetPageBySlug; rewrite HselF; reflexivity).
  repeat split; try assumption; try reflexivity.
  - unfold handler.EditPage. rewrite Hget, Hph, Hcur, Htitle. reflexivity.
  - intros loggedIn html Hrender Hlive.
    unfold handler.ViewPage. rewrite Hget, Hph.
    assert (Hnd : is_deleted pg = false).
    { unfold is_deleted. rewrite Hdel.
      destruct (select_page_by_slug db slug) as [e|] eqn:Ee; [|reflexivity].
      apply (Hlive e eq_refl). }
    rewrite Hnd, Hcur. simpl. rewrite Hrender. reflexivity.
Qed.

(** X5, at a concrete store: a page written at time 10 is saved again at
    time 20. *)
Lemma SavePage_then_read_witness :
  let db := run keep_first (empty_db [1]) [OpCreatePage "a" "A" "x" 1 10] in
  let db' := fst (handler.SavePage (ExtractLinks_head AsciiLib) db "a" 1 "B" "y" 20) in
  exists pg rev,
    GetPageBySlug db' "a" = Ok pg /\
    Page.Title pg = "B" /\ Page.IsPhantom pg = false /\
    GetCurrentRevision keep_first db' (Page.ID pg) = Ok rev /\
    Revision.Content rev = "y" /\ Revision.AuthorID rev = 1 /\
    Revision.CreatedAt rev = 20 /\
    handler.EditPage keep_first db' "a" = Ok (handler.mkEditForm "a" "B" "y" false) /\
    (forall loggedIn html,
        Some "y" = Some html ->
        (forall e, select_page_by_slug db "a" = Some e -> is_deleted e = false) ->
        handler.ViewPage keep_first (fun s => Some s) db' "a" loggedIn
        = handler.PageView pg html rev (RevisionCount db' (Page.ID pg))).
Proof.
  apply (SavePage_then_read keep_first (fun s => Some s) (ExtractLinks_head AsciiLib)
           (run keep_first (empty_db [1]) [OpCreatePage "a" "A" "x" 1 10])
           "a" 1 "B" "y" 20).
  - intros r Hr. vm_compute in Hr. destruct Hr as [<- | []]. reflexivity.
  - vm_compute. reflexivity.
Defined.

(** X6.  No operation of the store rewrites or removes a revision: after
    any run of operations the revisions that were there are still
    there, unchanged and in place, followed by at most one new revision
    per operation; the users are the same. *)
Theorem revisions_append_only (tie : Revision.t -> Revision.t -> bool)
    (db : DB) (ops : list op) :
  exists added,
    users (run tie db ops) = users db /\
    revisions (run tie db ops) = revisions db ++ added /\
    (List.length added <= List.length ops)%nat.
Proof.
  revert db. induction ops as [|o ops IH]; intros db.
  - exists []. simpl. split; [reflexivity|].
    split; [symmetry; apply app_nil_r | lia].
  - destruct (IH (exec tie db o)) as [l2 [Hu2 [Hr2 Hlen]]].
    change (run tie db (o :: ops)) with (run tie (exec tie db o) ops).
    destruct (exec_revisions tie db o) as [[Hu1 Hr1] | [pid [c [a [_ [Hu1 Hr1]]]]]].
    + exists l2. rewrite Hu2, Hr2, Hu1, Hr1, app_nil_r. simpl.
      split; [reflexivity|]. split; [reflexivity | lia].
    + exists (new_revision db pid c a (op_time o) :: l2).
      rewrite Hu2, Hr2, Hu1, Hr1, <- app_assoc. simpl.
      split; [reflexivity|]. split; [reflexivity | lia].
Qed.

(** ** The schema's guarantees about [revisions] *)

Lemma revisions_ok_empty (us : list Z) : revisions_ok (empty_db us).
Proof. split; [constructor | intros r []]. Qed.

Lemma revisions_ok_exec (tie : Revision.t -> Revision.t -> bool) (db : DB) (o : op) :
  revisions_ok db -> revisions_ok (exec tie db o).
Proof.
  intros [Hnd Hau].
  destruct (exec_revisions tie db o) as [[Hu Hr] | [pid [c [a [Ha [Hu Hr]]]]]].
  - rewrite app_nil_r in Hr. split; rewrite Hr; [exact Hnd|].
    intros r Hin. rewrite Hu. apply Hau, Hin.
  - split; rewrite Hr.
    + rewrite map_app. apply NoDup_snoc; [exact Hnd|]. simpl. apply next_id_fresh.
    + intros r Hin. rewrite Hu. apply in_app_or in Hin.
      destruct Hin as [Hin | [<- | []]]; [apply Hau, Hin | exact Ha].
Qed.

Lemma revisions_ok_run (tie : Revision.t -> Revision.t -> bool) (ops : list op) :
  forall db, revisions_ok db -> revisions_ok (run tie db ops).
Proof.
  induction ops as [|o ops IH]; intros db H; [exact H|].
  apply IH, revisions_ok_exec, H.
Qed.

(** ** Ordered listings *)

Lemma Permutation_insert_by {A : Type} (le : A -> A -> bool) (x : A) (l : list A) :
  Permutation (insert_by le x l) (x :: l).
Proof.
  induction l as [|y l IH]; simpl; [apply Permutation_refl|].
  destruct (le x y); [apply Permutation_refl|].
  eapply Permutation_trans; [apply perm_skip, IH | apply perm_swap].
Qed.

Lemma Permutation_order_by {A : Type} (le : A -> A -> bool) (l : list A) :
  Permutation (order_by le l) l.
Proof.
  induction l as [|x l IH]; simpl; [constructor|].
  eapply Permutation_trans; [apply Permutation_insert_by | apply perm_skip, IH].
Qed.

Section Sorting.

Context {A : Type} (le : A -> A -> bool) (R : A -> A -> Prop).
Hypothesis le_R : forall a b, le a b = true -> R a b.
Hypothesis le_total : forall a b, le a b = false -> R b a.
Hypothesis R_trans : forall a b c, R a b -> R b c -> R a c.

Lemma Forall_insert_by (x y : A) (l : list A) :
  R y x -> Forall (R y) l -> Forall (R y) (insert_by le x l).
Proof.
  intros Hyx Hl.
  eapply Permutation_Forall.
  - apply Permutation_sym, Permutation_insert_by.
  - constructor; assumption.
Qed.

Lemma StronglySorted_insert_by (x : A) (l : list A) :
  StronglySorted R l -> StronglySorted R (insert_by le x l).
Proof.
  induction l as [|y l IH]; simpl; intros Hs.
  - constructor; [constructor | constructor].
  - destruct (le x y) eqn:E.
    + constructor; [exact Hs|].
      apply StronglySorted_inv in Hs. destruct Hs as [_ Hy].
      constructor; [apply le_R, E|].
      eapply Forall_impl; [|exact Hy]. intros a Ha.
      eapply R_trans; [apply le_R, E | exact Ha].
    + apply StronglySorted_inv in Hs. destruct Hs as [Hs Hy].
      constructor; [apply IH, Hs|].
      apply Forall_insert_by; [apply le_total, E | exact Hy].
Qed.

Lemma StronglySorted_order_by (l : list A) : StronglySorted R (order_by le l).
Proof.
  induction l as [|x l IH]; simpl; [constructor|].
  apply StronglySorted_insert_by, IH.
Qed.

End Sorting.


Lemma String_compare_trans (a : string) :
  forall b c,
    String.compare a b <> Gt -> String.compare b c <> Gt -> String.compare a c <> Gt.
Proof.
  induction a as [|x a IH]; intros [|y b] [|z c]; simpl; try congruence.
  unfold Ascii.compare.
  destruct (N.compare_spec (N_of_ascii x) (N_of_ascii y)) as [Hxy|Hxy|Hxy];
    destruct (N.compare_spec (N_of_ascii y) (N_of_ascii z)) as [Hyz|Hyz|Hyz];
    destruct (N.compare_spec (N_of_ascii x) (N_of_ascii z)) as [Hxz|Hxz|Hxz];
    try congruence; try lia.
  apply IH.
Qed.

Lemma String_leb_trans (a b c : string) :
  String.leb a b = true -> String.leb b c = true -> String.leb a c = true.
Proof.
  unfold String.leb. intros Hab Hbc.
  pose proof (String_compare_trans a b c) as H.
  destruct (String.compare a b); destruct (String.compare b c);
    destruct (String.compare a c); try reflexivity; try discriminate;
    exfalso; apply H; congruence.
Qed.

Lemma String_leb_false (a b : string) :
  String.leb a b = false -> String.leb b a = true.
Proof.
  intros H. destruct (String.leb_total a b) as [H1 | H1]; [congruence | exact H1].
Qed.

Lemma find_unique {A : Type} (f : A -> Z) (P : A -> bool) (l : list A) (x : A) :
  NoDup (map f l) -> In x l -> P x = true ->
  (forall y, P y = true -> f y = f x) ->
  find P l = Some x.
Proof.
  intros Hnd Hin Hp Hf. induction l as [|a l IH]; [destruct Hin|].
  simpl in *. inversion Hnd as [|? ? Hna Hnd']; subst.
  destruct Hin as [-> | Hin].
  - rewrite Hp. reflexivity.
  - destruct (P a) eqn:Pa.
    + exfalso. apply Hna. rewrite (Hf a Pa). apply in_map, Hin.
    + apply IH; assumption.
Qed.

(** X7.  [ListRevisions] returns exactly the revisions of the page that
    [GetCurrentRevision] chooses from, each once, ordered by
    [CreatedAt] with the newest first; so its first element is a latest
    revision, and it is empty exactly when [GetCurrentRevision] answers
    [ErrNotFound]. *)
Theorem ListRevisions_newest_first (db : DB) (pageID : Z) :
  Permutation (ListRevisions db pageID) (revisions_of db pageID) /\
  StronglySorted (fun a b => Revision.CreatedAt b <= Revision.CreatedAt a)
                 (ListRevisions db pageID) /\
  (forall r rest, ListRevisions db pageID = r :: rest ->
                  is_latest (revisions_of db pageID) r) /\
  (forall tie, GetCurrentRevision tie db pageID = Err ErrNotFound <->
               ListRevisions db pageID = []).
Proof.
  assert (Hperm : Permutation (ListRevisions db pageID) (revisions_of db pageID))
    by apply Permutation_order_by.
  assert (Hsorted : StronglySorted (fun a b => Revision.CreatedAt b <= Revision.CreatedAt a)
                      (ListRevisions db pageID)).
  { apply (StronglySorted_order_by created_at_desc).
    - intros a b H. apply Z.leb_le, H.
    - intros a b H. unfold created_at_desc in H. apply Z.leb_gt in H. lia.
    - intros a b c H1 H2. lia. }
  repeat split.
  - exact Hperm.
  - exact Hsorted.
  - apply (Permutation_in _ Hperm). rewrite H. left. reflexivity.
  - intros r' Hin. apply (Permutation_in _ (Permutation_sym Hperm)) in Hin.
    rewrite H in Hin, Hsorted. destruct Hin as [<- | Hin]; [lia|].
    apply StronglySorted_inv in Hsorted. destruct Hsorted as [_ Hall].
    rewrite Forall_forall in Hall. apply Hall, Hin.
  - unfold GetCurrentRevision. intros H.
    destruct (latest tie (revisions_of db pageID)) eqn:E; [discriminate|].
    apply latest_none in E. unfold ListRevisions. rewrite E. reflexivity.
  - unfold GetCurrentRevision. intros H.
    assert (E : revisions_of db pageID = []).
    { apply Permutation_nil. rewrite <- H. exact Hperm. }
    rewrite E. reflexivity.
Qed.

(** X8.  On a store built by the operations from an empty one, the
    history page agrees with the rest: the number of revisions it lists
    is the [RevisionCount] shown on the page view, and every revision it
    lists can be opened through [ViewRevision] under the same slug,
    which shows that very revision. *)
Theorem history_matches_revisions (tie : Revision.t -> Revision.t -> bool)
    (us : list Z) (ops : list op) (slug : string)
    (page : Page.t) (revs : list Revision.t) :
  let db := run tie (empty_db us) ops in
  handler.PageHistory db slug = Ok (page, revs) ->
  Z.of_nat (List.length revs) = RevisionCount db (Page.ID page) /\
  forall r, In r revs ->
            handler.ViewRevision db slug (Some (Revision.ID r)) = Ok (page, r).
Proof.
  cbv zeta. set (db := run tie (empty_db us) ops).
  assert (Hok : revisions_ok db) by apply revisions_ok_run, revisions_ok_empty.
  destruct Hok as [Hnd Hau].
  unfold handler.PageHistory, handler.ViewRevision.
  destruct (GetPageBySlug db slug) as [pg|e] eqn:Eg; [|discriminate].
  intros [= -> <-]. split.
  - unfold ListRevisions, RevisionCount, revisions_of.
    rewrite length_order_by. do 2 f_equal.
    apply filter_ext_in. intros r Hin.
    assert (Hm : mem_id (Revision.AuthorID r) (users db) = true)
      by (apply mem_id_In, Hau, Hin).
    rewrite Hm. apply andb_true_r.
  - intros r Hin. unfold ListRevisions in Hin. apply In_order_by in Hin.
    unfold revisions_of in Hin. apply filter_In in Hin.
    destruct Hin as [Hin Hc]. apply andb_true_iff in Hc. destruct Hc as [Hpid Hauth].
    unfold GetRevisionByID.
    rewrite (find_unique Revision.ID _ (revisions db) r Hnd Hin).
    + rewrite Hpid. reflexivity.
    + rewrite Z.eqb_refl, Hauth. reflexivity.
    + intros y Hy. apply andb_true_iff in Hy. apply Z.eqb_eq, Hy.
Qed.

(** X8, at a concrete store with two revisions of one page. *)
Lemma history_matches_revisions_witness :
  let db := run keep_first (empty_db [1])
              [OpCreatePage "a" "A" "x" 1 10; OpUpdatePage 1 "A" "y" 1 20] in
  let page := Page.mk 1 "a" "A" false None None None 10 20 in
  let revs := [Revision.mk 2 1 "y" 1 20; Revision.mk 1 1 "x" 1 10] in
  Z.of_nat (List.length revs) = RevisionCount db (Page.ID page) /\
  forall r, In r revs ->
            handler.ViewRevision db "a" (Some (Revision.ID r)) = Ok (page, r).
Proof.
  apply (history_matches_revisions keep_first [1]
           [OpCreatePage "a" "A" "x" 1 10; OpUpdatePage 1 "A" "y" 1 20] "a"
           (Page.mk 1 "a" "A" false None None None 10 20)
           [Revision.mk 2 1 "y" 1 20; Revision.mk 1 1 "x" 1 10]).
  vm_compute. reflexivity.
Defined.

Lemma title_asc_sorted (l : list Page.t) :
  StronglySorted (fun a b => String.leb (Page.Title a) (Page.Title b) = true)
                 (order_by title_asc l).
Proof.
  apply (StronglySorted_order_by title_asc).
  - intros a b H. exact H.
  - intros a b H. apply String_leb_false, H.
  - intros a b c. apply String_leb_trans.
Qed.

(** X9.  [ListPages] returns every real page without a deletion mark,
    each row once, and [ListPhantoms] every phantom without a deletion
    mark; both are in ascending byte order of the titles.
    [ListPhantomsWithSource] lists the same phantoms, each once and in
    ascending order of the titles as well. *)
Theorem listings_alphabetical (db : DB) :
  Permutation (ListPages db) (filter live_real (pages db)) /\
  StronglySorted (fun a b => String.leb (Page.Title a) (Page.Title b) = true)
                 (ListPages db) /\
  Permutation (ListPhantoms db)
              (filter (fun p => Page.IsPhantom p && negb (is_deleted p)) (pages db)) /\
  StronglySorted (fun a b => String.leb (Page.Title a) (Page.Title b) = true)
                 (ListPhantoms db) /\
  Permutation (map Page_ (ListPhantomsWithSource db))
              (filter (fun p => Page.IsPhantom p && negb (is_deleted p)) (pages db)) /\
  StronglySorted (fun a b => String.leb (Page.Title a) (Page.Title b) = true)
                 (map Page_ (ListPhantomsWithSource db)).
Proof.
  assert (Hsame : map Page_ (ListPhantomsWithSource db)
                  = order_by title_asc
                      (filter (fun p => Page.IsPhantom p && negb (is_deleted p))
                              (pages db))).
  { unfold ListPhantomsWithSource. rewrite map_map.
    rewrite <- (map_id (order_by title_asc _)) at 2.
    apply map_ext. intros p. unfold with_source.
    destruct (Page.FirstCitedInPageID p) as [i|]; [|reflexivity].
    destruct (select_page_by_id db i); reflexivity. }
  rewrite Hsame.
  repeat split.
  - apply Permutation_order_by.
  - apply title_asc_sorted.
  - apply Permutation_order_by.
  - apply title_asc_sorted.
  - apply Permutation_order_by.
  - apply title_asc_sorted.
Qed.



(** ** Links: their targets, their phantoms and their rendering *)

Lemma UniqueTargets_from_distinct (links : list markdown.LinkInfo) :
  forall seen,
    (forall l, In l links -> ~ In (markdown.Target l) seen) ->
    NoDup (map markdown.Target links) ->
    markdown.UniqueTargets_from seen links = map markdown.Target links.
Proof.
  induction links as [|l links IH]; intros seen Hseen Hnd; [reflexivity|].
  simpl. inversion Hnd as [|? ? Hnot Hnd']; subst.
  destruct (markdown.seen_target seen (markdown.Target l)) eqn:E.
  - exfalso. apply seen_target_In in E. apply (Hseen l); [left; reflexivity | exact E].
  - simpl. f_equal. apply IH; [|exact Hnd'].
    intros l' Hl' [Heq | Hin].
    + apply Hnot. rewrite Heq. apply in_map, Hl'.
    + apply (Hseen l'); [right; exact Hl' | exact Hin].
Qed.

Lemma UniqueTargets_from_length (links : list markdown.LinkInfo) :
  forall seen,
    (List.length (markdown.UniqueTargets_from seen links) <= List.length links)%nat.
Proof.
  induction links as [|l links IH]; intros seen; simpl; [lia|].
  destruct (negb (markdown.seen_target seen (markdown.Target l))); simpl.
  - specialize (IH (markdown.Target l :: seen)). lia.
  - specialize (IH seen). lia.
Qed.

(** X11.  [UniqueTargets] returns every target of the links exactly
    once and nothing else; it is never longer than the list of links,
    and links whose targets already differ come back as their targets
    in the same order. *)
Theorem UniqueTargets_dedup (links : list markdown.LinkInfo) :
  NoDup (markdown.UniqueTargets links) /\
  (forall t, In t (markdown.UniqueTargets links) <->
             exists l, In l links /\ markdown.Target l = t) /\
  (List.length (markdown.UniqueTargets links) <= List.length links)%nat /\
  (NoDup (map markdown.Target links) ->
   markdown.UniqueTargets links = map markdown.Target links).
Proof.
  unfold markdown.UniqueTargets. repeat split.
  - apply UniqueTargets_from_NoDup.
  - intros H. apply UniqueTargets_from_In in H. apply H.
  - intros H. apply UniqueTargets_from_In. split; [exact H | intros []].
  - apply UniqueTargets_from_length.
  - intros H. apply UniqueTargets_from_distinct; [intros l _ [] | exact H].
Qed.

Lemma resolve_fold_new (links : list markdown.LinkInfo) (u p now : Z)
    (targets : list string) :
  forall db q,
    In q (pages (fold_left (handler.resolve_target links u p now) targets db)) ->
    In q (pages db) \/
    (In (Page.Slug q) targets /\
     exists id, q = Page.mk id (Page.Slug q) (handler.find_display links (Page.Slug q))
                            true (Some u) (Some p) None now now).
Proof.
  induction targets as [|t ts IH]; intros db q Hq; [left; exact Hq|].
  cbn [fold_left] in Hq. apply IH in Hq. destruct Hq as [Hq | [Hin Hnew]].
  - destruct (resolve_target_cases links u p now db t) as [E | [id E]];
      rewrite E in Hq; [left; exact Hq|].
    cbn [pages] in Hq. apply in_app_or in Hq.
    destruct Hq as [Hq | [Hq | []]]; [left; exact Hq|].
    subst q. right. split; [left; reflexivity|]. exists id. reflexivity.
  - right. split; [right; exact Hin | exact Hnew].
Qed.

Lemma PageExists_select (db : DB) (slug : string) :
  PageExists db slug
  = Ok (match select_page_by_slug db slug with Some _ => true | None => false end).
Proof.
  unfold PageExists, select_page_by_slug. f_equal.
  induction (pages db) as [|p l IH]; simpl; [reflexivity|].
  destruct (String.eqb (Page.Slug p) slug); [|exact IH].
  simpl. apply Z.ltb_lt. lia.
Qed.

Lemma pageChecker_select (db : DB) (slug : string) :
  handler.pageChecker db slug
  = match select_page_by_slug db slug with
    | Some p => (true, Page.IsPhantom p)
    | None => (false, false)
    end.
Proof.
  unfold handler.pageChecker. rewrite PageExists_select. unfold IsPhantom.
  destruct (select_page_by_slug db slug); reflexivity.
Qed.

(** X12.  Once [processWikiLinks] has run for a known user and an
    existing citing page, every link of the text leads to a row: the
    page checker of the renderer reports each target as existing.  The
    rows it adds are phantoms under a link target, titled with the
    display text of the first link to that target and carrying the
    user and the citing page; users, revisions and index stay as they
    were. *)
Theorem processWikiLinks_resolves_all
    (ExtractLinks : string -> list markdown.LinkInfo)
    (db : DB) (content : string) (userID pageID now : Z)
    (Huser : In userID (users db))
    (Hpage : In pageID (page_ids db)) :
  let db' := handler.processWikiLinks ExtractLinks db content userID pageID now in
  (forall link, In link (ExtractLinks content) ->
                fst (handler.pageChecker db' (markdown.Target link)) = true) /\
  (forall q, In q (pages db') ->
             In q (pages db) \/
             ((exists link, In link (ExtractLinks content) /\
                            markdown.Target link = Page.Slug q) /\
              Page.IsPhantom q = true /\
              Page.Title q = handler.find_display (ExtractLinks content) (Page.Slug q) /\
              Page.FirstCitedByUserID q = Some userID /\
              Page.FirstCitedInPageID q = Some pageID)) /\
  users db' = users db /\ revisions db' = revisions db /\ pages_fts db' = pages_fts db.
Proof.
  cbv zeta. split; [|split].
  - intros link Hlink. rewrite pageChecker_select.
    set (t := markdown.Target link).
    assert (Ht : In t (markdown.UniqueTargets (ExtractLinks content))).
    { apply UniqueTargets_from_In. split; [|intros []].
      exists link. split; [exact Hlink | reflexivity]. }
    destruct (select_page_by_slug db t) as [q|] eqn:Es.
    + rewrite (select_by_slug_extend db _ t q
                 (processWikiLinks_extend ExtractLinks db content userID pageID now) Es).
      reflexivity.
    + unfold handler.processWikiLinks.
      destruct (resolve_fold_creates (ExtractLinks content) userID pageID now
                  (markdown.UniqueTargets (ExtractLinks content)) t db
                  (UniqueTargets_from_NoDup _ _) Ht Es Huser Hpage) as [id ->].
      reflexivity.
  - intros q Hq. unfold handler.processWikiLinks in Hq.
    apply resolve_fold_new in Hq. destruct Hq as [Hq | [Hin [id Hnew]]];
      [left; exact Hq|].
    right. split.
    + apply UniqueTargets_from_In in Hin. apply Hin.
    + rewrite Hnew. simpl. repeat split; reflexivity.
  - apply processWikiLinks_frame.
Qed.

(** X12, at a concrete store: the page [a] cites a page that is not
    there. *)
Lemma processWikiLinks_resolves_all_witness :
  let db := run keep_first (empty_db [1]) [OpCreatePage "a" "A" "x" 1 10] in
  let db' := handler.processWikiLinks (ExtractLinks_head AsciiLib) db
               "[[Unwritten Topic|see here]]" 1 1 20 in
  fst (handler.pageChecker db' "unwritten-topic") = true /\
  revisions db' = revisions db.
Proof.
  pose proof (processWikiLinks_resolves_all (ExtractLinks_head AsciiLib)
                (run keep_first (empty_db [1]) [OpCreatePage "a" "A" "x" 1 10])
                "[[Unwritten Topic|see here]]" 1 1 20) as H.
  destruct H as [H1 [_ [_ [H2 _]]]].
  - vm_compute. left. reflexivity.
  - vm_compute. left. reflexivity.
  - split; [|exact H2].
    apply (H1 (markdown.mkLinkInfo "unwritten-topic" "see here")).
    vm_compute. left. reflexivity.
Defined.

Lemma has_byte_app (a b : string) (c : ascii) :
  has_byte (a ++ b) c = has_byte a c || has_byte b c.
Proof.
  induction a as [|d a IH]; simpl; [reflexivity|].
  rewrite IH. apply orb_assoc.
Qed.

(** The bytes that must not reach an attribute value or element text
    unescaped. *)
Lemma escape_byte_safe (c d : ascii) :
  In d ["<"%char; ">"%char; dquote; "'"%char] ->
  has_byte (escape_byte c) d = false.
Proof.
  intros Hd. unfold escape_byte.
  destruct (Ascii.eqb c "&"%char) eqn:E1;
    [destruct Hd as [<-|[<-|[<-|[<-|[]]]]]; reflexivity|].
  destruct (Ascii.eqb c "'"%char) eqn:E2;
    [destruct Hd as [<-|[<-|[<-|[<-|[]]]]]; reflexivity|].
  destruct (Ascii.eqb c "<"%char) eqn:E3;
    [destruct Hd as [<-|[<-|[<-|[<-|[]]]]]; reflexivity|].
  destruct (Ascii.eqb c ">"%char) eqn:E4;
    [destruct Hd as [<-|[<-|[<-|[<-|[]]]]]; reflexivity|].
  destruct (Ascii.eqb c dquote) eqn:E5;
    [destruct Hd as [<-|[<-|[<-|[<-|[]]]]]; reflexivity|].
  simpl. rewrite orb_false_r.
  destruct Hd as [<-|[<-|[<-|[<-|[]]]]]; assumption.
Qed.

Lemma EscapeString_safe (s : string) (d : ascii) :
  In d ["<"%char; ">"%char; dquote; "'"%char] ->
  has_byte (EscapeString s) d = false.
Proof.
  intros Hd. induction s as [|c s IH]; simpl; [reflexivity|].
  rewrite has_byte_app, IH, (escape_byte_safe c d Hd). reflexivity.
Qed.

Lemma escape_slug_byte (c : ascii) :
  is_slug_byte c = true -> escape_byte c = String c EmptyString.
Proof.
  intros H. unfold escape_byte.
  destruct (Ascii.eqb_spec c "&"%char) as [->|_]; [discriminate H|].
  destruct (Ascii.eqb_spec c "'"%char) as [->|_]; [discriminate H|].
  destruct (Ascii.eqb_spec c "<"%char) as [->|_]; [discriminate H|].
  destruct (Ascii.eqb_spec c ">"%char) as [->|_]; [discriminate H|].
  destruct (Ascii.eqb_spec c dquote) as [->|_]; [discriminate H|].
  reflexivity.
Qed.

Lemma EscapeString_slug (s : string) : all_slug s = true -> EscapeString s = s.
Proof.
  induction s as [|c s IH]; simpl; [reflexivity|].
  intros H. apply andb_prop in H. destruct H as [Hc Hs].
  rewrite (escape_slug_byte c Hc), (IH Hs). reflexivity.
Qed.

(** X13.  The link written for a node that [Parse] has built: the target
    has the slug shape, so escaping leaves it as it is and the address is
    the slash followed by the target; the class is one of the two
    classes; the display text is written escaped and holds none of the
    bytes that could close the attribute or open a tag.  Nothing is
    written when the node is left. *)
Theorem renderWikiLink_parsed (U : UnicodeLib) (checker : option wikilink.PageChecker)
    (line : string) (wl : wikilink.WikiLink)
    (Hparse : wikilink.Parse U line = Some wl) :
  slug_shaped (wikilink.Target wl) /\
  (exists class,
      (class = "wiki-link" \/ class = "wiki-link phantom") /\
      wikilink.renderWikiLink checker wl true
      = ("<a href=" ++ dq ++ "/" ++ wikilink.Target wl ++ dq ++ " class=" ++ dq
         ++ class ++ dq ++ ">" ++ EscapeString (wikilink.DisplayText wl) ++ "</a>")%string) /\
  (forall d, In d ["<"%char; ">"%char; dquote; "'"%char] ->
             has_byte (EscapeString (wikilink.DisplayText wl)) d = false) /\
  wikilink.renderWikiLink checker wl false = "".
Proof.
  destruct (Parse_sound U line wl Hparse)
    as (content & rest & title & display & _ & _ & _ & _ & _ & ->).
  pose proof (Slugify_shape U title) as Hshape.
  split; [exact Hshape|]. split; [|split].
  - unfold wikilink.renderWikiLink. cbn [negb wikilink.Target wikilink.DisplayText].
    rewrite (EscapeString_slug (Slugify U title)) by apply Hshape.
    destruct checker as [check|].
    + destruct (check (Slugify U title)) as [ex ph].
      destruct (negb ex || ph).
      * exists "wiki-link phantom"%string. split; [right; reflexivity | reflexivity].
      * exists "wiki-link"%string. split; [left; reflexivity | reflexivity].
    + exists "wiki-link"%string. split; [left; reflexivity | reflexivity].
  - intros d Hd. apply EscapeString_safe, Hd.
  - reflexivity.
Qed.

(** X13, for a link whose display text holds markup. *)
Lemma renderWikiLink_parsed_witness :
  wikilink.renderWikiLink None (wikilink.NewWikiLink "a-b" "<b>A & B</b>") false = "".
Proof.
  apply (renderWikiLink_parsed AsciiLib None "[[A B|<b>A & B</b>]]"
           (wikilink.NewWikiLink "a-b" "<b>A & B</b>")).
  vm_compute. reflexivity.
Defined.

(** X14.  With the page checker that the handlers install, a link gets
    the class [wiki-link] exactly when a row has the target as its slug
    and that row is not a phantom; a deletion mark on the row plays no
    part.  The checker never reports a page as existing without knowing
    whether it is a phantom. *)
Theorem link_class_follows_store (db : DB) (n : wikilink.WikiLink) :
  handler.pageChecker db (wikilink.Target n)
  = match select_page_by_slug db (wikilink.Target n) with
    | Some p => (true, Page.IsPhantom p)
    | None => (false, false)
    end /\
  wikilink.renderWikiLink (Some (handler.pageChecker db)) n true
  = ("<a href=" ++ dq ++ "/" ++ EscapeString (wikilink.Target n) ++ dq ++ " class=" ++ dq
     ++ match select_page_by_slug db (wikilink.Target n) with
        | Some p => if Page.IsPhantom p then "wiki-link phantom" else "wiki-link"
        | None => "wiki-link phantom"
        end
     ++ dq ++ ">" ++ EscapeString (wikilink.DisplayText n) ++ "</a>")%string.
Proof.
  split; [apply pageChecker_select|].
  unfold wikilink.renderWikiLink. cbn [negb].
  rewrite pageChecker_select.
  destruct (select_page_by_slug db (wikilink.Target n)) as [p|]; [|reflexivity].
  destruct (Page.IsPhantom p); reflexivity.
Qed.

(** ** Deleting through the handler, and flash messages *)

(** X15.  [DeletePage] leaves the store alone unless the user is an
    admin and the slug leads to a row without a deletion mark.  Then the
    row is marked, its index entry is gone, the lookup by slug returns
    the marked row, and for a real page [ViewPage] shows the deleted
    notice instead of the text.  A second deletion is answered with
    "Failed to delete page". *)
Theorem DeletePage_cases (tie : Revision.t -> Revision.t -> bool)
    (Render : string -> option string)
    (db : DB) (slug role : string) (now : Z)
    (Hdb : NoDup (page_ids db)) :
  let out := handler.DeletePage db slug role now in
  match select_page_by_slug db slug with
  | None => out = (db, handler.RenderError "Page not found")
  | Some page =>
    if negb (String.eqb role "admin") then
      out = (db, handler.RenderError "Only admins can delete pages")
    else if is_deleted page then
      out = (db, handler.Flash "danger" "Failed to delete page")
    else
      snd out = handler.Flash "success" "Page deleted" /\
      fts_has (fst out) (Page.ID page) = false /\
      GetPageBySlug (fst out) slug = Ok (mark_deleted now page) /\
      (Page.IsPhantom page = false ->
       forall loggedIn,
         handler.ViewPage tie Render (fst out) slug loggedIn
         = handler.DeletedView (mark_deleted now page)) /\
      (forall now2,
          handler.DeletePage (fst out) slug role now2
          = (fst out, handler.Flash "danger" "Failed to delete page"))
  end.
Proof.
  cbv zeta.
  destruct (select_page_by_slug db slug) as [page|] eqn:Es;
    [|unfold handler.DeletePage, GetPageBySlug; rewrite Es; reflexivity].
  assert (Hout : handler.DeletePage db slug role now
                 = if negb (String.eqb role "admin") then
                     (db, handler.RenderError "Only admins can delete pages")
                   else
                     match SoftDeletePage db (Page.ID page) now with
                     | (db', Err _) => (db', handler.Flash "danger" "Failed to delete page")
                     | (db', Ok _) => (db', handler.Flash "success" "Page deleted")
                     end).
  { unfold handler.DeletePage, GetPageBySlug. rewrite Es. reflexivity. }
  rewrite Hout. clear Hout.
  destruct (String.eqb role "admin") eqn:Er; cbn [negb]; [|reflexivity].
  pose proof (select_by_slug_some db slug page Es) as [Hin Hslug].
  destruct (is_deleted page) eqn:Ed.
  - rewrite SoftDeletePage_none; [reflexivity|].
    destruct (existsb (deletable (Page.ID page)) (pages db)) eqn:Ex; [|reflexivity].
    exfalso. apply existsb_exists in Ex. destruct Ex as [q [Hq Hdq]].
    unfold deletable in Hdq. apply andb_true_iff in Hdq. destruct Hdq as [Hid Hlive].
    apply Z.eqb_eq in Hid.
    assert (q = page).
    { pose proof (find_by_id_NoDup (pages db) q Hdb Hq) as F1.
      pose proof (find_by_id_NoDup (pages db) page Hdb Hin) as F2.
      rewrite Hid in F1. congruence. }
    subst q. rewrite Ed in Hlive. discriminate.
  - assert (Hex : existsb (deletable (Page.ID page)) (pages db) = true).
    { apply existsb_exists. exists page. split; [exact Hin|].
      unfold deletable. rewrite Z.eqb_refl, Ed. reflexivity. }
    rewrite (SoftDeletePage_some db (Page.ID page) now Hex).
    cbn [fst snd].
    set (db1 := mkDB _ _ _ _).
    assert (Hsel1 : select_page_by_slug db1 slug = Some (mark_deleted now page)).
    { unfold select_page_by_slug. change (pages db1)
        with (map (fun p => if deletable (Page.ID page) p then mark_deleted now p else p)
                  (pages db)).
      rewrite find_slug_map.
      - fold (select_page_by_slug db slug). rewrite Es. simpl.
        unfold deletable. rewrite Z.eqb_refl, Ed. reflexivity.
      - intros p. destruct (deletable (Page.ID page) p); reflexivity. }
    assert (Hget : GetPageBySlug db1 slug = Ok (mark_deleted now page))
      by (unfold GetPageBySlug; rewrite Hsel1; reflexivity).
    split; [reflexivity|]. split; [apply (fts_has_delete_same db (Page.ID page))|].
    split; [exact Hget|]. split.
    + intros Hreal loggedIn. unfold handler.ViewPage. rewrite Hget.
      cbn [Page.IsPhantom mark_deleted]. rewrite Hreal. reflexivity.
    + intros now2. unfold handler.DeletePage. rewrite Hget, Er. cbn [negb].
      cbn [Page.ID mark_deleted].
      rewrite SoftDeletePage_none; [reflexivity|].
      apply deletable_after_mark.
Qed.

(** X15, at a concrete store. *)
Lemma DeletePage_cases_witness :
  let db := run keep_first (empty_db [1]) [OpCreatePage "a" "A" "x" 1 10] in
  snd (handler.DeletePage db "a" "admin" 20) = handler.Flash "success" "Page deleted".
Proof.
  pose proof (DeletePage_cases keep_first (fun s => Some s)
                (run keep_first (empty_db [1]) [OpCreatePage "a" "A" "x" 1 10])
                "a" "admin" 20) as H.
  apply H. vm_compute. repeat constructor; simpl; intuition discriminate.
Defined.

(** X16.  A flash message added for a session is handed out by the next
    [GetFlashes] of that session, after the messages that were waiting
    and once only: a second [GetFlashes] finds nothing.  The messages of
    other sessions are not touched by either call, and a request
    without a session neither stores nor receives messages. *)
Theorem flash_delivered_once (flashes : handler.Flashes) (id typ message : string) :
  let added := handler.AddFlash flashes (Some id) typ message in
  let got := handler.GetFlashes added (Some id) in
  fst got = flashes id ++ [(typ, message)] /\
  fst (handler.GetFlashes (snd got) (Some id)) = [] /\
  (forall other, other <> id ->
                 added other = flashes other /\ snd got other = flashes other) /\
  handler.AddFlash flashes None typ message = flashes /\
  handler.GetFlashes flashes None = ([], flashes).
Proof.
  cbv zeta. unfold handler.AddFlash, handler.GetFlashes. cbn [fst snd].
  rewrite String.eqb_refl. repeat split.
  - apply String.eqb_neq in H. rewrite H. reflexivity.
  - apply String.eqb_neq in H. rewrite H. reflexivity.
Qed.

(** ** Looking revisions up and counting them *)

Lemma find_app_none {A : Type} (P : A -> bool) (l l' : list A) :
  find P l = None -> find P (l ++ l') = find P l'.
Proof.
  induction l as [|a l IH]; simpl; [reflexivity|].
  destruct (P a); [discriminate | exact IH].
Qed.

Lemma find_app_some {A : Type} (P : A -> bool) (l l' : list A) (x : A) :
  find P l = Some x -> find P (l ++ l') = Some x.
Proof.
  induction l as [|a l IH]; simpl; [discriminate|].
  destruct (P a); [intros H; exact H | exact IH].
Qed.

(** X17.  After a successful [UpdatePage] the revision it wrote can be
    fetched by its id, which no earlier revision has; every revision
    that could be fetched before is fetched unchanged; and the page's
    [RevisionCount] has grown by one while that of every other page is
    the same. *)
Theorem UpdatePage_revision_lookup (db : DB) (pageID : Z) (title content : string)
    (authorID now : Z)
    (Hok : snd (UpdatePage db pageID title content authorID now) = Ok tt) :
  let db' := fst (UpdatePage db pageID title content authorID now) in
  let rev := new_revision db pageID content authorID now in
  GetRevisionByID db' (Revision.ID rev) = Ok rev /\
  GetRevisionByID db (Revision.ID rev) = Err ErrNotFound /\
  (forall i r, GetRevisionByID db i = Ok r -> GetRevisionByID db' i = Ok r) /\
  RevisionCount db' pageID = RevisionCount db pageID + 1 /\
  (forall other, other <> pageID -> RevisionCount db' other = RevisionCount db other).
Proof.
  cbv zeta. rewrite UpdatePage_eq in *.
  destruct (mem_id pageID (page_ids db) && mem_id authorID (users db)) eqn:Ec;
    [|simpl in Hok; discriminate].
  apply andb_true_iff in Ec. destruct Ec as [_ Hauthor].
  cbn [fst].
  set (rev := new_revision db pageID content authorID now).
  assert (Hfresh : find (fun r => (Revision.ID r =? Revision.ID rev)
                                  && mem_id (Revision.AuthorID r) (users db))
                        (revisions db) = None).
  { destruct (find _ (revisions db)) as [r|] eqn:Ef; [|reflexivity].
    exfalso. apply find_some in Ef. destruct Ef as [Hin Hr].
    apply andb_true_iff in Hr. destruct Hr as [Hid _]. apply Z.eqb_eq in Hid.
    apply (next_id_fresh (map Revision.ID (revisions db))).
    change (next_id (map Revision.ID (revisions db))) with (Revision.ID rev).
    rewrite <- Hid. apply in_map, Hin. }
  split; [|split; [|split; [|split]]].
  - unfold GetRevisionByID. cbn [revisions users].
    rewrite (find_app_none _ _ _ Hfresh). simpl.
    rewrite Z.eqb_refl, Hauthor. reflexivity.
  - unfold GetRevisionByID. rewrite Hfresh. reflexivity.
  - intros i r. unfold GetRevisionByID. cbn [revisions users]. intros H.
    destruct (find (fun r0 => (Revision.ID r0 =? i)
                              && mem_id (Revision.AuthorID r0) (users db))
                   (revisions db)) as [r0|] eqn:Ef; [|discriminate H].
    injection H as ->. rewrite (find_app_some _ _ _ _ Ef). reflexivity.
  - unfold RevisionCount. cbn [revisions].
    rewrite filter_app, List.length_app. simpl. rewrite Z.eqb_refl. simpl. lia.
  - intros other Hother. unfold RevisionCount. cbn [revisions].
    rewrite filter_app, List.length_app. simpl.
    destruct (Z.eqb_spec pageID other); [congruence|]. simpl. lia.
Qed.

(** X17, at a concrete store. *)
Lemma UpdatePage_revision_lookup_witness :
  let db := run keep_first (empty_db [1]) [OpCreatePage "a" "A" "x" 1 10] in
  GetRevisionByID (fst (UpdatePage db 1 "A" "y" 1 20)) 2
  = Ok (Revision.mk 2 1 "y" 1 20).
Proof.
  assert (Hok : snd (UpdatePage
                       (run keep_first (empty_db [1]) [OpCreatePage "a" "A" "x" 1 10])
                       1 "A" "y" 1 20) = Ok tt)
    by (vm_compute; reflexivity).
  exact (proj1 (UpdatePage_revision_lookup
                  (run keep_first (empty_db [1]) [OpCreatePage "a" "A" "x" 1 10])
                  1 "A" "y" 1 20 Hok)).
Defined.

(** ** The search query *)

Lemma has_byte_RemoveBytes (s : string) (olds : list ascii) (c : ascii) :
  In c olds -> has_byte (RemoveBytes s olds) c = false.
Proof.
  intros Hc. induction s as [|d s IH]; simpl; [reflexivity|].
  destruct (existsb (Ascii.eqb d) olds) eqn:E; [exact IH|].
  simpl. rewrite IH, orb_false_r.
  destruct (Ascii.eqb d c) eqn:Edc; [|reflexivity].
  assert (Hex : existsb (Ascii.eqb d) olds = true)
    by (apply existsb_exists; exists c; split; assumption).
  congruence.
Qed.

Lemma has_byte_rev_onto (s acc : string) (c : ascii) :
  has_byte (rev_onto s acc) c = has_byte s c || has_byte acc c.
Proof.
  revert acc. induction s as [|d s IH]; intros acc; simpl; [reflexivity|].
  rewrite IH. simpl.
  destruct (Ascii.eqb d c); destruct (has_byte s c); destruct (has_byte acc c);
    reflexivity.
Qed.

Lemma has_byte_rev (s : string) (c : ascii) : has_byte (rev s) c = has_byte s c.
Proof. unfold rev. rewrite has_byte_rev_onto. simpl. apply orb_false_r. Qed.

Lemma Fields_from_bytes (c : ascii) (s : string) :
  forall skip keep cur w,
    In w (Fields_from skip keep cur s) -> has_byte w c = true ->
    has_byte cur c = true \/ has_byte s c = true.
Proof.
  induction s as [|a rest IH]; intros skip keep cur w Hin Hw.
  - cbn [Fields_from] in Hin. unfold flush_field in Hin.
    destruct cur as [|x cur]; [destruct Hin|].
    destruct Hin as [<- | []]. left. rewrite has_byte_rev in Hw. exact Hw.
  - cbn [Fields_from] in Hin. cbn [has_byte].
    destruct skip as [|k].
    + destruct (DecodeRuneInString (String a rest)) as [r w0].
      destruct (IsSpace r).
      * apply in_app_or in Hin. destruct Hin as [Hin | Hin].
        -- unfold flush_field in Hin. destruct cur as [|x cur]; [destruct Hin|].
           destruct Hin as [<- | []]. left. rewrite has_byte_rev in Hw. exact Hw.
        -- destruct (IH _ _ _ _ Hin Hw) as [H | H]; [discriminate H|].
           right. rewrite H. apply orb_true_r.
      * destruct (IH _ _ _ _ Hin Hw) as [H | H].
        -- cbn [has_byte] in H. apply orb_true_iff in H. destruct H as [H | H].
           ++ right. rewrite H. reflexivity.
           ++ left. exact H.
        -- right. rewrite H. apply orb_true_r.
    + destruct (IH _ _ _ _ Hin Hw) as [H | H].
      * destruct keep; [|left; exact H].
        cbn [has_byte] in H. apply orb_true_iff in H. destruct H as [H | H].
        -- right. rewrite H. reflexivity.
        -- left. exact H.
      * right. rewrite H. apply orb_true_r.
Qed.

Lemma rev_onto_nonempty (s acc : string) : acc <> "" -> rev_onto s acc <> "".
Proof.
  revert acc. induction s as [|y s IH]; intros acc H; simpl; [exact H|].
  apply IH. discriminate.
Qed.

Lemma Fields_from_nonempty (s : string) :
  forall skip keep cur w, In w (Fields_from skip keep cur s) -> w <> "".
Proof.
  assert (Hflush : forall cur w, In w (flush_field cur) -> w <> ""%string).
  { intros cur w Hin. unfold flush_field in Hin.
    destruct cur as [|x cur]; [destruct Hin|]. destruct Hin as [<- | []].
    unfold rev. simpl. apply rev_onto_nonempty. discriminate. }
  induction s as [|a rest IH]; intros skip keep cur w Hin.
  - apply (Hflush cur). exact Hin.
  - cbn [Fields_from] in Hin. destruct skip as [|k].
    + destruct (DecodeRuneInString (String a rest)) as [r w0].
      destruct (IsSpace r).
      * apply in_app_or in Hin. destruct Hin as [Hin | Hin].
        -- apply (Hflush cur). exact Hin.
        -- apply (IH _ _ _ _ Hin).
      * apply (IH _ _ _ _ Hin).
    + apply (IH _ _ _ _ Hin).
Qed.

Lemma TrimLeftSpace_from_bytes (c : ascii) (s : string) :
  forall k, has_byte (TrimLeftSpace_from k s) c = true -> has_byte s c = true.
Proof.
  induction s as [|a rest IH]; intros k H; [exact H|].
  cbn [TrimLeftSpace_from] in H. cbn [has_byte].
  destruct k as [|k].
  - destruct (DecodeRuneInString (String a rest)) as [r w].
    destruct (IsSpace r); [|exact H].
    rewrite (IH _ H). apply orb_true_r.
  - rewrite (IH _ H). apply orb_true_r.
Qed.

Lemma TrimRightSpace_rev_bytes (c : ascii) (s : string) :
  forall k, has_byte (TrimRightSpace_rev k s) c = true -> has_byte s c = true.
Proof.
  induction s as [|a rest IH]; intros k H; [exact H|].
  cbn [TrimRightSpace_rev] in H. cbn [has_byte].
  destruct k as [|k].
  - destruct (DecodeLastRune_rev (String a rest)) as [r w].
    destruct (IsSpace r); [|exact H].
    rewrite (IH _ H). apply orb_true_r.
  - rewrite (IH _ H). apply orb_true_r.
Qed.

Lemma TrimSpace_bytes (c : ascii) (s : string) :
  has_byte (TrimSpace s) c = true -> has_byte s c = true.
Proof.
  unfold TrimSpace, TrimRightSpace, TrimLeftSpace. intros H.
  rewrite has_byte_rev in H. apply TrimRightSpace_rev_bytes in H.
  rewrite has_byte_rev in H. apply TrimLeftSpace_from_bytes in H. exact H.
Qed.

Lemma TrimSuffixByte_bytes (c x : ascii) (s : string) :
  has_byte (TrimSuffixByte s x) c = true -> has_byte s c = true.
Proof.
  induction s as [|a rest IH]; [intros H; exact H|].
  cbn [TrimSuffixByte]. destruct rest as [|b rest'].
  - destruct (Ascii.eqb a x); [discriminate | intros H; exact H].
  - cbn [has_byte] in *. intros H. apply orb_true_iff in H. destruct H as [H | H].
    + rewrite H. reflexivity.
    + rewrite (IH H). apply orb_true_r.
Qed.

Lemma TrimLeftByte_bytes (c x : ascii) (s : string) :
  has_byte (TrimLeftByte s x) c = true -> has_byte s c = true.
Proof.
  induction s as [|a rest IH]; [intros H; exact H|].
  cbn [TrimLeftByte]. destruct (Ascii.eqb a x); [|intros H; exact H].
  intros H. cbn [has_byte]. rewrite (IH H). apply orb_true_r.
Qed.

Lemma TrimRightByte_bytes (c x : ascii) (s : string) :
  has_byte (TrimRightByte s x) c = true -> has_byte s c = true.
Proof.
  induction s as [|a rest IH]; [intros H; exact H|].
  rewrite TrimRightByte_cons. cbn [has_byte].
  destruct (TrimRightByte rest x) as [|b t].
  - destruct (Ascii.eqb a x); [discriminate|].
    cbn [has_byte]. rewrite orb_false_r. intros H. rewrite H. reflexivity.
  - intros H. change (has_byte (String a (String b t)) c)
      with (Ascii.eqb a c || has_byte (String b t) c) in H.
    apply orb_true_iff in H. destruct H as [H | H].
    + rewrite H. reflexivity.
    + rewrite (IH H). apply orb_true_r.
Qed.

Lemma TrimByte_bytes (c x : ascii) (s : string) :
  has_byte (TrimByte s x) c = true -> has_byte s c = true.
Proof.
  unfold TrimByte. intros H. apply TrimLeftByte_bytes in H.
  apply TrimRightByte_bytes in H. exact H.
Qed.

Lemma fts_clean_sub (s s' : string) :
  (forall c, has_byte s' c = true -> has_byte s c = true) ->
  fts_clean s -> fts_clean s'.
Proof.
  intros Hsub Hs c Hc. destruct (has_byte s' c) eqn:E; [|reflexivity].
  rewrite <- (Hs c Hc). symmetry. apply Hsub, E.
Qed.

Lemma TrimByte_shape (s : string) :
  no_leading (TrimByte s hyphen) hyphen = true /\
  no_trailing (TrimByte s hyphen) hyphen = true.
Proof.
  unfold TrimByte. split.
  - apply no_leading_TrimLeft.
  - apply no_trailing_TrimLeft, no_trailing_TrimRight.
Qed.

Lemma sanitize_word_term (word t : string) :
  fts_clean word -> sanitize_word word = Some t -> fts_term t.
Proof.
  intros Hclean. unfold sanitize_word.
  set (w := TrimSpace word).
  assert (Hw : fts_clean w).
  { apply (fts_clean_sub word); [|exact Hclean].
    intros c. apply TrimSpace_bytes. }
  destruct (String.eqb w "" || String.eqb w "*" || String.eqb w "-");
    [discriminate|].
  destruct (HasSuffixByte w "*"%char).
  - set (base := TrimByte (TrimSuffixByte w "*"%char) hyphen).
    destruct (String.eqb base "") eqn:Eb; [discriminate|].
    cbn [negb]. intros [= <-]. exists base.
    apply String.eqb_neq in Eb.
    destruct (TrimByte_shape (TrimSuffixByte w "*"%char)) as [Hl Ht].
    repeat split; try assumption.
    + apply (fts_clean_sub w); [|exact Hw].
      intros c H. apply TrimByte_bytes in H. apply TrimSuffixByte_bytes in H. exact H.
    + right. reflexivity.
  - set (base := TrimByte w hyphen).
    destruct (String.eqb base "") eqn:Eb; [discriminate|].
    cbn [negb]. intros [= <-]. exists base.
    apply String.eqb_neq in Eb.
    destruct (TrimByte_shape w) as [Hl Ht].
    repeat split; try assumption.
    + apply (fts_clean_sub w); [|exact Hw].
      intros c H. apply TrimByte_bytes in H. exact H.
    + left. reflexivity.
Qed.

Lemma sanitize_terms_Forall (words : list string) :
  Forall fts_clean words -> Forall fts_term (sanitize_terms words).
Proof.
  induction words as [|w words IH]; intros H; [constructor|].
  inversion H as [|? ? Hw Hws]; subst. simpl.
  destruct (sanitize_word w) as [t|] eqn:E; [|apply IH, Hws].
  constructor; [apply (sanitize_word_term w t Hw E) | apply IH, Hws].
Qed.

Lemma sanitize_terms_length (words : list string) :
  (List.length (sanitize_terms words) <= List.length words)%nat.
Proof.
  induction words as [|w words IH]; simpl; [lia|].
  destruct (sanitize_word w); simpl; lia.
Qed.

Lemma fts_term_nonempty (t : string) : fts_term t -> t <> "".
Proof.
  intros [w [Hw [_ [_ [_ [-> | ->]]]]]].
  - discriminate.
  - destruct w; [congruence | discriminate].
Qed.

Lemma Join_empty (terms : list string) (sep : string) :
  Forall (fun t => t <> ""%string) terms -> Join terms sep = "" -> terms = [].
Proof.
  destruct terms as [|t terms]; [reflexivity|].
  intros H. inversion H as [|? ? Ht _]; subst.
  cbn [Join]. destruct terms as [|t2 terms].
  - intros E. contradiction.
  - destruct t; [contradiction | discriminate].
Qed.

(** X18.  The query that [sanitizeFTSQuery] hands to the index is a list
    of terms joined by single spaces, at most one per field of the
    input.  Each term is a word between double quotes or a prefix
    followed by a star, where the word or prefix is not empty, neither
    starts nor ends with a hyphen and holds no double quote and none of
    the other characters removed: a word cannot close its own quotes.
    The result is the empty string exactly when no term is left. *)
Theorem sanitizeFTSQuery_terms (query : string) :
  exists terms,
    sanitizeFTSQuery query = Join terms " " /\
    Forall fts_term terms /\
    (List.length terms
     <= List.length (Fields (RemoveBytes query fts_removed)))%nat /\
    (sanitizeFTSQuery query = "" <-> terms = []).
Proof.
  set (words := Fields (RemoveBytes query fts_removed)).
  exists (sanitize_terms words).
  assert (Hclean : Forall fts_clean words).
  { apply Forall_forall. intros w Hin c Hc.
    destruct (has_byte w c) eqn:E; [|reflexivity].
    destruct (Fields_from_bytes c _ _ _ _ _ Hin E) as [H | H]; [discriminate H|].
    rewrite (has_byte_RemoveBytes query fts_removed c Hc) in H. discriminate H. }
  pose proof (sanitize_terms_Forall words Hclean) as Hterms.
  assert (Heq : sanitizeFTSQuery query = Join (sanitize_terms words) " ").
  { unfold sanitizeFTSQuery. fold words.
    destruct words as [|w ws]; [reflexivity|].
    destruct (sanitize_terms (w :: ws)); reflexivity. }
  split; [exact Heq|]. split; [exact Hterms|].
  split; [apply sanitize_terms_length|].
  rewrite Heq. split.
  - apply Join_empty. eapply Forall_impl; [|exact Hterms].
    intros t. apply fts_term_nonempty.
  - intros ->. reflexivity.
Qed.

Lemma plain_byte_facts (c : ascii) :
  is_plain_byte c = true ->
  (b2z c <? RuneSelf) = true /\ IsSpace (b2z c) = false /\
  existsb (Ascii.eqb c) fts_removed = false /\
  Ascii.eqb c "*"%char = false /\ Ascii.eqb c hyphen = false.
Proof.
  intros H.
  destruct c as [[|] [|] [|] [|] [|] [|] [|] [|]];
    try discriminate H; repeat split; reflexivity.
Qed.

Lemma DecodeRune_ascii (c : ascii) (rest : string) :
  (b2z c <? RuneSelf) = true ->
  DecodeRuneInString (String c rest) = (b2z c, 1%nat).
Proof. intros H. unfold DecodeRuneInString. rewrite H. reflexivity. Qed.

Lemma append_nil_r (s : string) : (s ++ "")%string = s.
Proof. induction s as [|c s IH]; [reflexivity|]. simpl. rewrite IH. reflexivity. Qed.

Lemma rev_onto_rev_onto (a : string) :
  forall b c, rev_onto (rev_onto a b) c = rev_onto b (a ++ c).
Proof.
  induction a as [|x a IH]; intros b c; [reflexivity|].
  simpl. rewrite IH. reflexivity.
Qed.

Lemma rev_rev (s : string) : rev (rev s) = s.
Proof. unfold rev. rewrite rev_onto_rev_onto. simpl. apply append_nil_r. Qed.

Lemma all_plain_rev_onto (a : string) :
  forall b, all_plain (rev_onto a b) = all_plain a && all_plain b.
Proof.
  induction a as [|x a IH]; intros b; [reflexivity|].
  simpl. rewrite IH. simpl.
  destruct (is_plain_byte x); destruct (all_plain a); destruct (all_plain b); reflexivity.
Qed.

Lemma flush_field_rev (w : string) : w <> "" -> flush_field (rev w) = [w].
Proof.
  intros Hw. unfold flush_field.
  destruct (rev w) as [|x r] eqn:E.
  - exfalso. destruct w as [|y w]; [congruence|].
    unfold rev in E. simpl in E.
    apply (rev_onto_nonempty w (String y "")); [discriminate | exact E].
  - rewrite <- E, rev_rev. reflexivity.
Qed.

Lemma RemoveBytes_plain (w s : string) :
  all_plain w = true ->
  RemoveBytes (w ++ s) fts_removed = (w ++ RemoveBytes s fts_removed)%string.
Proof.
  induction w as [|c w IH]; intros H; [reflexivity|].
  cbn [all_plain] in H. apply andb_prop in H. destruct H as [Hc Hw].
  destruct (plain_byte_facts c Hc) as (_ & _ & Hrm & _ & _).
  change ((String c w ++ s)%string) with (String c (w ++ s)).
  cbn [RemoveBytes]. rewrite Hrm, (IH Hw). reflexivity.
Qed.

Lemma RemoveBytes_Join (ws : list string) :
  Forall plain_word ws ->
  RemoveBytes (Join ws " ") fts_removed = Join ws " ".
Proof.
  induction ws as [|w ws IH]; intros H; [reflexivity|].
  inversion H as [|? ? [_ Hw] Hws]; subst.
  cbn [Join]. destruct ws as [|w2 ws].
  - rewrite <- (append_nil_r w) at 1. rewrite (RemoveBytes_plain w "" Hw).
    apply append_nil_r.
  - rewrite (RemoveBytes_plain w _ Hw).
    change (RemoveBytes (" " ++ Join (w2 :: ws) " ") fts_removed)
      with (String " "%char (RemoveBytes (Join (w2 :: ws) " ") fts_removed)).
    rewrite (IH Hws). reflexivity.
Qed.

Lemma Fields_from_keep (k k' : bool) (cur s : string) :
  Fields_from 0 k cur s = Fields_from 0 k' cur s.
Proof. destruct s; reflexivity. Qed.

Lemma Fields_from_plain (w : string) :
  forall k cur s,
    all_plain w = true ->
    Fields_from 0 k cur (w ++ s) = Fields_from 0 true (rev_onto w cur) s.
Proof.
  induction w as [|c w IH]; intros k cur s H; [apply Fields_from_keep|].
  cbn [all_plain] in H. apply andb_prop in H. destruct H as [Hc Hw].
  destruct (plain_byte_facts c Hc) as (Hascii & Hsp & _ & _ & _).
  change ((String c w ++ s)%string) with (String c (w ++ s)).
  cbn [Fields_from]. rewrite (DecodeRune_ascii c (w ++ s) Hascii), Hsp.
  cbn [Nat.pred rev_onto]. apply IH, Hw.
Qed.

Lemma Fields_from_space (k : bool) (cur s : string) :
  Fields_from 0 k cur (String " "%char s)
  = flush_field cur ++ Fields_from 0 false "" s.
Proof.
  cbn [Fields_from]. rewrite DecodeRune_ascii by reflexivity. reflexivity.
Qed.

Lemma Fields_Join (ws : list string) :
  Forall plain_word ws -> Fields (Join ws " ") = ws.
Proof.
  unfold Fields. induction ws as [|w ws IH]; intros H; [reflexivity|].
  inversion H as [|? ? [Hne Hw] Hws]; subst.
  cbn [Join]. destruct ws as [|w2 ws].
  - rewrite <- (append_nil_r w) at 1. rewrite (Fields_from_plain w _ _ _ Hw).
    cbn [Fields_from]. apply (flush_field_rev w Hne).
  - rewrite (Fields_from_plain w _ _ _ Hw).
    change ((" " ++ Join (w2 :: ws) " ")%string)
      with (String " "%char (Join (w2 :: ws) " ")).
    rewrite Fields_from_space. fold (rev w). rewrite (flush_field_rev w Hne).
    rewrite (IH Hws). reflexivity.
Qed.

Lemma TrimSpace_plain (w : string) : plain_word w -> TrimSpace w = w.
Proof.
  intros [Hne Hw]. unfold TrimSpace.
  assert (Hl : TrimLeftSpace w = w).
  { destruct w as [|c w]; [reflexivity|].
    cbn [all_plain] in Hw. apply andb_prop in Hw. destruct Hw as [Hc _].
    destruct (plain_byte_facts c Hc) as (Hascii & Hsp & _ & _ & _).
    unfold TrimLeftSpace. cbn [TrimLeftSpace_from].
    rewrite (DecodeRune_ascii c w Hascii), Hsp. reflexivity. }
  rewrite Hl. unfold TrimRightSpace.
  assert (Hr : all_plain (rev w) = true).
  { unfold rev. rewrite all_plain_rev_onto, Hw. reflexivity. }
  destruct (rev w) as [|c r] eqn:E.
  - rewrite <- (rev_rev w), E. reflexivity.
  - cbn [all_plain] in Hr. apply andb_prop in Hr. destruct Hr as [Hc _].
    destruct (plain_byte_facts c Hc) as (Hascii & Hsp & _ & _ & _).
    cbn [TrimRightSpace_rev]. unfold DecodeLastRune_rev. rewrite Hascii, Hsp.
    rewrite <- E. apply rev_rev.
Qed.

Lemma plain_no_suffix (w : string) (x : ascii) :
  is_plain_byte x = false -> all_plain w = true -> HasSuffixByte w x = false.
Proof.
  intros Hx. induction w as [|c w IH]; intros H; [reflexivity|].
  cbn [all_plain] in H. apply andb_prop in H. destruct H as [Hc Hw].
  cbn [HasSuffixByte]. destruct w as [|d w]; [|apply IH, Hw].
  destruct (Ascii.eqb_spec c x) as [->|_]; [congruence | reflexivity].
Qed.

Lemma plain_no_trailing (w : string) :
  all_plain w = true -> no_trailing w hyphen = true.
Proof.
  induction w as [|c w IH]; intros H; [reflexivity|].
  cbn [all_plain] in H. apply andb_prop in H. destruct H as [Hc Hw].
  destruct (plain_byte_facts c Hc) as (_ & _ & _ & _ & Hh).
  cbn [no_trailing]. destruct w as [|d w]; [rewrite Hh; reflexivity | apply IH, Hw].
Qed.

Lemma sanitize_word_plain (w : string) :
  plain_word w -> sanitize_word w = Some (quoted w).
Proof.
  intros Hp. pose proof Hp as [Hne Hw]. unfold sanitize_word.
  rewrite (TrimSpace_plain w Hp).
  destruct w as [|c w]; [congruence|].
  pose proof Hw as Hw'. cbn [all_plain] in Hw'. apply andb_prop in Hw'.
  destruct Hw' as [Hc _].
  destruct (plain_byte_facts c Hc) as (_ & _ & _ & Hstar & Hh).
  assert (E1 : String.eqb (String c w) "*" = false).
  { apply String.eqb_neq. intros [= -> _]. discriminate Hstar. }
  assert (E2 : String.eqb (String c w) "-" = false).
  { apply String.eqb_neq. intros [= -> _]. discriminate Hh. }
  rewrite E1, E2. cbn [String.eqb orb].
  rewrite (plain_no_suffix (String c w) "*"%char eq_refl Hw).
  assert (Ht : TrimByte (String c w) hyphen = String c w).
  { unfold TrimByte.
    rewrite (TrimRight_no_trailing _ _ (plain_no_trailing _ Hw)).
    apply TrimLeft_no_leading. cbn [no_leading]. rewrite Hh. reflexivity. }
  rewrite Ht. reflexivity.
Qed.

Lemma sanitize_terms_plain (ws : list string) :
  Forall plain_word ws -> sanitize_terms ws = map quoted ws.
Proof.
  induction ws as [|w ws IH]; intros H; [reflexivity|].
  inversion H as [|? ? Hw Hws]; subst. simpl.
  rewrite (sanitize_word_plain w Hw), (IH Hws). reflexivity.
Qed.

(** X19.  A query of words made of ASCII letters and digits, separated
    by single spaces, comes out with every word between double quotes
    and the words in the same order, separated by single spaces: each
    word must match as it stands, and all of them must match. *)
Theorem sanitizeFTSQuery_plain_words (ws : list string)
    (Hws : Forall plain_word ws) :
  sanitizeFTSQuery (Join ws " ") = Join (map quoted ws) " ".
Proof.
  unfold sanitizeFTSQuery.
  rewrite (RemoveBytes_Join ws Hws), (Fields_Join ws Hws).
  rewrite (sanitize_terms_plain ws Hws).
  destruct ws as [|w ws]; reflexivity.
Qed.

(** X19, for the query of two words. *)
Lemma sanitizeFTSQuery_plain_words_witness :
  sanitizeFTSQuery "dragon Fire2" = Join [quoted "dragon"; quoted "Fire2"] " ".
Proof.
  apply (sanitizeFTSQuery_plain_words ["dragon"; "Fire2"]).
  repeat constructor; discriminate.
Defined.

(** ** What holds of every store that the operations build *)

Lemma revisions_of_new (db db' : DB) (pid : Z) (content : string) (a now : Z) :
  revisions db' = revisions db ++ [new_revision db pid content a now] ->
  users db' = users db -> In a (users db) ->
  revisions_of db' pid <> [].
Proof.
  intros Hr Hu Ha H.
  assert (Hin : In (new_revision db pid content a now) (revisions_of db' pid)).
  { unfold revisions_of. apply filter_In. split.
    - rewrite Hr. apply in_or_app. right. left. reflexivity.
    - simpl. rewrite Z.eqb_refl. simpl. apply mem_id_In. rewrite Hu. exact Ha. }
  rewrite H in Hin. destruct Hin.
Qed.

Lemma revisions_of_extend (db db' : DB) (added : list Revision.t) (i : Z) :
  revisions_extend db db' added ->
  revisions_of db i <> [] -> revisions_of db' i <> [].
Proof.
  intros [Hu Hr] H H'. apply H.
  destruct (revisions_of db i) as [|r l] eqn:E; [reflexivity|].
  exfalso.
  assert (Hin : In r (revisions_of db i)) by (rewrite E; left; reflexivity).
  unfold revisions_of in Hin. apply filter_In in Hin. destruct Hin as [Hin Hc].
  assert (Hin' : In r (revisions_of db' i)).
  { unfold revisions_of. apply filter_In. split.
    - rewrite Hr. apply in_or_app. left. exact Hin.
    - rewrite Hu. exact Hc. }
  rewrite H' in Hin'. destruct Hin'.
Qed.

Lemma CreatePhantom_shape (db : DB) (slug title : string) (u p now : Z) :
  fst (CreatePhantom db slug title u p now) = db \/
  exists id,
    In p (page_ids db) /\
    fst (CreatePhantom db slug title u p now)
    = mkDB (users db)
           (pages db ++ [Page.mk id slug title true (Some u) (Some p) None now now])
           (revisions db) (pages_fts db).
Proof.
  unfold CreatePhantom, GetPageBySlug.
  destruct (select_page_by_slug db slug); [left; reflexivity|].
  destruct (insert_page db slug title true (Some u) (Some p) now) as [[db' id]|] eqn:E;
    [|left; reflexivity].
  apply insert_page_inv in E. destruct E as [_ [_ [Hfk [-> ->]]]].
  right. exists (next_id (page_ids db)). split; [|reflexivity].
  apply mem_id_In. exact Hfk.
Qed.

Lemma RestorePage_pages (tie : Revision.t -> Revision.t -> bool)
    (db : DB) (pageID now : Z) :
  pages (fst (RestorePage tie db pageID now)) = pages db \/
  pages (fst (RestorePage tie db pageID now))
  = replace_by_id pageID (mark_restored now) (pages db).
Proof.
  unfold RestorePage.
  destruct (select_restore_row tie db pageID) as [[title content]|]; [|left; reflexivity].
  right.
  match goal with
  | |- context [insert_fts ?d pageID title content] =>
    destruct (insert_fts d pageID title content) as [db'|] eqn:E
  end.
  - apply insert_fts_inv in E. destruct E as [_ ->]. reflexivity.
  - reflexivity.
Qed.

Lemma exec_rows (tie : Revision.t -> Revision.t -> bool) (db : DB) (o : op) (q : Page.t) :
  In q (pages (exec tie db o)) -> row_origin db (exec tie db o) q.
Proof.
  assert (Hkept : In q (pages db) -> row_origin db (exec tie db o) q).
  { intros H. apply (row_kept _ _ _ q H); reflexivity. }
  destruct o as [slug title content a now | id title content a now
                | slug title u p now | id now | id now]; cbn [exec] in *.
  - unfold CreatePage in *.
    destruct (CreatePage_tx db slug title content a now) as [[db' pid]|] eqn:E;
      [|exact Hkept].
    pose proof (CreatePage_tx_author _ _ _ _ _ _ _ _ E) as Ha.
    pose proof (CreatePage_tx_shape _ _ _ _ _ _ _ _ E) as [_ [Hu [Hr [_ Hp]]]].
    cbn [fst] in *. intros Hq.
    pose proof (revisions_of_new db db' pid content a now Hr Hu Ha) as Hnew.
    destruct Hp as [[existing [_ [_ Hp]]] | Hp]; rewrite Hp in Hq.
    + apply In_replace_by_id in Hq.
      destruct Hq as [p0 [Hin [[Hid ->] | [_ ->]]]].
      * apply row_written; [reflexivity|]. cbn [converted Page.ID]. rewrite Hid.
        exact Hnew.
      * apply (row_kept _ _ _ p0 Hin); reflexivity.
    + apply in_app_or in Hq. destruct Hq as [Hq | [<- | []]].
      * apply (row_kept _ _ _ q Hq); reflexivity.
      * apply row_written; [reflexivity | exact Hnew].
  - rewrite UpdatePage_eq in *.
    destruct (mem_id id (page_ids db) && mem_id a (users db)); [|exact Hkept].
    cbn [fst pages]. intros Hq. apply In_replace_by_id in Hq.
    destruct Hq as [p0 [Hin [[_ ->] | [_ ->]]]];
      apply (row_kept _ _ _ p0 Hin); reflexivity.
  - destruct (CreatePhantom_shape db slug title u p now) as [E | [pid [Hp E]]];
      rewrite E in *; [exact Hkept|].
    cbn [pages]. intros Hq. apply in_app_or in Hq. destruct Hq as [Hq | [<- | []]].
    + apply (row_kept _ _ _ q Hq); reflexivity.
    + apply (row_cited _ _ _ p); [reflexivity | reflexivity | exact Hp].
  - destruct (existsb (deletable id) (pages db)) eqn:Ex.
    + rewrite (SoftDeletePage_some db id now Ex) in *. cbn [fst pages].
      intros Hq. apply in_map_iff in Hq. destruct Hq as [p0 [<- Hin]].
      apply (row_kept _ _ _ p0 Hin); destruct (deletable id p0); reflexivity.
    + rewrite (SoftDeletePage_none db id now Ex) in *. exact Hkept.
  - destruct (RestorePage_pages tie db id now) as [E | E]; rewrite E.
    + intros Hq. apply (row_kept _ _ _ q Hq); reflexivity.
    + intros Hq. apply In_replace_by_id in Hq.
      destruct Hq as [p0 [Hin [[_ ->] | [_ ->]]]];
        apply (row_kept _ _ _ p0 Hin); reflexivity.
Qed.

Lemma keys_extend_ids (db db' : DB) (i : Z) :
  keys_extend db db' -> In i (page_ids db) -> In i (page_ids db').
Proof.
  intros [added H] Hin. unfold page_ids in *.
  assert (Hfst : forall l, map Page.ID l = map fst (map page_key l)).
  { intros l. rewrite map_map. reflexivity. }
  rewrite Hfst in *. rewrite H, map_app. apply in_or_app. left. exact Hin.
Qed.

Lemma phantoms_cited_exec (tie : Revision.t -> Revision.t -> bool) (db : DB) (o : op) :
  phantoms_cited db -> phantoms_cited (exec tie db o).
Proof.
  intros Hdb q Hq Hph.
  destruct (exec_rows tie db o q Hq) as [q0 Hin _ Hc Hp | Hreal _ | i _ Hc Hi].
  - rewrite Hp in Hph. destruct (Hdb q0 Hin Hph) as [i [Hi1 Hi2]].
    exists i. split; [congruence|].
    apply (keys_extend_ids db); [apply exec_keys | exact Hi2].
  - congruence.
  - exists i. split; [exact Hc|].
    apply (keys_extend_ids db); [apply exec_keys | exact Hi].
Qed.

Lemma real_pages_written_exec (tie : Revision.t -> Revision.t -> bool)
    (db : DB) (o : op) :
  real_pages_written db -> real_pages_written (exec tie db o).
Proof.
  intros Hdb q Hq Hreal.
  destruct (exec_rows tie db o q Hq) as [q0 Hin Hid _ Hp | _ Hw | i Hph _ _].
  - rewrite Hp in Hreal. rewrite Hid.
    pose proof (Hdb q0 Hin Hreal) as H0.
    destruct (exec_revisions tie db o) as [He | [pid [c [a [_ He]]]]];
      apply (revisions_of_extend db _ _ _ He H0).
  - exact Hw.
  - congruence.
Qed.

Lemma run_invariants (tie : Revision.t -> Revision.t -> bool) (ops : list op) :
  forall db,
    phantoms_cited db -> real_pages_written db ->
    phantoms_cited (run tie db ops) /\ real_pages_written (run tie db ops).
Proof.
  induction ops as [|o ops IH]; intros db H1 H2; [split; assumption|].
  apply IH; [apply phantoms_cited_exec, H1 | apply real_pages_written_exec, H2].
Qed.

Lemma empty_invariants (us : list Z) :
  phantoms_cited (empty_db us) /\ real_pages_written (empty_db us).
Proof. split; intros p []. Qed.

(** X20.  [CreatePhantom] on a slug without a row adds a phantom with a
    fresh id, the slug and title given, the citing user and page and no
    deletion mark, and returns it, provided the user and the citing
    page exist; otherwise the insert fails on its foreign keys and the
    store is as it was.  On a slug with a row it returns that row.  No
    revision and no index entry is ever written. *)
Theorem CreatePhantom_cases (db : DB) (slug title : string)
    (citedByUserID citedInPageID now : Z) :
  let out := CreatePhantom db slug title citedByUserID citedInPageID now in
  match select_page_by_slug db slug with
  | Some existing => out = (db, Ok existing)
  | None =>
    if mem_id citedByUserID (users db) && mem_id citedInPageID (page_ids db) then
      let ph := Page.mk (next_id (page_ids db)) slug title true
                        (Some citedByUserID) (Some citedInPageID) None now now in
      out = (mkDB (users db) (pages db ++ [ph]) (revisions db) (pages_fts db), Ok ph)
    else out = (db, Err ErrConstraint)
  end.
Proof.
  cbv zeta. unfold CreatePhantom, GetPageBySlug.
  destruct (select_page_by_slug db slug) as [existing|] eqn:Es; [reflexivity|].
  unfold insert_page.
  apply select_by_slug_none in Es. rewrite Es. cbn [fk_ok].
  destruct (mem_id citedByUserID (users db)); cbn [negb andb]; [|reflexivity].
  destruct (mem_id citedInPageID (page_ids db)); cbn [negb]; [|reflexivity].
  f_equal. unfold GetPageByID, select_page_by_id. cbn [pages].
  set (ph := Page.mk (next_id (page_ids db)) slug title true
                     (Some citedByUserID) (Some citedInPageID) None now now).
  change (next_id (page_ids db)) with (Page.ID ph).
  rewrite find_snoc_fresh; [reflexivity|].
  apply next_id_fresh.
Qed.

(** X21.  On a store built by the operations from an empty one, every
    phantom that [ListPhantomsWithSource] lists comes with the slug and
    title of the page that first cited it: that page has a row, so the
    empty strings that the query falls back to never appear for want of
    a source. *)
Theorem phantom_sources_resolved (tie : Revision.t -> Revision.t -> bool)
    (us : list Z) (ops : list op) (ph : PhantomWithSource) :
  let db := run tie (empty_db us) ops in
  In ph (ListPhantomsWithSource db) ->
  exists src,
    In src (pages db) /\
    Page.FirstCitedInPageID (Page_ ph) = Some (Page.ID src) /\
    SourceSlug ph = Page.Slug src /\ SourceTitle ph = Page.Title src.
Proof.
  cbv zeta. set (db := run tie (empty_db us) ops).
  destruct (empty_invariants us) as [E1 E2].
  destruct (run_invariants tie ops (empty_db us) E1 E2) as [Hcited _].
  fold db in Hcited.
  unfold ListPhantomsWithSource. intros Hin.
  apply in_map_iff in Hin. destruct Hin as [p [<- Hp]].
  apply In_order_by in Hp. apply filter_In in Hp. destruct Hp as [Hp Hc].
  apply andb_true_iff in Hc. destruct Hc as [Hph _].
  destruct (Hcited p Hp Hph) as [i [Hi Hin]].
  unfold with_source. rewrite Hi. unfold select_page_by_id.
  destruct (find (fun q => Page.ID q =? i) (pages db)) as [src|] eqn:Ef.
  - apply find_some in Ef. destruct Ef as [Hsrc Hid]. apply Z.eqb_eq in Hid.
    exists src. cbn [Page_ SourceSlug SourceTitle]. rewrite Hid.
    repeat split; try reflexivity; assumption.
  - exfalso. unfold page_ids in Hin. apply in_map_iff in Hin.
    destruct Hin as [src [Hid Hsrc]].
    apply (find_none _ _ Ef) in Hsrc. rewrite Hid, Z.eqb_refl in Hsrc. discriminate.
Qed.

(** X21, at a concrete store: the page [a] cites the missing page [b]. *)
Lemma phantom_sources_resolved_witness :
  let db := run keep_first (empty_db [1])
              [OpCreatePage "a" "A" "x" 1 10; OpCreatePhantom "b" "B" 1 1 11] in
  let ph := mkPhantomWithSource (Page.mk 2 "b" "B" true (Some 1) (Some 1) None 11 11)
                                "a" "A" in
  exists src,
    In src (pages db) /\
    Page.FirstCitedInPageID (Page_ ph) = Some (Page.ID src) /\
    SourceSlug ph = Page.Slug src /\ SourceTitle ph = Page.Title src.
Proof.
  apply (phantom_sources_resolved keep_first [1]
           [OpCreatePage "a" "A" "x" 1 10; OpCreatePhantom "b" "B" 1 1 11]
           (mkPhantomWithSource (Page.mk 2 "b" "B" true (Some 1) (Some 1) None 11 11)
                                "a" "A")).
  vm_compute. left. reflexivity.
Defined.

(** X22.  What [ViewPage] shows on a store built by the operations from
    an empty one.  Without a row under the slug, or with a phantom, a
    signed-in user is sent to the edit form and anyone else sees the
    not-found page or the phantom notice; a real page with a deletion
    mark gives the deleted notice; any other page has a latest revision,
    which [GetCurrentRevision] returns and the view renders.  So the
    text of a phantom or of a soft-deleted page is never rendered, and
    the view never ends in "Database error" for want of a revision. *)
Theorem ViewPage_cases (tie : Revision.t -> Revision.t -> bool)
    (Render : string -> option string)
    (us : list Z) (ops : list op) (slug : string) (loggedIn : bool) :
  let db := run tie (empty_db us) ops in
  match select_page_by_slug db slug with
  | None =>
    handler.ViewPage tie Render db slug loggedIn
    = if loggedIn then handler.RedirectToEdit else handler.NotFoundView
  | Some page =>
    if Page.IsPhantom page then
      handler.ViewPage tie Render db slug loggedIn
      = if loggedIn then handler.RedirectToEdit else handler.PhantomView page
    else if is_deleted page then
      handler.ViewPage tie Render db slug loggedIn = handler.DeletedView page
    else
      exists rev,
        GetCurrentRevision tie db (Page.ID page) = Ok rev /\
        is_latest (revisions_of db (Page.ID page)) rev /\
        handler.ViewPage tie Render db slug loggedIn
        = match Render (Revision.Content rev) with
          | Some html =>
            handler.PageView page html rev (RevisionCount db (Page.ID page))
          | None => handler.ErrorView "Markdown error"
          end
  end.
Proof.
  cbv zeta. set (db := run tie (empty_db us) ops).
  destruct (empty_invariants us) as [E1 E2].
  destruct (run_invariants tie ops (empty_db us) E1 E2) as [_ Hwritten].
  fold db in Hwritten.
  unfold handler.ViewPage, GetPageBySlug.
  destruct (select_page_by_slug db slug) as [page|] eqn:Es; [|reflexivity].
  destruct (Page.IsPhantom page) eqn:Eph; [reflexivity|].
  destruct (is_deleted page); [reflexivity|].
  apply select_by_slug_some in Es. destruct Es as [Hin _].
  pose proof (Hwritten page Hin Eph) as Hrev.
  unfold GetCurrentRevision.
  destruct (latest tie (revisions_of db (Page.ID page))) as [rev|] eqn:El.
  - exists rev. split; [reflexivity|]. split; [apply (latest_is_latest tie), El|].
    reflexivity.
  - exfalso. apply Hrev. apply (latest_none tie), El.
Qed.

(** ** Titles without a slug *)

Lemma has_other_TrimLeft (s : string) (c : ascii) :
  has_other (TrimLeftByte s c) c = has_other s c.
Proof.
  induction s as [|d s IH]; [reflexivity|].
  cbn [TrimLeftByte]. destruct (Ascii.eqb d c) eqn:E; [|reflexivity].
  cbn [has_other]. rewrite E, IH. reflexivity.
Qed.

Lemma has_other_TrimRight (s : string) (c : ascii) :
  has_other (TrimRightByte s c) c = has_other s c.
Proof.
  induction s as [|d s IH]; [reflexivity|].
  rewrite TrimRightByte_cons. cbn [has_other]. rewrite <- IH.
  destruct (TrimRightByte s c) as [|b t].
  - destruct (Ascii.eqb d c) eqn:E; [reflexivity|].
    cbn [has_other]. rewrite E. reflexivity.
  - reflexivity.
Qed.

Lemma has_other_Collapse (s : string) (c : ascii) :
  has_other (CollapseRuns s c) c = has_other s c.
Proof.
  induction s as [|d s IH]; [reflexivity|].
  rewrite CollapseRuns_cons. cbn [has_other].
  destruct (Ascii.eqb d c) eqn:E.
  - destruct s as [|e s']; [cbn [has_other]; rewrite E; reflexivity|].
    destruct (Ascii.eqb e c) eqn:E2.
    + rewrite IH. reflexivity.
    + cbn [has_other]. rewrite E, IH. reflexivity.
  - cbn [has_other]. rewrite E, IH. reflexivity.
Qed.

Lemma no_leading_empty_iff (s : string) (c : ascii) :
  no_leading s c = true -> (s = "" <-> has_other s c = false).
Proof.
  destruct s as [|d s]; intros H; [split; reflexivity|].
  cbn [no_leading] in H. cbn [has_other]. rewrite H.
  split; discriminate.
Qed.

(** What lowering and the two replacements make of one byte, and when
    the loop of [Slugify] keeps it as something other than a hyphen. *)
Lemma slug_byte_of_plain (c : ascii) :
  (b2z c <? RuneSelf) = true ->
  let d := lower_byte c in
  let d := if Ascii.eqb d " "%char then hyphen else d in
  let d := if Ascii.eqb d "_"%char then hyphen else d in
  is_slug_byte d && negb (Ascii.eqb d hyphen) = is_plain_byte c.
Proof.
  intros H.
  destruct c as [[|] [|] [|] [|] [|] [|] [|] [|]];
    try discriminate H; reflexivity.
Qed.

Lemma has_other_keep (t : string) :
  is_ascii t = true ->
  has_other
    (keep_slug_bytes
       (ReplaceAllByte (ReplaceAllByte (lower_ascii t) " "%char hyphen) "_"%char hyphen))
    hyphen
  = has_plain t.
Proof.
  induction t as [|c t IH]; intros H; [reflexivity|].
  cbn [is_ascii] in H. apply andb_prop in H. destruct H as [Hc Ht].
  cbn [lower_ascii ReplaceAllByte keep_slug_bytes has_plain].
  pose proof (slug_byte_of_plain c Hc) as Hb. cbv zeta in Hb.
  set (d := if Ascii.eqb (if Ascii.eqb (lower_byte c) " "%char then hyphen
                          else lower_byte c) "_"%char
            then hyphen
            else if Ascii.eqb (lower_byte c) " "%char then hyphen else lower_byte c)
    in *.
  rewrite <- Hb, <- (IH Ht).
  destruct (is_slug_byte d); [|reflexivity].
  cbn [has_other andb]. reflexivity.
Qed.

(** X23.  A title of ASCII bytes has the empty slug exactly when none of
    its bytes is a letter or a digit: punctuation, spaces, underscores
    and hyphens alone leave nothing to link to. *)
Theorem Slugify_empty_iff (U : UnicodeLib) (HU : ascii_exact U) (title : string)
    (Hascii : is_ascii title = true) :
  Slugify U title = "" <-> has_plain title = false.
Proof.
  destruct HU as [HN HL].
  pose proof (Slugify_shape U title) as (_ & _ & Hlead & _).
  rewrite (no_leading_empty_iff _ hyphen Hlead).
  unfold Slugify, TrimByte.
  rewrite has_other_TrimLeft, has_other_TrimRight, has_other_Collapse.
  rewrite keep_slug_runes_range, (HN title Hascii), (HL title Hascii).
  rewrite (has_other_keep title Hascii). reflexivity.
Qed.

(** X23, for a title of punctuation. *)
Lemma Slugify_empty_iff_witness : Slugify AsciiLib "?! _-" = "" <-> has_plain "?! _-" = false.
Proof.
  apply (Slugify_empty_iff AsciiLib AsciiLib_exact "?! _-"). reflexivity.
Defined.

(** ** Resolving the links of a text twice *)

Lemma resolve_target_present (links : list markdown.LinkInfo) (u p now : Z)
    (db : DB) (t : string) :
  select_page_by_slug db t <> None ->
  handler.resolve_target links u p now db t = db.
Proof.
  intros H. unfold handler.resolve_target. rewrite PageExists_select.
  destruct (select_page_by_slug db t); [reflexivity | contradiction].
Qed.

Lemma resolve_fold_present (links : list markdown.LinkInfo) (u p now : Z)
    (targets : list string) (db : DB) :
  (forall t, In t targets -> select_page_by_slug db t <> None) ->
  fold_left (handler.resolve_target links u p now) targets db = db.
Proof.
  induction targets as [|t ts IH]; intros H; [reflexivity|].
  cbn [fold_left]. rewrite resolve_target_present by (apply H; left; reflexivity).
  apply IH. intros t' Ht'. apply H. right. exact Ht'.
Qed.

(** X24.  Resolving the links of a text is idempotent: once
    [processWikiLinks] has run for a known user and an existing citing
    page, running it again on the same text, for whatever user, page and
    time, changes nothing, so saving a text again adds no phantom. *)
Theorem processWikiLinks_idempotent
    (ExtractLinks : string -> list markdown.LinkInfo)
    (db : DB) (content : string) (userID pageID now : Z)
    (Huser : In userID (users db))
    (Hpage : In pageID (page_ids db)) :
  forall userID2 pageID2 now2,
    handler.processWikiLinks ExtractLinks
      (handler.processWikiLinks ExtractLinks db content userID pageID now)
      content userID2 pageID2 now2
    = handler.processWikiLinks ExtractLinks db content userID pageID now.
Proof.
  intros u2 p2 now2.
  set (db1 := handler.processWikiLinks ExtractLinks db content userID pageID now).
  unfold handler.processWikiLinks at 1.
  apply resolve_fold_present. intros t Ht.
  destruct (select_page_by_slug db t) as [q|] eqn:Es.
  - rewrite (select_by_slug_extend db db1 t q
               (processWikiLinks_extend ExtractLinks db content userID pageID now) Es).
    discriminate.
  - unfold db1, handler.processWikiLinks.
    destruct (resolve_fold_creates (ExtractLinks content) userID pageID now
                (markdown.UniqueTargets (ExtractLinks content)) t db
                (UniqueTargets_from_NoDup _ _) Ht Es Huser Hpage) as [id ->].
    discriminate.
Qed.

(** X24, at a concrete store. *)
Lemma processWikiLinks_idempotent_witness :
  let db := run keep_first (empty_db [1; 2])
              [OpCreatePage "a" "A" "x" 1 10; OpCreatePage "c" "C" "z" 2 11] in
  let db1 := handler.processWikiLinks (ExtractLinks_head AsciiLib) db
               "[[Unwritten Topic|see here]]" 1 1 20 in
  handler.processWikiLinks (ExtractLinks_head AsciiLib) db1
    "[[Unwritten Topic|see here]]" 2 2 30 = db1.
Proof.
  apply (processWikiLinks_idempotent (ExtractLinks_head AsciiLib)
           (run keep_first (empty_db [1; 2])
              [OpCreatePage "a" "A" "x" 1 10; OpCreatePage "c" "C" "z" 2 11])
           "[[Unwritten Topic|see here]]" 1 1 20).
  - vm_compute. left. reflexivity.
  - vm_compute. left. reflexivity.
Defined.

(** ** Deleting and restoring through the handlers *)

Lemma revisions_of_same (db db' : DB) (i : Z) :
  users db' = users db -> revisions db' = revisions db ->
  revisions_of db' i = revisions_of db i.
Proof. intros Hu Hr. unfold revisions_of. rewrite Hu, Hr. reflexivity. Qed.

(** X25.  An admin deletes a real page and restores it: both requests
    are answered with success; in between, the page view shows the
    deleted notice; afterwards it shows what it showed before the
    deletion, the same revision, rendering and revision count, with
    only the page's [UpdatedAt] moved to the time of the restore. *)
Theorem delete_then_restore_view (tie : Revision.t -> Revision.t -> bool)
    (Render : string -> option string)
    (db : DB) (slug : string) (page : Page.t) (t1 t2 : Z) (loggedIn : bool)
    (Hdb : NoDup (page_ids db))
    (Hsel : select_page_by_slug db slug = Some page)
    (Hreal : Page.IsPhantom page = false)
    (Hlive : is_deleted page = false) :
  let del := handler.DeletePage db slug "admin" t1 in
  let res := handler.AdminRestorePage tie (fst del) (Some (Page.ID page)) t2 in
  snd del = handler.Flash "success" "Page deleted" /\
  snd res = handler.Flash "success" "Page restored" /\
  handler.ViewPage tie Render (fst del) slug loggedIn
  = handler.DeletedView (mark_deleted t1 page) /\
  handler.ViewPage tie Render (fst res) slug loggedIn
  = match handler.ViewPage tie Render db slug loggedIn with
    | handler.PageView _ html rev n =>
      handler.PageView (mark_restored t2 page) html rev n
    | v => v
    end.
Proof.
  cbv zeta.
  pose proof (select_by_slug_some db slug page Hsel) as [Hin _].
  assert (Hex : existsb (deletable (Page.ID page)) (pages db) = true).
  { apply existsb_exists. exists page. split; [exact Hin|].
    unfold deletable. rewrite Z.eqb_refl, Hlive. reflexivity. }
  assert (Hdel : handler.DeletePage db slug "admin" t1
                 = (fst (SoftDeletePage db (Page.ID page) t1),
                    handler.Flash "success" "Page deleted")).
  { unfold handler.DeletePage, GetPageBySlug. rewrite Hsel. cbn [String.eqb negb].
    rewrite (SoftDeletePage_some db (Page.ID page) t1 Hex). reflexivity. }
  rewrite Hdel. cbn [fst snd].
  destruct (SoftDelete_Restore_shape tie db page t1 t2 Hdb Hin Hlive)
    as (_ & Hok & Hu & Hr & Hp & _ & _).
  cbv zeta in Hok, Hu, Hr, Hp.
  set (db1 := fst (SoftDeletePage db (Page.ID page) t1)) in *.
  unfold handler.AdminRestorePage.
  destruct (RestorePage tie db1 (Page.ID page) t2) as [db2 r2] eqn:Eres.
  cbn [fst snd] in Hok, Hu, Hr, Hp. subst r2. cbn [fst snd].
  split; [reflexivity|]. split; [reflexivity|]. split.
  - assert (Hsel1 : select_page_by_slug db1 slug = Some (mark_deleted t1 page)).
    { unfold db1. rewrite (SoftDeletePage_some db (Page.ID page) t1 Hex). cbn [fst].
      unfold select_page_by_slug. cbn [pages]. rewrite find_slug_map.
      - fold (select_page_by_slug db slug). rewrite Hsel. simpl.
        unfold deletable. rewrite Z.eqb_refl, Hlive. reflexivity.
      - intros p. destruct (deletable (Page.ID page) p); reflexivity. }
    unfold handler.ViewPage, GetPageBySlug. rewrite Hsel1.
    cbn [Page.IsPhantom mark_deleted]. rewrite Hreal. reflexivity.
  - assert (Hsel2 : select_page_by_slug db2 slug = Some (mark_restored t2 page)).
    { apply (select_slug_replace db db2 (Page.ID page) (mark_restored t2) slug page);
        [reflexivity | exact Hp | exact Hsel | reflexivity]. }
    unfold handler.ViewPage, GetPageBySlug. rewrite Hsel2, Hsel.
    cbn [Page.IsPhantom Page.ID mark_restored]. rewrite Hreal, Hlive.
    change (is_deleted (Page.mk (Page.ID page) (Page.Slug page) (Page.Title page) false
                          (Page.FirstCitedByUserID page) (Page.FirstCitedInPageID page)
                          None (Page.CreatedAt page) t2)) with false.
    unfold GetCurrentRevision, RevisionCount.
    rewrite (revisions_of_same db db2 (Page.ID page) Hu Hr), Hr.
    destruct (latest tie (revisions_of db (Page.ID page))) as [rev|]; [|reflexivity].
    destruct (Render (Revision.Content rev)); reflexivity.
Qed.

(** X25, at a concrete store. *)
Lemma delete_then_restore_view_witness :
  let db := run keep_first (empty_db [1]) [OpCreatePage "a" "A" "x" 1 10] in
  let page := Page.mk 1 "a" "A" false None None None 10 10 in
  let del := handler.DeletePage db "a" "admin" 20 in
  let res := handler.AdminRestorePage keep_first (fst del) (Some 1) 30 in
  handler.ViewPage keep_first (fun s => Some s) (fst res) "a" false
  = handler.PageView (mark_restored 30 page) "x" (Revision.mk 1 1 "x" 1 10) 1.
Proof.
  cbv zeta.
  pose proof (delete_then_restore_view keep_first (fun s => Some s)
                (run keep_first (empty_db [1]) [OpCreatePage "a" "A" "x" 1 10])
                "a" (Page.mk 1 "a" "A" false None None None 10 10) 20 30 false) as H.
  cbv zeta in H.
  destruct H as (_ & _ & _ & H).
  - vm_compute. repeat constructor; simpl; intuition discriminate.
  - reflexivity.
  - reflexivity.
  - reflexivity.
  - exact H.
Defined.

Lemma deleted_at_desc_sorted (l : list Page.t) :
  StronglySorted (fun a b => deleted_at_desc a b = true) (order_by deleted_at_desc l).
Proof.
  apply (StronglySorted_order_by deleted_at_desc).
  - intros a b H. exact H.
  - intros a b. unfold deleted_at_desc.
    destruct (Page.DeletedAt a) as [x|]; destruct (Page.DeletedAt b) as [y|];
      try discriminate; try reflexivity.
    intros H. apply Z.leb_gt in H. apply Z.leb_le. lia.
  - intros a b c. unfold deleted_at_desc.
    destruct (Page.DeletedAt a) as [x|]; destruct (Page.DeletedAt b) as [y|];
      destruct (Page.DeletedAt c) as [z|]; try discriminate; try reflexivity.
    intros H1 H2. apply Z.leb_le in H1, H2. apply Z.leb_le. lia.
Qed.

(** X26.  [ListDeletedPages] returns the rows with a deletion mark, each
    once, the one deleted last first: of two rows in the list, the
    earlier one has no earlier deletion time than the later one. *)
Theorem ListDeletedPages_latest_first (db : DB) :
  Permutation (ListDeletedPages db) (filter is_deleted (pages db)) /\
  StronglySorted
    (fun a b => exists x y, Page.DeletedAt a = Some x /\ Page.DeletedAt b = Some y /\ y <= x)
    (ListDeletedPages db).
Proof.
  split; [apply Permutation_order_by|].
  unfold ListDeletedPages.
  assert (Hall : Forall (fun p => is_deleted p = true)
                        (order_by deleted_at_desc (filter is_deleted (pages db)))).
  { apply Forall_forall. intros p Hp. apply In_order_by in Hp.
    apply filter_In in Hp. apply Hp. }
  pose proof (deleted_at_desc_sorted (filter is_deleted (pages db))) as Hs.
  induction Hs as [|a l Hs IH Ha]; [constructor|].
  inversion Hall as [|? ? Hda Hdl]; subst.
  constructor; [apply IH, Hdl|].
  rewrite Forall_forall in *. intros b Hb.
  specialize (Ha b Hb). specialize (Hdl b Hb).
  unfold deleted_at_desc in Ha. unfold is_deleted in Hda, Hdl.
  destruct (Page.DeletedAt a) as [x|]; [|discriminate].
  destruct (Page.DeletedAt b) as [y|]; [|discriminate].
  exists x, y. repeat split. apply Z.leb_le, Ha.
Qed.

